(** * GitLab tool server: gateway, normaliser, pagination and tool post-processing

    A shallow embedding of the TypeScript sources

      - [api-client]            ([fetchFromGitLabAPI]),
      - [tools/read.ts]         ([extractProjectPath], [readFile]),
      - [tools/glob.ts]         ([globFiles]),
      - [tools/search.ts]       ([searchCode]),
      - [tools/list_directory.ts] ([listDirectory]),

    together with the properties the specification states about them.

    JavaScript strings are sequences of UTF-16 code units.  The numbers
    a caller passes (a limit, an offset, a line range) are double
    precision values, with their rounding, their infinities, their two
    zeros and not-a-number; lengths, indices, byte sizes and status
    codes, which are integers by construction, are held in [Z].  Thrown
    values and results are made explicit by the [Outcome] type, and the
    host functions the code calls but does not define ([fetch],
    [JSON.parse], [JSON.stringify], [encodeURIComponent], [localeCompare],
    [picomatch]) are parameters.  An [async] function is embedded as the
    function from its arguments and the answers of the network to its
    outcome; the [onProgress] callback, which the tools call once and
    whose result they do not use, is left out. *)

From Stdlib Require Import ZArith NArith Lia Bool.
From Stdlib Require Import QArith Qround Qreduction Qabs Qpower Qcanon.
From Stdlib Require Import Strings.String Strings.Ascii Numbers.DecimalString.
From Stdlib Require Import Sorting.Sorted Sorting.Permutation.
From stdpp Require Import base option list gmap.

Local Open Scope Z_scope.

(** ** The host language *)

Module Js.

(** A string is the list of its UTF-16 code units. *)
Abbreviation codeunit := N (only parsing).
Abbreviation jsstring := (list N) (only parsing).

(** String literals of the source, written in ASCII. *)
Fixpoint lit (s : string) : jsstring :=
  match s with
  | EmptyString => []
  | String a r => N_of_ascii a :: lit r
  end.

Definition str_eqb (a b : jsstring) : bool := bool_decide (a = b).

(** [s.startsWith(p)] *)
Fixpoint startsWith (s p : jsstring) {struct p} : bool :=
  match p, s with
  | [], _ => true
  | _ :: _, [] => false
  | c :: p', d :: s' => (c =? d)%N && startsWith s' p'
  end.

(** [s.endsWith(p)] *)
Definition endsWith (s p : jsstring) : bool :=
  startsWith (rev s) (rev p).

(** [s.includes(p)] *)
Fixpoint includes (s p : jsstring) : bool :=
  startsWith s p ||
  match s with
  | [] => false
  | _ :: s' => includes s' p
  end.

(** Relative index of [Array.prototype.slice] and [String.prototype.slice]:
    a negative index counts from the end, and the result is kept within
    [0 .. len]. *)
Definition relative_index (len i : Z) : Z :=
  if i <? 0 then Z.max (len + i) 0 else Z.min i len.

(** [l.slice(start, end)]; [end] is [None] when the argument is omitted. *)
Definition slice {A} (l : list A) (start : Z) (end_ : option Z) : list A :=
  let len := Z.of_nat (length l) in
  let k := relative_index len start in
  let final := match end_ with
               | None => len
               | Some e => relative_index len e
               end in
  take (Z.to_nat (final - k)) (drop (Z.to_nat k) l).

(** [s.split(sep)] for a separator of one code unit. *)
Fixpoint split (sep : codeunit) (s : jsstring) : list jsstring :=
  match s with
  | [] => [[]]
  | c :: r =>
      if (c =? sep)%N then [] :: split sep r
      else match split sep r with
           | h :: t => (c :: h) :: t
           | [] => [[c]]
           end
  end.

(** [parts.join(sep)] *)
Fixpoint join (sep : jsstring) (parts : list jsstring) : jsstring :=
  match parts with
  | [] => []
  | [p] => p
  | p :: rest => p ++ sep ++ join sep rest
  end.

(** White space and line terminators, as [String.prototype.trim] removes
    them. *)
Definition is_whitespace (c : codeunit) : bool :=
  ((9 <=? c) && (c <=? 13) || (c =? 32) || (c =? 160) || (c =? 5760)
   || (8192 <=? c) && (c <=? 8202) || (c =? 8232) || (c =? 8233)
   || (c =? 8239) || (c =? 8287) || (c =? 12288) || (c =? 65279))%N.

Fixpoint trimStart (s : jsstring) : jsstring :=
  match s with
  | [] => []
  | c :: r => if is_whitespace c then trimStart r else s
  end.

Definition trimEnd (s : jsstring) : jsstring := rev (trimStart (rev s)).

(** [s.trim()] *)
Definition trim (s : jsstring) : jsstring := trimEnd (trimStart s).

Definition is_high_surrogate (c : codeunit) : bool :=
  ((55296 <=? c) && (c <=? 56319))%N.
Definition is_low_surrogate (c : codeunit) : bool :=
  ((56320 <=? c) && (c <=? 57343))%N.

(** [Buffer.byteLength(s, 'utf8')]: one byte below U+0080, two below
    U+0800, four for a surrogate pair, three otherwise (a lone surrogate
    is encoded as U+FFFD). *)
Fixpoint byteLength (s : jsstring) : Z :=
  match s with
  | [] => 0
  | c :: r =>
      if (c <? 128)%N then 1 + byteLength r
      else if (c <? 2048)%N then 2 + byteLength r
      else if is_high_surrogate c then
        match r with
        | d :: r' => if is_low_surrogate d then 4 + byteLength r'
                     else 3 + byteLength r
        | [] => 3
        end
      else 3 + byteLength r
  end.

(** [String(n)] and the interpolation of an integer in a template
    literal: its decimal digits (every integer printed here is far below
    the magnitude at which the host switches to exponent notation). *)
Definition number_toString (n : Z) : jsstring :=
  lit (NilZero.string_of_int (Z.to_int n)).

(** [Math.round(x / d)] for integers [x] and a positive [d]: the nearest
    integer, a half rounding up. *)
Definition round_div (x d : Z) : Z := (2 * x + d) / (2 * d).

(** *** Numbers

    A number is a double precision value: not-a-number, an infinity, a
    zero with its sign, or a finite value that is not zero, held as the
    rational number it is (in lowest terms). *)
Inductive number :=
| NaN
| Infinity (negative : bool)
| Zero (negative : bool)
| Finite (value : Q).

Fixpoint trailing_zeros (p : positive) : Z :=
  match p with
  | xO p' => 1 + trailing_zeros p'
  | _ => 0
  end.

(** A rational in lowest terms is a double when it is an odd integer of
    at most 53 bits times a power of two, the exponent of that power being
    at least -1074 and the whole below [2 ^ 1024]. *)
Definition is_double (q : Q) : bool :=
  match Qnum q with
  | 0 => false
  | Zpos n | Zneg n =>
      let k := Z.log2 (Zpos (Qden q)) in
      let j := trailing_zeros n in
      (Zpos (Qden q) =? 2 ^ k) && (Z.log2 (Zpos n) - j <=? 52)
      && (-1074 <=? j - k) && (Z.log2 (Zpos n) - k <=? 1023)
  end.

(** The integer [e] with [2 ^ e <= a < 2 ^ (e + 1)], for a positive [a]. *)
Definition floor_log2 (a : Q) : Z :=
  let g := Z.log2 (Qnum a) - Z.log2 (Zpos (Qden a)) in
  if Qle_bool (2 ^ g) a then g else g - 1.

Definition Qlt_bool (a b : Q) : bool := negb (Qle_bool b a).

(** The double nearest to a rational that is not zero, a tie going to the
    one whose last bit is even: with [2 ^ c] the distance between the
    doubles around [q], the multiples [k] and [k + 1] of it enclose the
    magnitude of [q]. *)
Definition nearest (q : Q) : number :=
  let negative := Qnum q <? 0 in
  let a := Qabs q in
  let c := Z.max (floor_log2 a) (-1022) - 52 in
  let scaled := (a / 2 ^ c)%Q in
  let k := Qfloor scaled in
  let rest := (scaled - inject_Z k)%Q in
  let m := if Qlt_bool rest (1 # 2) then k
           else if Qlt_bool (1 # 2) rest then k + 1
           else if Z.even k then k else k + 1 in
  let v := (inject_Z m * 2 ^ c)%Q in
  if m =? 0 then Zero negative
  else if Qle_bool (2 ^ 1024) v then Infinity negative
  else Finite (Qred (if negative then - v else v)).

(** The number for a rational, which is the result of an arithmetic
    operation before it is rounded: the rational itself when it is a
    double, the nearest double otherwise. *)
Definition number_for (q : Q) : number :=
  let r := Qred q in
  if Qnum r =? 0 then Zero false
  else if is_double r then Finite r
  else nearest r.

(** The number that is an integer: a literal of the source, the length of
    an array or an index into it (an array holds fewer than [2 ^ 32]
    elements).  These are integers of a magnitude below [2 ^ 53], all of
    which are doubles, so that nothing is rounded. *)
Definition whole (n : Z) : number :=
  if n =? 0 then Zero false else Finite (n # 1).

(** [- x] *)
Definition Number_unaryMinus (x : number) : number :=
  match x with
  | NaN => NaN
  | Infinity s => Infinity (negb s)
  | Zero s => Zero (negb s)
  | Finite q => Finite (Qred (- q))
  end.

(** [x + y] *)
Definition Number_add (x y : number) : number :=
  match x, y with
  | NaN, _ | _, NaN => NaN
  | Infinity s, Infinity t => if eqb s t then Infinity s else NaN
  | Infinity s, _ | _, Infinity s => Infinity s
  | Zero s, Zero t => Zero (s && t)
  | Zero _, Finite q | Finite q, Zero _ => Finite q
  | Finite p, Finite q => number_for (p + q)
  end.

(** [x - y] *)
Definition Number_subtract (x y : number) : number :=
  Number_add x (Number_unaryMinus y).

Definition is_negative (x : number) : bool :=
  match x with
  | NaN => false
  | Infinity s | Zero s => s
  | Finite q => Qnum q <? 0
  end.

(** [x / y] *)
Definition Number_divide (x y : number) : number :=
  let s := xorb (is_negative x) (is_negative y) in
  match x, y with
  | NaN, _ | _, NaN => NaN
  | Infinity _, Infinity _ => NaN
  | Infinity _, _ => Infinity s
  | _, Infinity _ => Zero s
  | Zero _, Zero _ => NaN
  | Zero _, Finite _ => Zero s
  | Finite _, Zero _ => Infinity s
  | Finite p, Finite q => number_for (p / q)
  end.

(** The order [Math.max] and [Math.min] compare by: that of the values,
    with the negative zero before the positive one. *)
Definition below (x y : number) : bool :=
  match x, y with
  | NaN, _ | _, NaN => false
  | Infinity s, Infinity t => s && negb t
  | Infinity s, _ => s
  | _, Infinity t => negb t
  | Zero s, Zero t => s && negb t
  | Zero _, Finite q => 0 <? Qnum q
  | Finite p, Zero _ => Qnum p <? 0
  | Finite p, Finite q => Qlt_bool p q
  end.

(** [Math.max(x, y)] *)
Definition Math_max (x y : number) : number :=
  match x, y with
  | NaN, _ | _, NaN => NaN
  | _, _ => if below x y then y else x
  end.

(** [Math.min(x, y)] *)
Definition Math_min (x y : number) : number :=
  match x, y with
  | NaN, _ | _, NaN => NaN
  | _, _ => if below y x then y else x
  end.

(** [Math.floor(x)]: the integer below a double is a double. *)
Definition Math_floor (x : number) : number :=
  match x with
  | Finite q => whole (Qfloor q)
  | _ => x
  end.

(** A number as a condition: not-a-number and the zeros are falsy. *)
Definition number_truthy (x : number) : bool :=
  match x with
  | NaN | Zero _ => false
  | _ => true
  end.

(** What [slice] makes of an argument before it counts: the number
    without its fraction. *)
Inductive IntegerOrInfinity :=
| MinusInfinity
| Integer (z : Z)
| PlusInfinity.

Definition Qtruncate (q : Q) : Z :=
  if Qnum q <? 0 then Qceiling q else Qfloor q.

Definition ToIntegerOrInfinity (x : number) : IntegerOrInfinity :=
  match x with
  | NaN | Zero _ => Integer 0
  | Infinity s => if s then MinusInfinity else PlusInfinity
  | Finite q => Integer (Qtruncate q)
  end.

Definition relative_index_of (len : Z) (x : number) : Z :=
  match ToIntegerOrInfinity x with
  | MinusInfinity => 0
  | Integer i => relative_index len i
  | PlusInfinity => len
  end.

(** [l.slice(start, end)] for arguments that are numbers. *)
Definition slice_numbers {A} (l : list A) (start : number) (end_ : option number)
  : list A :=
  let len := Z.of_nat (length l) in
  let k := relative_index_of len start in
  let final := match end_ with
               | None => len
               | Some e => relative_index_of len e
               end in
  take (Z.to_nat (final - k)) (drop (Z.to_nat k) l).

(** The integer [n] with [10 ^ n <= a < 10 ^ (n + 1)], for a positive
    [a], counted on the decimal digits of the whole part of [a], or of
    its inverse. *)
Definition floor_log10 (a : Q) : Z :=
  if Qle_bool 1 a then Z.of_nat (length (number_toString (Qfloor a))) - 1
  else
    let inverse := (/ a)%Q in
    let places := Z.of_nat (length (number_toString (Qfloor inverse))) - 1 in
    if Qeq_bool inverse (10 ^ places) then - places else - places - 1.

(** The integer [s] of [k] digits for which [s * 10 ^ (n - k)] is read
    back as the double [a], if there is one: of the two that enclose [a]
    the nearer is tried first. *)
Definition shortest_at (a : Q) (n k : Z) : option Z :=
  let unit := (10 ^ (n - k))%Q in
  let low := Qfloor (a / unit) in
  let reads s := match number_for (inject_Z s * unit) with
                 | Finite b => Qeq_bool a b
                 | _ => false
                 end in
  let under := (a - inject_Z low * unit)%Q in
  let over := (inject_Z (low + 1) * unit - a)%Q in
  let first := if Qlt_bool over under then low + 1
               else if Qlt_bool under over then low
               else if Z.even low then low else low + 1 in
  let second := if first =? low then low + 1 else low in
  if reads first then Some first
  else if reads second then Some second
  else None.

(** The least number of digits that give the double back, and the digits:
    seventeen always do. *)
Fixpoint shortest (a : Q) (n k : Z) (fuel : nat) : Z * Z :=
  match fuel with
  | O => (Qfloor (a / 10 ^ (n - k)), k)
  | S fuel' =>
      match shortest_at a n k with
      | Some s => (s, k)
      | None => shortest a n (k + 1) fuel'
      end
  end.

Definition zeros (n : Z) : jsstring := replicate (Z.to_nat n) 48%N.

(** [String(x)] for a positive finite number: the digits, with the point
    or the exponent where the language puts them. *)
Definition positive_toString (a : Q) : jsstring :=
  let n0 := floor_log10 a + 1 in
  let '(s0, k0) := shortest a n0 1 17 in
  let '(s, k, n) := if s0 =? 10 ^ k0 then (1, 1, n0 + 1) else (s0, k0, n0) in
  let ds := number_toString s in
  if (k <=? n) && (n <=? 21) then ds ++ zeros (n - k)
  else if (0 <? n) && (n <=? 21) then
    take (Z.to_nat n) ds ++ lit "." ++ drop (Z.to_nat n) ds
  else if (-6 <? n) && (n <=? 0) then
    lit "0." ++ zeros (- n) ++ ds
  else
    let e := n - 1 in
    let exponent := (if e <? 0 then lit "-" else lit "+") ++
                    number_toString (Z.abs e) in
    if k =? 1 then ds ++ lit "e" ++ exponent
    else take 1 ds ++ lit "." ++ drop 1 ds ++ lit "e" ++ exponent.

(** [String(x)] and the interpolation of a number in a template literal.
    An integer of a magnitude below [2 ^ 53] is printed by its digits. *)
Definition Number_toString (x : number) : jsstring :=
  match x with
  | NaN => lit "NaN"
  | Infinity s => if s then lit "-Infinity" else lit "Infinity"
  | Zero _ => lit "0"
  | Finite q =>
      if (Zpos (Qden q) =? 1) && (Z.abs (Qnum q) <? 2 ^ 53) then
        number_toString (Qnum q)
      else if Qnum q <? 0 then lit "-" ++ positive_toString (Qabs q)
      else positive_toString q
  end.

(** Thrown values.  The code tells an [Error] instance, of which it
    reads [name] and [message], from any other value, of which it uses
    the rendering [String(value)]. *)
Inductive Thrown :=
| ThrownError (name message : jsstring)
| ThrownValue (rendering : jsstring).

(** The result of running a function: it returns or it throws. *)
Inductive Outcome (A : Type) :=
| Return (a : A)
| Throw (e : Thrown).
Arguments Return {A} a.
Arguments Throw {A} e.

Definition bind {A B} (m : Outcome A) (k : A -> Outcome B) : Outcome B :=
  match m with
  | Return a => k a
  | Throw e => Throw e
  end.

(** [throw new Error(message)] *)
Definition throw_Error {A} (message : jsstring) : Outcome A :=
  Throw (ThrownError (lit "Error") message).

End Js.

Import Js.

#[export] Instance outcome_ret : MRet Outcome := @Return.
#[export] Instance outcome_bind : MBind Outcome :=
  fun A B k m => Js.bind m k.

(** ** Host functions the sources call but do not define *)

(** [Body] is the type of the values a caller may pass as a request body,
    [Signal] the type of abort signals.  [JSON.stringify] throws on a value
    it cannot serialise and gives [undefined] for some others;
    [encodeURIComponent] throws on a string with a lone surrogate.
    [picomatch pattern] stands for [picomatch(pattern)] of the
    [picomatch/posix] package: the matcher it builds for the pattern, or
    what it throws for a pattern it refuses, as it does for the empty
    one. *)
Class Host := {
  Body : Type;
  body_truthy : Body -> bool;
  JSON_stringify : Body -> Outcome (option jsstring);
  Signal : Type;
  encodeURIComponent : jsstring -> Outcome jsstring;
  localeCompare : jsstring -> jsstring -> Z;
  picomatch : jsstring -> Outcome (jsstring -> bool);
}.

(** [JSON.parse(text) as T]: [None] when [JSON.parse] throws. *)
Class Json (T : Type) := JSON_parse : jsstring -> option T.

(** ** api-client *)

Module ApiClient.

Record GitLabConfig := {
  baseURL : jsstring;
  token : jsstring;
}.

Inductive Method := GET | POST | PUT | DELETE.

Record FetchOptions {host : Host} := {
  method : option Method;
  headers : option (gmap jsstring jsstring);
  body : option Body;
  signal : option Signal;
}.

(** The options object [{}] every tool passes. *)
Definition no_options {host : Host} : FetchOptions :=
  {| method := None; headers := None; body := None; signal := None |}.

Record GitLabResponse (T : Type) := {
  ok : bool;
  status : Z;
  statusText : jsstring;
  text : option jsstring;
  data : option T;
}.
Arguments ok {T} _.
Arguments status {T} _.
Arguments statusText {T} _.
Arguments text {T} _.
Arguments data {T} _.

(** What [fetch] is called with. *)
Record RequestInit {host : Host} := {
  init_method : Method;
  init_headers : gmap jsstring jsstring;
  init_signal : option Signal;
  init_body : option jsstring;
}.

(** The part of a [Response] the gateway reads: [status], [statusText] and
    [headers.get('content-type')] ([None] for [null]). *)
Record Response := {
  response_status : Z;
  response_statusText : jsstring;
  response_contentType : option jsstring;
}.

(** [response.ok], which the Fetch standard defines as a status in the
    range 200 to 299. *)
Definition response_ok (r : Response) : bool :=
  (200 <=? response_status r) && (response_status r <=? 299).

(** One call of [fetch] followed by [response.text()]: the promise of
    [fetch] rejects, or it resolves to a response whose body is read to
    the end or fails while it is read. *)
Inductive FetchOutcome :=
| FetchRejects (e : Thrown)
| FetchResolves (response : Response) (body_text : Outcome jsstring).

(** The network: what a call of [fetch(url, init)] leads to. *)
Class Network {host : Host} := fetch : jsstring -> RequestInit -> FetchOutcome.

(** [s.replace(/\/$/, '')] *)
Definition strip_trailing_slash (s : jsstring) : jsstring :=
  if endsWith s (lit "/") then take (length s - 1)%nat s else s.

(** [s.replace(/^\//, '')] *)
Definition strip_leading_slash (s : jsstring) : jsstring :=
  if startsWith s (lit "/") then drop 1 s else s.

(** [error instanceof Error && error.name === 'AbortError'] *)
Definition is_AbortError (e : Thrown) : bool :=
  match e with
  | ThrownError name _ => str_eqb name (lit "AbortError")
  | ThrownValue _ => false
  end.

(** The [catch] block of [fetchFromGitLabAPI]. *)
Definition on_fetch_error {T} (error : Thrown) : Outcome (GitLabResponse T) :=
  if is_AbortError error then Throw error
  else Return {|
    ok := false;
    status := 0;
    statusText := match error with
                  | ThrownError _ message => message
                  | ThrownValue _ => lit "Network error"
                  end;
    text := Some match error with
                 | ThrownError _ message => message
                 | ThrownValue rendering => rendering
                 end;
    data := None;
  |}.

(** [contentType?.includes('application/json')] *)
Definition isJson (contentType : option jsstring) : bool :=
  match contentType with
  | Some c => includes c (lit "application/json")
  | None => false
  end.

(** Truthiness of a string: it is not empty. *)
Definition nonempty (s : jsstring) : bool :=
  match s with [] => false | _ :: _ => true end.

(** The [RequestInit] a call is issued with.  [JSON.stringify] runs before
    the [try] block. *)
Definition build_request {host : Host} (options : FetchOptions) (config : GitLabConfig)
  : Outcome RequestInit :=
  let requestHeaders : gmap jsstring jsstring :=
    default ∅ (headers options) ∪ {[ lit "PRIVATE-TOKEN" := token config ]} in
  let without_body :=
    {| init_method := default GET (method options);
       init_headers := requestHeaders;
       init_signal := signal options;
       init_body := None |} in
  match body options with
  | None => Return without_body
  | Some b =>
      if body_truthy b then
        serialised ← JSON_stringify b;
        Return {| init_method := default GET (method options);
                  init_headers :=
                    match requestHeaders !! lit "Content-Type" with
                    | Some (_ :: _) => requestHeaders
                    | _ => <[ lit "Content-Type" := lit "application/json" ]>
                             requestHeaders
                    end;
                  init_signal := signal options;
                  init_body := serialised |}
      else Return without_body
  end.

Definition request_url (path : jsstring) (config : GitLabConfig) : jsstring :=
  let apiBase := strip_trailing_slash (baseURL config) ++ lit "/api/v4" in
  if startsWith path (lit "http") then path
  else apiBase ++ lit "/" ++ strip_leading_slash path.

(** The [try] block of [fetchFromGitLabAPI] and its [catch]. *)
Definition send {host : Host} {network : Network} {T} {json : Json T}
    (url : jsstring) (requestInit : RequestInit) : Outcome (GitLabResponse T) :=
  match fetch url requestInit with
  | FetchRejects error => on_fetch_error error
  | FetchResolves response (Throw error) => on_fetch_error error
  | FetchResolves response (Return rawText) =>
      let data :=
        if response_ok response then
          if isJson (response_contentType response) && nonempty rawText
          then JSON_parse rawText
          else None
        else None in
      Return {|
        ok := response_ok response;
        status := response_status response;
        statusText := response_statusText response;
        text := Some rawText;
        data := data;
      |}
  end.

Definition fetchFromGitLabAPI {host : Host} {network : Network} {T} {json : Json T}
    (path : jsstring) (options : FetchOptions) (config : GitLabConfig)
  : Outcome (GitLabResponse T) :=
  let url := request_url path config in
  requestInit ← build_request options config;
  send url requestInit.

End ApiClient.

Import ApiClient.

(** ** tools: the project normaliser

    [read.ts], [glob.ts], [search.ts] and [list_directory.ts] each declare
    the same function, [project.replace(/\.git$/, '')
    .replace(/^https?:\/\/[^/]+\//, '')]; it is embedded once. *)

Module Project.

Definition slash : codeunit := 47%N.

(** [s.replace(/\.git$/, '')] *)
Definition strip_git_suffix (s : jsstring) : jsstring :=
  if endsWith s (lit ".git") then take (length s - 4)%nat s else s.

(** [pre] is dropped from the front of [s] when [s] starts with it. *)
Fixpoint after_prefix (pre s : jsstring) {struct pre} : option jsstring :=
  match pre, s with
  | [], _ => Some s
  | _ :: _, [] => None
  | c :: pre', d :: s' => if (c =? d)%N then after_prefix pre' s' else None
  end.

(** [[^/]+] at the front of [s]: the longest run of code units other than
    a slash, and what follows it. *)
Fixpoint span_host (s : jsstring) : jsstring * jsstring :=
  match s with
  | [] => ([], [])
  | c :: r => if (c =? slash)%N then ([], s)
              else let '(h, t) := span_host r in (c :: h, t)
  end.

(** What follows a match of [/^https?:\/\/[^/]+\//] at the front of [s],
    [None] when the expression does not match. *)
Definition after_scheme_and_host (s : jsstring) : option jsstring :=
  r ← after_prefix (lit "http") s;
  let r1 := match r with
            | c :: r' => if (c =? 115)%N then r' else r
            | [] => r
            end in
  r2 ← after_prefix (lit "://") r1;
  match span_host r2 with
  | (_ :: _, _ :: rest) => Some rest
  | _ => None
  end.

(** [s.replace(/^https?:\/\/[^/]+\//, '')] *)
Definition strip_scheme_and_host (s : jsstring) : jsstring :=
  default s (after_scheme_and_host s).

Definition extractProjectPath (project : jsstring) : jsstring :=
  strip_scheme_and_host (strip_git_suffix project).

End Project.

Import Project.

(** [`${response.status} ${response.statusText || 'Unknown error'}`], the
    tail of every failure message of the tools. *)
Definition status_line {T} (response : GitLabResponse T) : jsstring :=
  number_toString (status response) ++ lit " " ++
  (if nonempty (statusText response) then statusText response
   else lit "Unknown error").

(** ** tools/read.ts *)

Module Read.

Record GitLabReadArgs := {
  project : jsstring;
  path : jsstring;
  read_range : option (number * number);
}.

Record GitLabReadResult := {
  absolutePath : jsstring;
  content : jsstring;
}.

Definition newline : jsstring := [10%N].

(** The path normalisation of [readFile]. *)
Definition relative_path (path projectPath : jsstring) : jsstring :=
  let p1 := if startsWith path (lit "file://") then slice path 7 None else path in
  let pre := lit "/" ++ projectPath in
  let p2 := if startsWith p1 pre then slice p1 (Z.of_nat (length pre)) None else p1 in
  if startsWith p2 (lit "/") then slice p2 1 None else p2.

(** [startLine] and [endLine], for a file of [total] lines. *)
Definition line_bounds (total : Z) (read_range : option (number * number))
  : number * number :=
  match read_range with
  | Some (first, last) =>
      (Math_max (whole 1) first, Math_min (whole total) last)
  | None => (whole 1, whole total)
  end.

Definition size_cap : Z := 128 * 1024.

Definition too_large_message (contentSize : Z) (total : nat) : jsstring :=
  lit "File is too large (" ++ number_toString (round_div contentSize 1024) ++
  lit "KB). The file has " ++ number_toString (Z.of_nat total) ++
  lit " lines. Please retry with a smaller read_range parameter.".

(** [`${startLine + idx}: ${line}`] *)
Definition numbered (startLine : number) (idx : nat) (line : jsstring) : jsstring :=
  Number_toString (Number_add startLine (whole (Z.of_nat idx))) ++
  lit ": " ++ line.

(** [lines.slice(startLine - 1, endLine)] *)
Definition selected_lines (lines : list jsstring)
    (read_range : option (number * number)) : list jsstring :=
  let '(startLine, endLine) := line_bounds (Z.of_nat (length lines)) read_range in
  slice_numbers lines (Number_subtract startLine (whole 1)) (Some endLine).

(** [readFile] from the point where the file content is at hand: the
    numbered text of the selected lines, or the size error. *)
Definition read_content (content : jsstring)
    (read_range : option (number * number)) : Outcome jsstring :=
  let lines := split 10 content in
  let startLine := fst (line_bounds (Z.of_nat (length lines)) read_range) in
  let selectedLines := selected_lines lines read_range in
  let selectedContent := join newline selectedLines in
  let contentSize := byteLength selectedContent in
  if size_cap <? contentSize then
    throw_Error (too_large_message contentSize (length lines))
  else
    Return (join newline (imap (numbered startLine) selectedLines)).

Definition readFile {host : Host} {network : Network} {json : Json jsstring}
    (args : GitLabReadArgs) (config : GitLabConfig) : Outcome GitLabReadResult :=
  let projectPath := extractProjectPath (project args) in
  encodedProjectPath ← encodeURIComponent projectPath;
  let relativePath := relative_path (path args) projectPath in
  encodedFilePath ← encodeURIComponent relativePath;
  let apiPath := lit "projects/" ++ encodedProjectPath ++
                 lit "/repository/files/" ++ encodedFilePath ++ lit "/raw" in
  response ← fetchFromGitLabAPI (T := jsstring) apiPath no_options config;
  if negb (ok response) then
    throw_Error (lit "Failed to read file: " ++ status_line response)
  else
    numberedLines ← read_content (default [] (text response)) (read_range args);
    Return {| absolutePath := lit "/" ++ projectPath ++ lit "/" ++ relativePath;
              content := numberedLines |}.

End Read.

(** ** tools/glob.ts *)

Module Glob.

Inductive ItemType := blob | tree.

Record GitLabTreeItem := {
  path : jsstring;
  type : ItemType;
}.

Record GitLabGlobArgs := {
  project : jsstring;
  filePattern : jsstring;
  limit : option number;
  offset : option number;
}.

Definition is_blob (item : GitLabTreeItem) : bool :=
  match type item with blob => true | tree => false end.

(** [response.data.filter((item) => item.type === 'blob')
    .map((item) => item.path)] *)
Definition blob_paths (items : list GitLabTreeItem) : list jsstring :=
  path <$> filter is_blob items.

(** What the pagination loop hands on: the outcome, and the page numbers
    it requested, in order. *)
Record Collected := {
  requested : list Z;
  outcome : Outcome (list jsstring);
}.

(** The [while (hasMore)] loop of [globFiles], over the call that fetches
    one page.  The state of the loop is [page] and [allFiles] ([hasMore]
    is true at the head of every iteration); [seen] records the pages
    requested so far.  The loop runs as long as the remote serves pages
    of exactly one hundred items, so the embedding takes a bound on the
    number of iterations and is [None] when the bound is reached. *)
Fixpoint collect_pages
    (fetchPage : Z -> Outcome (GitLabResponse (list GitLabTreeItem)))
    (fuel : nat) (page : Z) (allFiles : list jsstring) (seen : list Z)
  : option Collected :=
  match fuel with
  | O => None
  | S fuel' =>
      let seen' := seen ++ [page] in
      match fetchPage page with
      | Throw e => Some {| requested := seen'; outcome := Throw e |}
      | Return response =>
          match (if ok response then data response else None) with
          | None =>
              Some {| requested := seen';
                      outcome :=
                        if page =? 1 then
                          throw_Error (lit "Failed to fetch files: " ++
                                       status_line response)
                        else Return allFiles |}
          | Some items =>
              let allFiles' := allFiles ++ blob_paths items in
              if (length items =? 100)%nat then
                collect_pages fetchPage fuel' (page + 1) allFiles' seen'
              else
                Some {| requested := seen'; outcome := Return allFiles' |}
          end
      end
  end.

(** [limit ? matchedFiles.slice(offset, offset + limit)
          : matchedFiles.slice(offset)] *)
Definition paginate {A} (matchedFiles : list A) (limit offset : number) : list A :=
  if number_truthy limit then
    slice_numbers matchedFiles offset (Some (Number_add offset limit))
  else slice_numbers matchedFiles offset None.

(** [globFiles] after the loop: [picomatch(filePattern)] builds the
    matcher or throws. *)
Definition select_files {host : Host} (projectPath filePattern : jsstring)
    (limit offset : number) (allFiles : list jsstring) : Outcome (list jsstring) :=
  match picomatch filePattern with
  | Throw e => Throw e
  | Return isMatch =>
      let matchedFiles := filter (fun p => isMatch p) allFiles in
      let paginatedFiles := paginate matchedFiles limit offset in
      Return ((fun p => lit "/" ++ projectPath ++ lit "/" ++ p) <$> paginatedFiles)
  end.

(** [globFiles] over the call that fetches one page. *)
Definition globFiles_from {host : Host}
    (fetchPage : Z -> Outcome (GitLabResponse (list GitLabTreeItem)))
    (fuel : nat) (args : GitLabGlobArgs) : option (Outcome (list jsstring)) :=
  let limit := default (whole 100) (limit args) in
  let offset := default (whole 0) (offset args) in
  let projectPath := extractProjectPath (project args) in
  collected ← collect_pages fetchPage fuel 1 [] [];
  Some (allFiles ← outcome collected;
        select_files projectPath (filePattern args) limit offset allFiles).

Definition globFiles {host : Host} {network : Network} {json : Json (list GitLabTreeItem)}
    (fuel : nat) (args : GitLabGlobArgs) (config : GitLabConfig)
  : option (Outcome (list jsstring)) :=
  let projectPath := extractProjectPath (project args) in
  match encodeURIComponent projectPath with
  | Throw e => Some (Throw e)
  | Return encodedProjectPath =>
      let apiPath := lit "projects/" ++ encodedProjectPath ++
                     lit "/repository/tree?recursive=true&per_page=100" in
      globFiles_from
        (fun page => fetchFromGitLabAPI
                       (apiPath ++ lit "&page=" ++ number_toString page)
                       no_options config)
        fuel args
  end.

End Glob.

(** ** tools/search.ts *)

Module Search.

Record GitLabSearchItem := {
  path : jsstring;
  data : jsstring;
}.

Record GitLabSearchArgs := {
  project : jsstring;
  query : jsstring;
  filter_path : option jsstring;
  limit : option number;
  offset : option number;
}.

Record SearchResult := {
  file : jsstring;
  chunks : list jsstring;
}.

Record GitLabSearchResult := {
  results : list SearchResult;
  totalCount : Z;
}.

(** The fragment pushed for an item: trimmed, and cut when it is long. *)
Definition fragment_of (data : jsstring) : jsstring :=
  let fragment := trim data in
  if (2048 <? length fragment)%nat then
    slice fragment 0 (Some 2048) ++ lit "... (truncated)"
  else fragment.

(** The [Map] of the grouping loop, in the order its keys were first set. *)
Definition has (fileMap : list (jsstring * list jsstring)) (key : jsstring) : bool :=
  existsb (fun e => str_eqb (fst e) key) fileMap.

(** [fileMap.get(key).push(fragment)] *)
Fixpoint push_chunk (fileMap : list (jsstring * list jsstring))
    (key fragment : jsstring) : list (jsstring * list jsstring) :=
  match fileMap with
  | [] => []
  | (k, chunks) :: rest =>
      if str_eqb k key then (k, chunks ++ [fragment]) :: rest
      else (k, chunks) :: push_chunk rest key fragment
  end.

(** One iteration of [for (const item of data)]. *)
Definition group_item (projectPath : jsstring)
    (fileMap : list (jsstring * list jsstring)) (item : GitLabSearchItem)
  : list (jsstring * list jsstring) :=
  let absPath := lit "/" ++ projectPath ++ lit "/" ++ path item in
  let fileMap1 := if has fileMap absPath then fileMap
                  else fileMap ++ [(absPath, [])] in
  if nonempty (data item) then push_chunk fileMap1 absPath (fragment_of (data item))
  else fileMap1.

(** [searchCode] from the point where the page of items is at hand. *)
Definition group_results (projectPath : jsstring) (data : list GitLabSearchItem)
  : GitLabSearchResult :=
  match data with
  | [] => {| results := []; totalCount := 0 |}
  | _ :: _ =>
      let fileMap := foldl (group_item projectPath) [] data in
      {| results := (fun e => {| file := fst e; chunks := snd e |}) <$> fileMap;
         totalCount := Z.of_nat (length data) |}
  end.

(** [Math.floor(offset / perPage) + 1] *)
Definition page_of (offset perPage : number) : number :=
  Number_add (Math_floor (Number_divide offset perPage)) (whole 1).

(** [`${page}`]: a division by zero gives not-a-number or an infinity,
    which the template prints by name. *)
Definition page_text (offset perPage : number) : jsstring :=
  Number_toString (page_of offset perPage).

Definition searchCode {host : Host} {network : Network} {json : Json (list GitLabSearchItem)}
    (args : GitLabSearchArgs) (config : GitLabConfig)
  : Outcome GitLabSearchResult :=
  let limit := default (whole 25) (limit args) in
  let offset := default (whole 0) (offset args) in
  let projectPath := extractProjectPath (project args) in
  encodedProjectPath ← encodeURIComponent projectPath;
  let perPage := Math_min limit (whole 100) in
  encodedQuery ← encodeURIComponent (query args);
  let apiPath := lit "projects/" ++ encodedProjectPath ++
                 lit "/search?scope=blobs&search=" ++ encodedQuery ++
                 lit "&per_page=" ++ Number_toString perPage ++
                 lit "&page=" ++ page_text offset perPage in
  apiPath ←
    match filter_path args with
    | Some p => if nonempty p && negb (str_eqb p (lit "."))
                then encodedPath ← encodeURIComponent p;
                     Return (apiPath ++ lit "&filename=" ++ encodedPath)
                else Return apiPath
    | None => Return apiPath
    end;
  response ← fetchFromGitLabAPI apiPath no_options config;
  if negb (ok response) then
    throw_Error (lit "Failed to search code: " ++ status_line response)
  else
    Return (group_results projectPath (default [] (ApiClient.data response))).

End Search.

(** ** tools/list_directory.ts *)

Module ListDirectory.

Inductive ItemType := blob | tree.

Record GitLabTreeItem := {
  name : jsstring;
  type : ItemType;
}.

Record GitLabListDirectoryArgs := {
  project : jsstring;
  dir_path : option jsstring;
  limit : option number;
}.

(** [item.type === 'tree' ? `${item.name}/` : item.name] *)
Definition format_entry (item : GitLabTreeItem) : jsstring :=
  match type item with
  | tree => name item ++ lit "/"
  | blob => name item
  end.

(** The comparison function given to [sort]. *)
Definition compare_entries {host : Host} (a b : jsstring) : Z :=
  let aIsDir := endsWith a (lit "/") in
  let bIsDir := endsWith b (lit "/") in
  if aIsDir && negb bIsDir then -1
  else if negb aIsDir && bIsDir then 1
  else localeCompare a b.

(** [Array.prototype.sort] is stable, and with a consistent comparison
    function it leaves the array in the one order that is sorted and
    keeps equal elements in their input order.  Insertion from the right
    computes that order. *)
Fixpoint insert_sorted {A} (cmp : A -> A -> Z) (x : A) (l : list A) : list A :=
  match l with
  | [] => [x]
  | y :: r => if cmp x y <=? 0 then x :: l else y :: insert_sorted cmp x r
  end.

Definition sort {A} (cmp : A -> A -> Z) (l : list A) : list A :=
  foldr (insert_sorted cmp) [] l.

(** [listDirectory] from the point where the entries are at hand. *)
Definition list_entries {host : Host} (items : list GitLabTreeItem) : list jsstring :=
  sort compare_entries (format_entry <$> items).

Definition listDirectory {host : Host} {network : Network} {json : Json (list GitLabTreeItem)}
    (args : GitLabListDirectoryArgs) (config : GitLabConfig)
  : Outcome (list jsstring) :=
  let path := default [] (dir_path args) in
  let limit := default (whole 100) (limit args) in
  let projectPath := extractProjectPath (project args) in
  encodedProjectPath ← encodeURIComponent projectPath;
  let apiPath := lit "projects/" ++ encodedProjectPath ++
                 lit "/repository/tree?per_page=" ++ Number_toString limit in
  apiPath ←
    (if nonempty path && negb (str_eqb path (lit ".")) && negb (str_eqb path (lit "/"))
     then encodedPath ← encodeURIComponent path;
          Return (apiPath ++ lit "&path=" ++ encodedPath)
     else Return apiPath);
  response ← fetchFromGitLabAPI apiPath no_options config;
  match (if ok response then data response else None) with
  | None => throw_Error (lit "Failed to list directory: " ++ status_line response)
  | Some items => Return (list_entries items)
  end.

End ListDirectory.

(** ** tools/list_projects.ts *)

Module ListProjects.

Record GitLabListProjectsArgs := {
  search : option jsstring;
  limit : option number;
  offset : option number;
}.

Record GitLabProject := {
  id : Z;
  name : jsstring;
  path_with_namespace : jsstring;
  description : option jsstring;
  web_url : jsstring;
  default_branch : jsstring;
  visibility : jsstring;
  last_activity_at : jsstring;
}.

Record ProjectInfo := {
  info_id : Z;
  info_name : jsstring;
  info_path : jsstring;
  info_description : option jsstring;
  info_url : jsstring;
  info_defaultBranch : jsstring;
  info_visibility : jsstring;
  info_lastActivity : jsstring;
}.

(** The object [response.data.map] builds for a project. *)
Definition project_info (project : GitLabProject) : ProjectInfo :=
  {| info_id := id project;
     info_name := name project;
     info_path := path_with_namespace project;
     info_description := description project;
     info_url := web_url project;
     info_defaultBranch := default_branch project;
     info_visibility := visibility project;
     info_lastActivity := last_activity_at project |}.

(** The path and query [listProjects] asks for. *)
Definition projects_path {host : Host} (args : GitLabListProjectsArgs)
  : Outcome jsstring :=
  let limit := default (whole 30) (limit args) in
  let offset := default (whole 0) (offset args) in
  let perPage := Math_min limit (whole 100) in
  let apiPath := lit "projects?per_page=" ++ Number_toString perPage ++
                 lit "&page=" ++ Search.page_text offset perPage ++
                 lit "&order_by=last_activity_at&sort=desc" in
  match search args with
  | Some (c :: q) =>
      encodedSearch ← encodeURIComponent (c :: q);
      Return (apiPath ++ lit "&search=" ++ encodedSearch)
  | _ => Return apiPath
  end.

Definition listProjects {host : Host} {network : Network}
    {json : Json (list GitLabProject)}
    (args : GitLabListProjectsArgs) (config : GitLabConfig)
  : Outcome (list ProjectInfo) :=
  apiPath ← projects_path args;
  response ← fetchFromGitLabAPI (T := list GitLabProject) apiPath no_options config;
  match (if ok response then data response else None) with
  | None => throw_Error (lit "Failed to list projects: " ++ status_line response)
  | Some projects => Return (fmap (M := list) project_info projects)
  end.

End ListProjects.

(** ** The server: the handler of a tool call *)

Module Server.

(** A tool call as it arrives: the name of the tool and its arguments. *)
Record CallToolRequest {Arguments : Type} := {
  name : jsstring;
  arguments : Arguments;
}.
Arguments CallToolRequest : clear implicits.

(** What the handler answers: one text item, and [isError] ([false] where
    the object has no such property). *)
Record CallToolResult := {
  text : jsstring;
  isError : bool;
}.

(** [request.params.arguments as X]: the arguments read as the record of
    each tool.  The cast is not checked, and the tools are typed to find
    what the record declares. *)
Class Casts (Arguments : Type) := {
  as_read : Arguments -> Read.GitLabReadArgs;
  as_search : Arguments -> Search.GitLabSearchArgs;
  as_list_projects : Arguments -> ListProjects.GitLabListProjectsArgs;
  as_glob : Arguments -> Glob.GitLabGlobArgs;
  as_list_directory : Arguments -> ListDirectory.GitLabListDirectoryArgs;
}.

(** [JSON.stringify(result, null, 2)] on the result of a tool, which is
    made of strings, numbers, arrays and plain objects. *)
Class Pretty (R : Type) := pretty : R -> jsstring.

(** [`Error: ${error instanceof Error ? error.message : String(error)}`] *)
Definition error_text (error : Thrown) : jsstring :=
  lit "Error: " ++
  match error with
  | ThrownError _ message => message
  | ThrownValue rendering => rendering
  end.

(** The [catch] of the handler, and the answer of a tool that returned. *)
Definition answer (run : Outcome jsstring) : CallToolResult :=
  match run with
  | Return t => {| text := t; isError := false |}
  | Throw error => {| text := error_text error; isError := true |}
  end.

(** The [switch] of the handler.  [globFiles] holds the one loop, so the
    handler takes the bound on its iterations and is [None] when the bound
    is reached. *)
Definition run_tool {host : Host} {network : Network} {Arguments : Type}
    {casts : Casts Arguments}
    {json_read : Json jsstring}
    {json_search : Json (list Search.GitLabSearchItem)}
    {json_projects : Json (list ListProjects.GitLabProject)}
    {json_glob : Json (list Glob.GitLabTreeItem)}
    {json_dir : Json (list ListDirectory.GitLabTreeItem)}
    {pretty_read : Pretty Read.GitLabReadResult}
    {pretty_search : Pretty Search.GitLabSearchResult}
    {pretty_projects : Pretty (list ListProjects.ProjectInfo)}
    {pretty_paths : Pretty (list jsstring)}
    (fuel : nat) (config : GitLabConfig) (request : CallToolRequest Arguments)
  : option (Outcome jsstring) :=
  let args := arguments request in
  if str_eqb (name request) (lit "read_file") then
    Some (result ← Read.readFile (as_read args) config; Return (pretty result))
  else if str_eqb (name request) (lit "search_code") then
    Some (result ← Search.searchCode (as_search args) config; Return (pretty result))
  else if str_eqb (name request) (lit "list_projects") then
    Some (result ← ListProjects.listProjects (as_list_projects args) config;
          Return (pretty result))
  else if str_eqb (name request) (lit "glob_files") then
    run ← Glob.globFiles fuel (as_glob args) config;
    Some (result ← run; Return (pretty result))
  else if str_eqb (name request) (lit "list_directory") then
    Some (result ← ListDirectory.listDirectory (as_list_directory args) config;
          Return (pretty result))
  else
    Some (throw_Error (lit "Unknown tool: " ++ name request)).

Definition handle_call {host : Host} {network : Network} {Arguments : Type}
    {casts : Casts Arguments}
    {json_read : Json jsstring}
    {json_search : Json (list Search.GitLabSearchItem)}
    {json_projects : Json (list ListProjects.GitLabProject)}
    {json_glob : Json (list Glob.GitLabTreeItem)}
    {json_dir : Json (list ListDirectory.GitLabTreeItem)}
    {pretty_read : Pretty Read.GitLabReadResult}
    {pretty_search : Pretty Search.GitLabSearchResult}
    {pretty_projects : Pretty (list ListProjects.ProjectInfo)}
    {pretty_paths : Pretty (list jsstring)}
    (fuel : nat) (config : GitLabConfig) (request : CallToolRequest Arguments)
  : option CallToolResult :=
  answer <$> run_tool fuel config request.

End Server.

(** ** A host to run the tools on

    The theorems below hold for every host; the instances given here serve
    to evaluate the tools on concrete inputs. *)

Module Posix.

Definition star : codeunit := 42%N.

(** Modelled from the spec: the first rule of the glob the specification
    describes, "[*] matches within a segment".  One path segment is held
    against one segment of the pattern; [*] stands for any run of code
    units of the segment. *)
Fixpoint match_segment (pat s : jsstring) : bool :=
  match pat with
  | [] => match s with [] => true | _ :: _ => false end
  | c :: pat' =>
      if (c =? star)%N then
        (fix skip (s : jsstring) : bool :=
           match_segment pat' s ||
           match s with [] => false | _ :: s' => skip s' end) s
      else
        match s with
        | d :: s' => (c =? d)%N && match_segment pat' s'
        | [] => false
        end
  end.

(** Modelled from the spec: the second rule, "[**] matches across
    segments".  The segments of a path are held against the segments of
    the pattern; [**] stands for any number of whole segments. *)
Fixpoint match_segments (pats segs : list jsstring) : bool :=
  match pats with
  | [] => match segs with [] => true | _ :: _ => false end
  | p :: pats' =>
      if str_eqb p [star; star] then
        (fix skip (segs : list jsstring) : bool :=
           match_segments pats' segs ||
           match segs with [] => false | _ :: segs' => skip segs' end) segs
      else
        match segs with
        | s :: segs' => match_segment p s && match_segments pats' segs'
        | [] => false
        end
  end.

(** Modelled from the spec: [picomatch/posix] is a package the tool
    imports and the sources do not hold; the specification describes it as
    "standard POSIX-style glob semantics: [*] matches within a segment,
    [**] matches across segments".  This matcher implements those two
    rules, on the segments between slashes. *)
Definition glob (pattern path : jsstring) : bool :=
  match_segments (split slash pattern) (split slash path).

(** [picomatch(pattern)]: the package refuses the empty pattern with a
    [TypeError] before it builds a matcher. *)
Definition TypeError_pattern : Thrown :=
  ThrownError (lit "TypeError") (lit "Expected pattern to be a non-empty string").

Definition compile (pattern : jsstring) : Outcome (jsstring -> bool) :=
  if nonempty pattern then Return (glob pattern) else Throw TypeError_pattern.

End Posix.

Module TestHost.

(** Code-unit order, as [localeCompare] gives it on lower-case ASCII
    names. *)
Fixpoint compare_units (a b : jsstring) : Z :=
  match a, b with
  | [], [] => 0
  | [], _ :: _ => -1
  | _ :: _, [] => 1
  | c :: a', d :: b' =>
      if (c <? d)%N then -1 else if (d <? c)%N then 1 else compare_units a' b'
  end.

Definition hex_digit (n : N) : codeunit :=
  (if n <? 10 then 48 + n else 55 + n)%N.

Definition percent (byte : N) : jsstring :=
  [37%N; hex_digit (byte / 16); hex_digit (byte mod 16)].

Definition unreserved (c : codeunit) : bool :=
  ((48 <=? c) && (c <=? 57) || (65 <=? c) && (c <=? 90)
   || (97 <=? c) && (c <=? 122)
   || bool_decide (c ∈ [45; 95; 46; 33; 126; 42; 39; 40; 41]))%N.

(** The UTF-8 bytes of a code point, each written [%XX]. *)
Definition percent_utf8 (cp : N) : jsstring :=
  (if cp <? 128 then percent cp
   else if cp <? 2048 then percent (192 + cp / 64) ++ percent (128 + cp mod 64)
   else if cp <? 65536 then
     percent (224 + cp / 4096) ++ percent (128 + (cp / 64) mod 64)
     ++ percent (128 + cp mod 64)
   else
     percent (240 + cp / 262144) ++ percent (128 + (cp / 4096) mod 64)
     ++ percent (128 + (cp / 64) mod 64) ++ percent (128 + cp mod 64))%N.

Definition URIError : Thrown := ThrownError (lit "URIError") (lit "URI malformed").

Fixpoint encode (s : jsstring) : Outcome jsstring :=
  match s with
  | [] => Return []
  | c :: r =>
      if unreserved c then rest ← encode r; Return (c :: rest)
      else if is_high_surrogate c then
        match r with
        | d :: r' =>
            if is_low_surrogate d then
              rest ← encode r';
              Return (percent_utf8 (65536 + (c - 55296) * 1024 + (d - 56320))%N ++ rest)
            else Throw URIError
        | [] => Throw URIError
        end
      else if is_low_surrogate c then Throw URIError
      else rest ← encode r; Return (percent_utf8 c ++ rest)
  end.

(** Request bodies of the test host: a text, or an object that refers to
    itself, which [JSON.stringify] refuses. *)
Inductive TestBody :=
| Text (s : jsstring)
| Cyclic.

Definition TypeError_cyclic : Thrown :=
  ThrownError (lit "TypeError") (lit "Converting circular structure to JSON").

#[export] Instance host : Host := {|
  Body := TestBody;
  body_truthy := fun b => match b with Text s => nonempty s | Cyclic => true end;
  JSON_stringify := fun b =>
    match b with
    | Text s => Return (Some ([34%N] ++ s ++ [34%N]))
    | Cyclic => Throw TypeError_cyclic
    end;
  Signal := unit;
  encodeURIComponent := encode;
  localeCompare := compare_units;
  picomatch := Posix.compile;
|}.

(** A page of [n] file entries [f0], [f1], ... *)
Definition blob_page (n : nat) : list Glob.GitLabTreeItem :=
  (fun i => {| Glob.path := lit "f" ++ number_toString (Z.of_nat i);
               Glob.type := Glob.blob |}) <$> seq 0 n.

Definition page_ok {T} (items : T) : GitLabResponse T :=
  {| ok := true; status := 200; statusText := lit "OK";
     text := None; data := Some items |}.

Definition page_failed {T} : GitLabResponse T :=
  {| ok := false; status := 500; statusText := lit "Internal Server Error";
     text := Some []; data := None |}.

(** A page source that serves the given pages in turn, and fails after
    the last one. *)
Definition serve (pages : list (list Glob.GitLabTreeItem)) (page : Z)
  : Outcome (GitLabResponse (list Glob.GitLabTreeItem)) :=
  match pages !! Z.to_nat (page - 1) with
  | Some items => Return (page_ok items)
  | None => Return page_failed
  end.

(** A network that answers every request in the same way. *)
Definition answers (o : FetchOutcome) : Network := fun _ _ => o.

(** A parser of the JSON texts that are one string without escapes. *)
#[export] Instance json_string : Json jsstring := fun s =>
  match s with
  | 34%N :: r =>
      match rev r with
      | 34%N :: inner => Some (rev inner)
      | _ => None
      end
  | _ => None
  end.

(** A response with status 200, a JSON content type and the body ["hi"]. *)
Definition json_reply : FetchOutcome :=
  FetchResolves
    {| response_status := 200; response_statusText := lit "OK";
       response_contentType := Some (lit "application/json; charset=utf-8") |}
    (Return ([34%N] ++ lit "hi" ++ [34%N])).

Definition gitlab : GitLabConfig :=
  {| baseURL := lit "https://gitlab.com/"; token := lit "secret" |}.

(** A parser that reads no text as JSON. *)
Definition no_json {T} : Json T := fun _ => None.

(** A response with status 200, the content type [text/plain] and a body
    of two lines. *)
Definition plain_response : Response :=
  {| response_status := 200; response_statusText := lit "OK";
     response_contentType := Some (lit "text/plain") |}.

Definition plain_reply : FetchOutcome :=
  FetchResolves plain_response (Return (join Read.newline [lit "a"; lit "b"])).

(** A network on which every call fails, and one on which every call is
    aborted. *)
Definition network_down : Network :=
  answers (FetchRejects (ThrownError (lit "TypeError") (lit "fetch failed"))).

Definition aborted : Thrown :=
  ThrownError (lit "AbortError") (lit "This operation was aborted").

Definition network_aborted : Network := answers (FetchRejects aborted).

(** A page source that serves the given pages in turn, and is aborted
    after the last one. *)
Definition serve_then_abort (pages : list (list Glob.GitLabTreeItem)) (page : Z)
  : Outcome (GitLabResponse (list Glob.GitLabTreeItem)) :=
  match pages !! Z.to_nat (page - 1) with
  | Some items => Return (page_ok items)
  | None => Throw aborted
  end.

(** Arguments of the tools on the project [group/project]. *)
Definition read_readme : Read.GitLabReadArgs :=
  {| Read.project := lit "group/project"; Read.path := lit "README.md";
     Read.read_range := None |}.

Definition search_todo : Search.GitLabSearchArgs :=
  {| Search.project := lit "group/project"; Search.query := lit "todo";
     Search.filter_path := None; Search.limit := None; Search.offset := None |}.

Definition first_projects : ListProjects.GitLabListProjectsArgs :=
  {| ListProjects.search := None; ListProjects.limit := None;
     ListProjects.offset := None |}.

Definition glob_all : Glob.GitLabGlobArgs :=
  {| Glob.project := lit "group/project"; Glob.filePattern := lit "*";
     Glob.limit := None; Glob.offset := None |}.

Definition list_root : ListDirectory.GitLabListDirectoryArgs :=
  {| ListDirectory.project := lit "group/project"; ListDirectory.dir_path := None;
     ListDirectory.limit := None |}.

(** Requests whose arguments are the five records above, whatever the
    tool. *)
#[export] Instance casts : Server.Casts unit := {|
  Server.as_read := fun _ => read_readme;
  Server.as_search := fun _ => search_todo;
  Server.as_list_projects := fun _ => first_projects;
  Server.as_glob := fun _ => glob_all;
  Server.as_list_directory := fun _ => list_root;
|}.

Definition call (tool : jsstring) : Server.CallToolRequest unit :=
  {| Server.name := tool; Server.arguments := tt |}.

(** A printer that shows every result as an empty object. *)
Definition braces {R} : Server.Pretty R := fun _ => lit "{}".

End TestHost.

(** ** The vocabulary of the specification

    Predicates and data the statements below are written with; none of
    them is part of the program. *)

(** The words of the specification: a string carries the version-control
    suffix, or a scheme-and-host prefix. *)
Definition git_suffixed (s : jsstring) : Prop :=
  exists q, s = q ++ lit ".git".

Definition url_prefixed (s : jsstring) : Prop :=
  exists scheme host rest,
    (scheme = lit "http" \/ scheme = lit "https") /\
    host <> [] /\ (slash ∉ host) /\
    s = scheme ++ lit "://" ++ host ++ (slash :: rest).

(** [strips_suffix p s]: [s] is [p] without one trailing [.git], or [p]
    itself when [p] has none. *)
Inductive strips_suffix : jsstring -> jsstring -> Prop :=
| suffix_stripped q : strips_suffix (q ++ lit ".git") q
| suffix_absent p : ~ git_suffixed p -> strips_suffix p p.

(** [strips_prefix s r]: [r] is [s] without its leading scheme and host,
    or [s] itself when [s] has none. *)
Inductive strips_prefix : jsstring -> jsstring -> Prop :=
| prefix_stripped scheme host rest :
    (scheme = lit "http" \/ scheme = lit "https") ->
    host <> [] -> slash ∉ host ->
    strips_prefix (scheme ++ lit "://" ++ host ++ (slash :: rest)) rest
| prefix_absent s : ~ url_prefixed s -> strips_prefix s s.

(** The call of [fetch], or the reading of the body, threw [e]. *)
Definition transport_throws (o : FetchOutcome) (e : Thrown) : Prop :=
  o = FetchRejects e \/ exists response, o = FetchResolves response (Throw e).

Section PageSource.

Import Glob.

Variable fetchPage : Z -> Outcome (GitLabResponse (list GitLabTreeItem)).

(** A page call succeeds with the given items. *)
Definition page_succeeds (page : Z) (items : list GitLabTreeItem) : Prop :=
  exists r, fetchPage page = Return r /\ ok r = true /\ data r = Some items.

(** A page call fails: the gateway returns a result that is not [ok], or
    one without a parsed payload. *)
Definition page_fails (page : Z) (r : GitLabResponse (list GitLabTreeItem)) : Prop :=
  fetchPage page = Return r /\ (ok r = false \/ data r = None).

Definition page_full (page : Z) : Prop :=
  exists items, page_succeeds page items /\ length items = 100%nat.

(** The items a page call delivers. *)
Definition page_items (page : Z) : list GitLabTreeItem :=
  match fetchPage page with
  | Return r => if ok r then default [] (data r) else []
  | Throw _ => []
  end.

(** The page numbers [page], [page + 1], ..., [n] of them. *)
Definition pages_from (page : Z) (n : nat) : list Z :=
  (fun i => page + Z.of_nat i) <$> seq 0 n.

(** The file paths of the given pages, in order. *)
Definition files_of (pages : list Z) : list jsstring :=
  pages ≫= (fun p => blob_paths (page_items p)).

End PageSource.

(** A file of five lines. *)
Definition five_lines : jsstring :=
  join Read.newline [lit "a"; lit "b"; lit "c"; lit "d"; lit "e"].

(** A file of one line of [n] letters. *)
Definition letters (n : N) : jsstring := N.iter n (cons 97%N) [].

Section Grouping.

Import Search.

Variable projectPath : jsstring.

Definition absPath (item : GitLabSearchItem) : jsstring :=
  lit "/" ++ projectPath ++ lit "/" ++ path item.

(** The words of the specification: the elements of a list in the order
    of their first appearance. *)
Fixpoint first_appearances (l : list jsstring) : list jsstring :=
  match l with
  | [] => []
  | x :: r => x :: filter (fun y => y <> x) (first_appearances r)
  end.

(** The fragments of the items of one file, in the order of the items; an
    item whose [data] is the empty string has none. *)
Definition chunks_for (file : jsstring) (items : list GitLabSearchItem)
  : list jsstring :=
  (fun item => fragment_of (data item)) <$>
  filter (fun item => absPath item = file /\ data item <> []) items.

Definition grouped (items : list GitLabSearchItem) : list (jsstring * list jsstring) :=
  (fun f => (f, chunks_for f items)) <$> first_appearances (absPath <$> items).

End Grouping.

(** [`/${projectPath}/${path}`] *)
Definition rooted (projectPath p : jsstring) : jsstring :=
  lit "/" ++ projectPath ++ lit "/" ++ p.

Definition is_dir (entry : jsstring) : bool := endsWith entry (lit "/").

(** [a] is not after [b]. *)
Definition not_after {host : Host} (a b : jsstring) : Prop :=
  ListDirectory.compare_entries a b <= 0.

(** [encodeURIComponent] threw [e] on some string. *)
Definition encoding_throws {host : Host} (e : Thrown) : Prop :=
  exists s, encodeURIComponent s = Throw e.

(** The result the gateway makes of a thrown [Error] that is no abort. *)
Definition failure_result {T} (message : jsstring) : GitLabResponse T :=
  {| ok := false; status := 0; statusText := message;
     text := Some message; data := None |}.

(** The text the tools show for the status 0 and the message. *)
Definition shown (message : jsstring) : jsstring :=
  if nonempty message then message else lit "Unknown error".

(** The result the gateway returns for a successful response without
    JSON. *)
Definition plain_result {T} (response : Response) (body_text : jsstring)
  : GitLabResponse T :=
  {| ok := true; status := response_status response;
     statusText := response_statusText response;
     text := Some body_text; data := None |}.

Section Continuations.

Context {host : Host} {network : Network}.

(** What [readFile] does with the result of the gateway. *)
Definition read_continue (args : Read.GitLabReadArgs)
    (response : GitLabResponse jsstring) : Outcome Read.GitLabReadResult :=
  let projectPath := extractProjectPath (Read.project args) in
  if negb (ok response) then
    throw_Error (lit "Failed to read file: " ++ status_line response)
  else
    numberedLines ← Read.read_content (default [] (text response)) (Read.read_range args);
    Return {| Read.absolutePath :=
                lit "/" ++ projectPath ++ lit "/" ++
                Read.relative_path (Read.path args) projectPath;
              Read.content := numberedLines |}.

Definition search_continue (args : Search.GitLabSearchArgs)
    (response : GitLabResponse (list Search.GitLabSearchItem))
  : Outcome Search.GitLabSearchResult :=
  if negb (ok response) then
    throw_Error (lit "Failed to search code: " ++ status_line response)
  else
    Return (Search.group_results (extractProjectPath (Search.project args))
              (default [] (data response))).

(** The path and query [searchCode] asks for, for given texts of the page
    size and of the page, and for the texts the tool computes. *)
Definition search_path_with (perPage page : jsstring)
    (args : Search.GitLabSearchArgs) : Outcome jsstring :=
  encodedProjectPath ← encodeURIComponent (extractProjectPath (Search.project args));
  encodedQuery ← encodeURIComponent (Search.query args);
  let apiPath := lit "projects/" ++ encodedProjectPath ++
                 lit "/search?scope=blobs&search=" ++ encodedQuery ++
                 lit "&per_page=" ++ perPage ++ lit "&page=" ++ page in
  match Search.filter_path args with
  | Some p => if nonempty p && negb (str_eqb p (lit "."))
              then encodedPath ← encodeURIComponent p;
                   Return (apiPath ++ lit "&filename=" ++ encodedPath)
              else Return apiPath
  | None => Return apiPath
  end.

Definition search_path (args : Search.GitLabSearchArgs) : Outcome jsstring :=
  let limit := default (whole 25) (Search.limit args) in
  let offset := default (whole 0) (Search.offset args) in
  let perPage := Math_min limit (whole 100) in
  search_path_with (Number_toString perPage) (Search.page_text offset perPage) args.

Definition projects_continue
    (response : GitLabResponse (list ListProjects.GitLabProject))
  : Outcome (list ListProjects.ProjectInfo) :=
  match (if ok response then data response else None) with
  | None => throw_Error (lit "Failed to list projects: " ++ status_line response)
  | Some projects => Return (ListProjects.project_info <$> projects)
  end.

Definition directory_continue
    (response : GitLabResponse (list ListDirectory.GitLabTreeItem))
  : Outcome (list jsstring) :=
  match (if ok response then data response else None) with
  | None => throw_Error (lit "Failed to list directory: " ++ status_line response)
  | Some items => Return (ListDirectory.list_entries items)
  end.

(** A tool throws what [encodeURIComponent] threw, or it makes one call of
    the gateway and goes on with the result. *)
Definition one_call {T R} {json : Json T} (config : GitLabConfig)
    (run : Outcome R) (continue : GitLabResponse T -> Outcome R) : Prop :=
  (exists e, run = Throw e /\ encoding_throws e) \/
  (exists apiPath,
      run = Js.bind (fetchFromGitLabAPI (T := T) apiPath no_options config) continue).

End Continuations.

(** The integers with which the arithmetic of numbers is exact: sums and
    differences that stay among them are not rounded. *)
Definition safe (n : Z) : Prop := - 2 ^ 53 < n < 2 ^ 53.

(** The number of chunks of a grouping. *)
Definition total_chunks (fileMap : list (jsstring * list jsstring)) : nat :=
  sum_list_with (fun e => length (snd e)) fileMap.

(** The names the handler knows, each with the head of the message its
    tool throws when the gateway reports a failure. *)
Definition failure_heads : list (jsstring * jsstring) :=
  [(lit "read_file", lit "Failed to read file: ");
   (lit "search_code", lit "Failed to search code: ");
   (lit "list_projects", lit "Failed to list projects: ");
   (lit "glob_files", lit "Failed to fetch files: ");
   (lit "list_directory", lit "Failed to list directory: ")].

Definition tool_names : list jsstring := fst <$> failure_heads.

(** * Properties *)

(** ** Strings and arrays of the host *)

(** Literals are replaced by the lists of their code units. *)
Ltac eval_literals :=
  repeat match goal with
         | |- context [lit ?s] =>
             let v := eval vm_compute in (lit s) in change (lit s) with v
         end.

Section HostStrings.

Lemma startsWith_app (s p : jsstring) :
  startsWith s p = true <-> exists r, s = p ++ r.
Proof.
  revert s. induction p as [|c p IH]; intros s; simpl.
  - split; [intros _; by exists s | done].
  - destruct s as [|d s].
    + split; [done | intros [r Hr]; discriminate Hr].
    + rewrite andb_true_iff, N.eqb_eq, IH. split.
      * intros [-> [r ->]]. by exists r.
      * intros [r Hr]. injection Hr as -> ->. eauto.
Qed.

Lemma endsWith_app (s p : jsstring) :
  endsWith s p = true <-> exists r, s = r ++ p.
Proof.
  unfold endsWith. rewrite startsWith_app. split.
  - intros [r Hr]. exists (rev r).
    rewrite <- (rev_involutive s), Hr, rev_app_distr.
    by rewrite rev_involutive.
  - intros [r ->]. exists (rev r). by rewrite rev_app_distr.
Qed.

Lemma relative_index_range (len i : Z) :
  0 <= len -> 0 <= relative_index len i <= len.
Proof. unfold relative_index. destruct (Z.ltb_spec i 0); lia. Qed.

(** Within the bounds of the array, [slice] is [take] after [drop]. *)
Lemma slice_nat {A} (l : list A) (i j : nat) :
  slice l (Z.of_nat i) (Some (Z.of_nat j)) = take (j - i) (drop i l).
Proof.
  unfold slice, relative_index.
  destruct (Z.ltb_spec (Z.of_nat i) 0); [lia|].
  destruct (Z.ltb_spec (Z.of_nat j) 0); [lia|].
  destruct (decide (i <= length l)%nat) as [Hi|Hi].
  - rewrite (Z.min_l (Z.of_nat i)) by lia. rewrite Nat2Z.id.
    destruct (decide (j <= length l)%nat) as [Hj|Hj].
    + rewrite Z.min_l by lia. f_equal. lia.
    + rewrite Z.min_r by lia.
      rewrite !take_ge; [done | rewrite length_drop; lia | rewrite length_drop; lia].
  - rewrite (Z.min_r (Z.of_nat i)) by lia. rewrite Nat2Z.id.
    rewrite !drop_ge by lia. by rewrite !take_nil.
Qed.

Lemma slice_from_nat {A} (l : list A) (i : nat) :
  slice l (Z.of_nat i) None = drop i l.
Proof.
  unfold slice, relative_index.
  destruct (Z.ltb_spec (Z.of_nat i) 0); [lia|].
  destruct (decide (i <= length l)%nat) as [Hi|Hi].
  - rewrite Z.min_l by lia. rewrite Nat2Z.id.
    apply take_ge. rewrite length_drop. lia.
  - rewrite Z.min_r by lia. rewrite Nat2Z.id.
    rewrite !drop_ge by lia. by rewrite take_nil.
Qed.

Lemma filter_none {A} (P : A -> Prop) `{forall x, Decision (P x)} (l : list A) :
  (forall x, x ∈ l -> ~ P x) -> filter P l = [].
Proof.
  induction l as [|a l IH]; intros HP; [done|].
  rewrite filter_cons_False by (apply HP; by left).
  apply IH. intros x Hx. apply HP. by right.
Qed.

Lemma slice_length {A} (l : list A) (i : Z) (j : option Z) :
  (length (slice l i j) <= length l)%nat.
Proof.
  unfold slice. rewrite length_take, length_drop. lia.
Qed.

End HostStrings.

(** ** Numbers that are integers *)

Section Numbers.

Lemma trailing_zeros_nonneg (p : positive) : 0 <= trailing_zeros p.
Proof. induction p; simpl; lia. Qed.

Lemma is_double_integer (n : Z) : n <> 0 -> safe n -> is_double (n # 1) = true.
Proof.
  unfold safe, is_double. intros Hn Hsafe. cbn [Qnum Qden].
  assert (forall p, Z.pos p < 2 ^ 53 ->
            (Z.pos 1 =? 2 ^ Z.log2 (Z.pos 1)) && (Z.log2 (Z.pos p) - trailing_zeros p <=? 52)
            && (-1074 <=? trailing_zeros p - Z.log2 (Z.pos 1))
            && (Z.log2 (Z.pos p) - Z.log2 (Z.pos 1) <=? 1023) = true) as Hp.
  { intros p Hp. change (Z.log2 (Z.pos 1)) with 0. change (2 ^ 0) with 1.
    pose proof (trailing_zeros_nonneg p) as Hz.
    assert (Z.log2 (Z.pos p) < 53) as Hlog
      by (apply Z.log2_lt_pow2; [lia | done]).
    rewrite !andb_true_iff, !Z.leb_le, Z.eqb_eq. lia. }
  destruct n as [|p|p]; [done | apply Hp; lia | apply Hp; lia].
Qed.

Lemma Qred_integer (n : Z) : Qred (n # 1) = n # 1.
Proof. apply Qred_identity. cbn [Qnum Qden]. apply Z.gcd_1_r. Qed.

Lemma number_for_integer (q : Q) (n : Z) :
  q == inject_Z n -> safe n -> number_for q = whole n.
Proof.
  intros Hq Hsafe. unfold number_for, whole.
  rewrite (Qred_complete _ _ Hq). unfold inject_Z. rewrite Qred_integer.
  cbn [Qnum]. destruct (Z.eqb_spec n 0) as [|Hn]; [done|].
  by rewrite is_double_integer.
Qed.

Lemma Number_add_whole (a b : Z) :
  safe (a + b) -> Number_add (whole a) (whole b) = whole (a + b).
Proof.
  intros Hsafe. unfold whole at 1 2.
  destruct (Z.eqb_spec a 0) as [->|Ha], (Z.eqb_spec b 0) as [->|Hb]; cbn [Number_add].
  - done.
  - unfold whole. by destruct (Z.eqb_spec (0 + b) 0); [lia|].
  - unfold whole. rewrite Z.add_0_r. by destruct (Z.eqb_spec a 0); [lia|].
  - apply number_for_integer; [|done].
    unfold Qeq, Qplus, inject_Z. cbn [Qnum Qden]. lia.
Qed.

Lemma Number_unaryMinus_whole (n : Z) :
  n <> 0 -> Number_unaryMinus (whole n) = whole (- n).
Proof.
  intros Hn. unfold whole.
  destruct (Z.eqb_spec n 0); [lia|]. destruct (Z.eqb_spec (- n) 0); [lia|].
  cbn [Number_unaryMinus]. f_equal. apply Qred_integer.
Qed.

Lemma Number_subtract_whole (a b : Z) :
  safe (a - b) -> Number_subtract (whole a) (whole b) = whole (a - b).
Proof.
  intros Hsafe. unfold Number_subtract.
  destruct (Z.eq_dec b 0) as [->|Hb].
  - rewrite Z.sub_0_r. unfold whole. by destruct (a =? 0).
  - rewrite Number_unaryMinus_whole by done. by apply Number_add_whole.
Qed.

Lemma ToIntegerOrInfinity_whole (n : Z) : ToIntegerOrInfinity (whole n) = Integer n.
Proof.
  unfold whole. destruct (Z.eqb_spec n 0) as [->|Hn]; [done|].
  cbn [ToIntegerOrInfinity]. f_equal. unfold Qtruncate, Qceiling, Qfloor.
  cbn [Qnum Qopp]. destruct (n <? 0); rewrite Z.div_1_r; lia.
Qed.

Lemma number_truthy_whole (n : Z) : number_truthy (whole n) = negb (n =? 0).
Proof. unfold whole. by destruct (n =? 0). Qed.

Lemma below_whole (a b : Z) : below (whole a) (whole b) = (a <? b).
Proof.
  unfold whole.
  destruct (Z.eqb_spec a 0) as [->|Ha], (Z.eqb_spec b 0) as [->|Hb]; cbn [below Qnum].
  - done.
  - done.
  - done.
  - unfold Qlt_bool, Qle_bool. cbn [Qnum Qden].
    destruct (Z.leb_spec (b * 1) (a * 1)), (Z.ltb_spec a b); simpl; lia.
Qed.

Lemma Math_max_whole (a b : Z) : Math_max (whole a) (whole b) = whole (Z.max a b).
Proof.
  assert (Math_max (whole a) (whole b) =
          if below (whole a) (whole b) then whole b else whole a) as ->
    by (unfold whole; by destruct (a =? 0), (b =? 0)).
  rewrite below_whole. destruct (Z.ltb_spec a b); f_equal; lia.
Qed.

Lemma Math_min_whole (a b : Z) : Math_min (whole a) (whole b) = whole (Z.min a b).
Proof.
  assert (Math_min (whole a) (whole b) =
          if below (whole b) (whole a) then whole b else whole a) as ->
    by (unfold whole; by destruct (a =? 0), (b =? 0)).
  rewrite below_whole. destruct (Z.ltb_spec b a); f_equal; lia.
Qed.

Lemma Number_toString_whole (n : Z) :
  safe n -> Number_toString (whole n) = number_toString n.
Proof.
  unfold safe, whole. intros Hsafe. destruct (Z.eqb_spec n 0) as [->|Hn]; [done|].
  cbn [Number_toString Qnum Qden]. change (Z.pos 1 =? 1) with true.
  by destruct (Z.ltb_spec (Z.abs n) (2 ^ 53)); [|lia].
Qed.

Lemma relative_index_of_whole (len n : Z) :
  relative_index_of len (whole n) = relative_index len n.
Proof. unfold relative_index_of. by rewrite ToIntegerOrInfinity_whole. Qed.

Lemma slice_numbers_whole {A} (l : list A) (i j : Z) :
  slice_numbers l (whole i) (Some (whole j)) = slice l i (Some j).
Proof. unfold slice_numbers, slice. by rewrite !relative_index_of_whole. Qed.

Lemma slice_numbers_from_whole {A} (l : list A) (i : Z) :
  slice_numbers l (whole i) None = slice l i None.
Proof. unfold slice_numbers, slice. by rewrite !relative_index_of_whole. Qed.

(** Whatever its arguments, [slice] returns a run of consecutive elements
    of the array. *)
Lemma slice_numbers_segment {A} (l : list A) start end_ :
  exists before after, l = before ++ slice_numbers l start end_ ++ after.
Proof.
  unfold slice_numbers.
  match goal with
  | |- context [take ?n (drop ?k l)] => exists (take k l), (drop n (drop k l))
  end.
  by rewrite take_drop, take_drop.
Qed.

Lemma Qabs_positive (r : Q) : 0 < Qnum r -> Qabs r = r.
Proof. destruct r as [n d]. cbn [Qnum Qabs]. intros Hn. f_equal. lia. Qed.

(** What [nearest] returns for a positive rational: one of the two
    multiples of the unit that enclose it. *)
Lemma nearest_cases (r : Q) :
  0 < Qnum r ->
  let c := Z.max (floor_log2 r) (-1022) - 52 in
  let k := Qfloor (r / 2 ^ c) in
  exists m,
    (m = k \/ m = k + 1) /\
    nearest r =
    if m =? 0 then Zero false
    else if Qle_bool (2 ^ 1024) (inject_Z m * 2 ^ c) then Infinity false
         else Finite (Qred (inject_Z m * 2 ^ c)).
Proof.
  intros Hr c k. unfold nearest. rewrite (Qabs_positive r Hr). fold c. fold k.
  destruct (Z.ltb_spec (Qnum r) 0) as [|_]; [lia|].
  destruct (Qlt_bool (r / 2 ^ c - inject_Z k) (1 # 2)); [exists k; auto|].
  destruct (Qlt_bool (1 # 2) (r / 2 ^ c - inject_Z k)); [exists (k + 1); auto|].
  destruct (Z.even k); [exists k | exists (k + 1)]; auto.
Qed.

Lemma floor_log2_below (r : Q) (e : Z) :
  0 < Qnum r -> 0 <= e -> (r < inject_Z (2 ^ e))%Q -> floor_log2 r < e.
Proof.
  destruct r as [n d]. cbn [Qnum]. intros Hn He Hlt.
  unfold Qlt in Hlt. cbn [Qnum Qden inject_Z] in Hlt. rewrite Z.mul_1_r in Hlt.
  unfold floor_log2. cbn [Qnum Qden].
  set (g := Z.log2 n - Z.log2 (Z.pos d)).
  pose proof (Z.log2_spec (Z.pos d) ltac:(lia)) as [_ Hd].
  pose proof (Z.log2_nonneg (Z.pos d)) as Hld.
  assert (Z.log2 n < e + Z.log2 (Z.pos d) + 1) as Hln.
  { apply Z.log2_lt_pow2; [lia|].
    rewrite Z.pow_add_r, Z.pow_add_r by lia.
    pose proof (Z.pow_pos_nonneg 2 e ltac:(lia) He).
    change (2 ^ 1) with 2. rewrite Z.pow_succ_r in Hd by lia. nia. }
  assert (g <= e) as Hg by (unfold g; lia).
  destruct (Qle_bool (2 ^ g) (n # d)) eqn:Htest; [|lia].
  destruct (decide (g = e)) as [Hge|]; [|lia].
  apply Qle_bool_iff in Htest. rewrite Hge in Htest.
  rewrite <- (Zpower_Qpower 2 e He) in Htest.
  unfold Qle in Htest. cbn [Qnum Qden inject_Z] in Htest. lia.
Qed.

Lemma Qpower_2_negative (c : Z) :
  c < 0 -> (2 ^ c == / inject_Z (2 ^ (- c)))%Q.
Proof.
  intros Hc. replace c with (- - c) at 1 by lia.
  rewrite Qpower_opp. apply Qinv_comp. symmetry.
  apply (Zpower_Qpower 2 (- c)). lia.
Qed.

Lemma Math_floor_whole (n : Z) : Math_floor (whole n) = whole n.
Proof.
  unfold whole. destruct (Z.eqb_spec n 0) as [|Hn]; [done|].
  cbn [Math_floor Qfloor]. rewrite Z.div_1_r. unfold whole.
  by destruct (Z.eqb_spec n 0).
Qed.

(** The floor of the quotient of two whole numbers is the quotient of the
    integers, although the quotient is rounded: the rounding does not
    reach the next integer. *)
Lemma Math_floor_divide_whole (a b : Z) :
  0 <= a < 2 ^ 46 -> 1 <= b <= 100 ->
  Math_floor (Number_divide (whole a) (whole b)) = whole (a / b).
Proof.
  intros Ha Hb.
  destruct (decide (a = 0)) as [->|Ha0].
  { unfold whole. destruct (Z.eqb_spec b 0); [lia|]. cbn.
    destruct (Z.ltb_spec b 0); [lia|]. done. }
  assert (whole a = Finite (inject_Z a)) as ->
    by (unfold whole; by destruct (Z.eqb_spec a 0); [lia|]).
  assert (whole b = Finite (inject_Z b)) as ->
    by (unfold whole; by destruct (Z.eqb_spec b 0); [lia|]).
  cbn [Number_divide].
  set (x := (inject_Z a / inject_Z b)%Q).
  assert (Qfloor x = a / b) as Hfloor by (symmetry; apply Zdiv_Qdiv).
  pose proof (Z.div_mod a b ltac:(lia)) as Hdm.
  pose proof (Z.mod_pos_bound a b ltac:(lia)) as Hmod.
  pose proof (Z.div_pos a b ltac:(lia) ltac:(lia)) as Hquot.
  destruct (decide (a mod b = 0)) as [Hdiv|Hndiv].
  { rewrite (number_for_integer x (a / b)).
    - apply Math_floor_whole.
    - unfold x, Qeq, Qdiv, Qmult, Qinv, inject_Z. cbn [Qnum Qden].
      destruct b as [|pb|pb]; [lia | | lia]. cbn [Qnum Qden]. nia.
    - unfold safe. nia. }
  pose proof (Qred_correct x) as Hred.
  unfold number_for. set (r := Qred x) in *.
  assert (0 < x)%Q as Hxpos.
  { unfold x. apply Qlt_shift_div_l; [unfold Qlt; simpl; lia|].
    rewrite Qmult_0_l. unfold Qlt. simpl. lia. }
  assert (0 < Qnum r) as Hr.
  { assert (0 < r)%Q as Hrpos by (by rewrite Hred).
    unfold Qlt in Hrpos. simpl in Hrpos. lia. }
  destruct (Z.eqb_spec (Qnum r) 0) as [|_]; [lia|].
  destruct (is_double r).
  { cbn [Math_floor]. by rewrite (Qfloor_comp _ _ Hred), Hfloor. }
  destruct (nearest_cases r Hr) as (m & Hm & ->).
  set (c := Z.max (floor_log2 r) (-1022) - 52) in *.
  assert (c <= -7) as Hc.
  { assert (r < inject_Z (2 ^ 46))%Q as Hlt.
    { rewrite Hred. unfold x. apply Qlt_shift_div_r; [unfold Qlt; simpl; lia|].
      rewrite <- inject_Z_mult. rewrite <- Zlt_Qlt. nia. }
    pose proof (floor_log2_below r 46 Hr ltac:(lia) Hlt). unfold c. lia. }
  set (P := 2 ^ (- c)).
  assert (128 <= P) as HP
    by (unfold P; change 128 with (2 ^ 7); apply Z.pow_le_mono_r; lia).
  pose proof (Qpower_2_negative c ltac:(lia)) as Hpow. fold P in Hpow.
  assert (~ inject_Z P == 0)%Q as HP0
    by (intros H0; unfold Qeq in H0; simpl in H0; lia).
  assert (~ inject_Z b == 0)%Q as Hb0
    by (intros H0; unfold Qeq in H0; simpl in H0; lia).
  assert (Qfloor (r / 2 ^ c) = a * P / b) as Hk.
  { rewrite (Zdiv_Qdiv (a * P) b). apply Qfloor_comp.
    rewrite Hred, Hpow. unfold x. rewrite inject_Z_mult. by field. }
  rewrite Hk in Hm.
  assert (exists pP, P = Z.pos pP) as [pP HpP] by (exists (Z.to_pos P); lia).
  assert (inject_Z m * 2 ^ c == m # pP)%Q as Hv
    by (by rewrite Hpow, HpP, (Qmake_Qdiv m pP)).
  pose proof (Z.div_mod (a * P) b ltac:(lia)) as Hdm'.
  pose proof (Z.mod_pos_bound (a * P) b ltac:(lia)) as Hmod'.
  assert (a / b * P <= m < (a / b + 1) * P) as Hbounds by nia.
  destruct (Z.eqb_spec m 0) as [|_]; [nia|].
  assert (Qle_bool (2 ^ 1024) (inject_Z m * 2 ^ c) = false) as ->.
  { apply not_true_is_false. rewrite Qle_bool_iff, Hv.
    assert (2 ^ 1024 == inject_Z (2 ^ 1024))%Q as ->
      by (symmetry; apply (Zpower_Qpower 2 1024); lia).
    unfold Qle. cbn [Qnum Qden inject_Z].
    assert (2 ^ 46 < 2 ^ 1024) by (by apply Z.pow_lt_mono_r).
    nia. }
  cbn [Math_floor].
  rewrite (Qfloor_comp _ _ (Qred_correct _)), (Qfloor_comp _ _ Hv).
  cbn [Qfloor]. rewrite <- HpP.
  f_equal. symmetry. apply (Z.div_unique m P (a / b) (m - a / b * P)); lia.
Qed.

Lemma page_of_whole (offset size : Z) :
  0 <= offset < 2 ^ 46 -> 1 <= size <= 100 ->
  Search.page_of (whole offset) (whole size) = whole (offset / size + 1).
Proof.
  intros Hoffset Hsize. unfold Search.page_of.
  rewrite Math_floor_divide_whole by done.
  apply Number_add_whole. unfold safe.
  pose proof (Z.div_pos offset size ltac:(lia) ltac:(lia)).
  pose proof (Z.div_le_upper_bound offset size (2 ^ 46) ltac:(lia) ltac:(nia)).
  assert (2 ^ 46 < 2 ^ 53) by (by apply Z.pow_lt_mono_r). lia.
Qed.

End Numbers.

(** ** The project normaliser *)

Section Normaliser.

Lemma strip_git_suffix_app (q : jsstring) :
  strip_git_suffix (q ++ lit ".git") = q.
Proof.
  unfold strip_git_suffix.
  replace (endsWith (q ++ lit ".git") (lit ".git")) with true
    by (symmetry; apply endsWith_app; eauto).
  rewrite length_app. simpl length.
  replace (length q + 4 - 4)%nat with (length q) by lia.
  by rewrite take_app_length.
Qed.

Lemma strip_git_suffix_absent (p : jsstring) :
  ~ git_suffixed p -> strip_git_suffix p = p.
Proof.
  intros Hp. unfold strip_git_suffix.
  destruct (endsWith p (lit ".git")) eqn:E; [|done].
  apply endsWith_app in E. by destruct Hp.
Qed.

Lemma strip_git_suffix_spec (p : jsstring) :
  strips_suffix p (strip_git_suffix p).
Proof.
  destruct (endsWith p (lit ".git")) eqn:E.
  - apply endsWith_app in E as [q ->]. rewrite strip_git_suffix_app. constructor.
  - assert (~ git_suffixed p) as Hp.
    { intros [q ->]. assert (endsWith (q ++ lit ".git") (lit ".git") = true)
        by (apply endsWith_app; eauto). congruence. }
    rewrite strip_git_suffix_absent by done. by constructor.
Qed.

Lemma after_prefix_app (pre s r : jsstring) :
  after_prefix pre s = Some r <-> s = pre ++ r.
Proof.
  revert s. induction pre as [|c pre IH]; intros s; simpl.
  - split; [by intros [= ->] | by intros ->].
  - destruct s as [|d s]; [done|].
    destruct (N.eqb_spec c d) as [->|Hne].
    + rewrite IH. split; [by intros -> | by intros [= ->]].
    + split; [done | intros [= -> _]; done].
Qed.

Lemma span_host_app (host rest : jsstring) :
  slash ∉ host -> span_host (host ++ (slash :: rest)) = (host, slash :: rest).
Proof.
  induction host as [|c host IH]; intros Hh; simpl.
  - done.
  - apply not_elem_of_cons in Hh as [Hc Hh].
    destruct (N.eqb_spec c slash) as [->|_]; [done|].
    by rewrite IH.
Qed.

Lemma span_host_spec (s h t : jsstring) :
  span_host s = (h, t) ->
  s = h ++ t /\ (slash ∉ h) /\ (t = [] \/ exists t', t = slash :: t').
Proof.
  revert h t. induction s as [|c s IH]; intros h t; simpl.
  - intros [= <- <-]. split_and!; [done | apply not_elem_of_nil | by left].
  - destruct (N.eqb_spec c slash) as [->|Hc].
    + intros [= <- <-]. split_and!; [done | apply not_elem_of_nil | eauto].
    + destruct (span_host s) as [h' t'] eqn:E. intros [= <- <-].
      destruct (IH h' t' eq_refl) as (-> & Hh & Ht).
      split_and!; [done | | done].
      apply not_elem_of_cons. split; [congruence | done].
Qed.

(** The embedding of the regular expression matches exactly the strings
    the specification calls prefixed. *)
Lemma after_scheme_and_host_Some (s rest : jsstring) :
  after_scheme_and_host s = Some rest <->
  exists scheme host,
    (scheme = lit "http" \/ scheme = lit "https") /\
    host <> [] /\ (slash ∉ host) /\
    s = scheme ++ lit "://" ++ host ++ (slash :: rest).
Proof.
  unfold after_scheme_and_host. split.
  - destruct (after_prefix (lit "http") s) as [r|] eqn:E1; [|done].
    apply after_prefix_app in E1 as ->. cbn [mbind option_bind].
    set (r1 := match r with
               | c :: r' => if (c =? 115)%N then r' else r
               | [] => r
               end).
    destruct (after_prefix (lit "://") r1) as [r2|] eqn:E2; [|done].
    apply after_prefix_app in E2. cbn [mbind option_bind].
    destruct (span_host r2) as [h t] eqn:E3.
    destruct h as [|c h]; [done|]. destruct t as [|d t]; [done|].
    intros [= <-].
    apply span_host_spec in E3 as (-> & Hh & [Ht|[t' [= -> ->]]]); [done|].
    destruct r as [|c0 r]; [done|]. subst r1.
    destruct (N.eqb_spec c0 115) as [->|_] in E2.
    + subst r. exists (lit "https"), (c :: h). split_and!; [by right | done | done | done].
    + rewrite E2. exists (lit "http"), (c :: h). split_and!; [by left | done | done | done].
  - intros (scheme & host & Hs & Hne & Hh & ->).
    destruct host as [|c host]; [done|].
    pose proof (span_host_app (c :: host) rest Hh) as Hspan.
    destruct Hs as [-> | ->]; eval_literals; simpl in *; by rewrite Hspan.
Qed.

Lemma after_scheme_and_host_None (s : jsstring) :
  after_scheme_and_host s = None <-> ~ url_prefixed s.
Proof.
  split.
  - intros E (scheme & host & rest & Hs & Hne & Hh & Heq).
    assert (after_scheme_and_host s = Some rest) as E'.
    { apply after_scheme_and_host_Some. by exists scheme, host. }
    congruence.
  - intros Hs. destruct (after_scheme_and_host s) as [rest|] eqn:E; [|done].
    apply after_scheme_and_host_Some in E as (scheme & host & H).
    destruct Hs. by exists scheme, host, rest.
Qed.

Lemma strip_scheme_and_host_spec (s : jsstring) :
  strips_prefix s (strip_scheme_and_host s).
Proof.
  unfold strip_scheme_and_host.
  destruct (after_scheme_and_host s) as [rest|] eqn:E; simpl.
  - apply after_scheme_and_host_Some in E as (scheme & host & ? & ? & ? & ->).
    by constructor.
  - constructor. by apply after_scheme_and_host_None.
Qed.

Lemma strip_git_suffix_length (p : jsstring) :
  (length (strip_git_suffix p) <= length p)%nat /\
  (git_suffixed p -> (length (strip_git_suffix p) < length p)%nat).
Proof.
  split.
  - unfold strip_git_suffix. destruct (endsWith _ _); [|done].
    rewrite length_take. lia.
  - intros [q ->]. rewrite strip_git_suffix_app, length_app. simpl. lia.
Qed.

Lemma strip_scheme_and_host_length (s : jsstring) :
  (length (strip_scheme_and_host s) <= length s)%nat /\
  (url_prefixed s -> (length (strip_scheme_and_host s) < length s)%nat).
Proof.
  unfold strip_scheme_and_host.
  destruct (after_scheme_and_host s) as [rest|] eqn:E; simpl.
  - apply after_scheme_and_host_Some in E as (scheme & host & ? & ? & ? & ->).
    rewrite !length_app. simpl. lia.
  - split; [done|]. intros Hs. by apply after_scheme_and_host_None in E.
Qed.

(** A string is left as it is exactly when it has neither the suffix nor
    the prefix. *)
Lemma extractProjectPath_fixed (q : jsstring) :
  extractProjectPath q = q <-> ~ git_suffixed q /\ ~ url_prefixed q.
Proof.
  unfold extractProjectPath. split.
  - intros E.
    pose proof (strip_git_suffix_length q) as [Hle Hlt].
    pose proof (strip_scheme_and_host_length (strip_git_suffix q)) as [Hle' Hlt'].
    assert (~ git_suffixed q) as Hg by (intros Hg; specialize (Hlt Hg); rewrite E in Hle'; lia).
    split; [done|]. intros Hu.
    rewrite strip_git_suffix_absent in * by done.
    specialize (Hlt' Hu). rewrite E in Hlt'. lia.
  - intros [Hg Hu]. rewrite strip_git_suffix_absent by done.
    unfold strip_scheme_and_host.
    by rewrite (proj2 (after_scheme_and_host_None q) Hu).
Qed.

(** C3 (the claim as the specification states it fails): the normaliser is
    not idempotent.  On [a.git.git] it returns [a.git], and on [a.git] it
    returns [a]. *)
Lemma extractProjectPath_not_idempotent :
  extractProjectPath (lit "a.git.git") = lit "a.git" /\
  extractProjectPath (extractProjectPath (lit "a.git.git")) = lit "a" /\
  extractProjectPath (extractProjectPath (lit "a.git.git"))
    <> extractProjectPath (lit "a.git.git").
Proof. by vm_compute. Qed.

(** C3 (amended): for every string [p], [extractProjectPath] strips exactly
    one trailing [.git] suffix if [p] has one, and then exactly one leading
    scheme-and-host prefix if what is left has one; applying it a second
    time changes nothing exactly when the first result carries neither a
    trailing [.git] nor a leading scheme-and-host prefix. *)
Theorem extractProjectPath_strips_once (p : jsstring) :
  (exists s, strips_suffix p s /\ strips_prefix s (extractProjectPath p)) /\
  (extractProjectPath (extractProjectPath p) = extractProjectPath p <->
   ~ git_suffixed (extractProjectPath p) /\ ~ url_prefixed (extractProjectPath p)).
Proof.
  split.
  - exists (strip_git_suffix p). split.
    + apply strip_git_suffix_spec.
    + apply strip_scheme_and_host_spec.
  - apply extractProjectPath_fixed.
Qed.

End Normaliser.

(** ** The gateway *)

Section Gateway.

Context {host : Host} {network : Network} {T : Type} {json : Json T}.

Lemma response_ok_range (response : Response) :
  response_ok response = true <-> 200 <= response_status response <= 299.
Proof. unfold response_ok. rewrite andb_true_iff, !Z.leb_le. done. Qed.


Lemma on_fetch_error_other (e : Thrown) :
  is_AbortError e = false ->
  exists r, on_fetch_error (T := T) e = Return r /\
            ok r = false /\ status r = 0 /\ data r = None /\
            (forall name message, e = ThrownError name message ->
                                  statusText r = message /\ text r = Some message) /\
            (forall rendering, e = ThrownValue rendering ->
                               statusText r = lit "Network error" /\
                               text r = Some rendering).
Proof.
  unfold on_fetch_error. intros ->. eexists. split; [done|]. simpl.
  split_and!; [done.. | by intros name message -> | by intros rendering ->].
Qed.


(** Without a body there is nothing to serialise: the request is built.
    This is how every tool calls the gateway. *)
Lemma build_request_without_body options config :
  body options = None -> exists init, build_request options config = Return init.
Proof. intros Hb. unfold build_request. rewrite Hb. eauto. Qed.

Lemma fetchFromGitLabAPI_send path options config init :
  build_request options config = Return init ->
  fetchFromGitLabAPI (T := T) path options config = send (request_url path config) init.
Proof. intros Hb. unfold fetchFromGitLabAPI. by rewrite Hb. Qed.


(** C4: the parsed payload is there only for a response that is [ok],
    declares a JSON content type, has a body that is not empty and parses;
    in every other case [data] is absent, and the body text of a response
    is returned in [text] all the same. *)
Theorem fetchFromGitLabAPI_data path options config (r : GitLabResponse T) :
  fetchFromGitLabAPI path options config = Return r ->
  exists init,
    build_request options config = Return init /\
    let o := fetch (request_url path config) init in
    (forall v,
        data r = Some v <->
        ok r = true /\
        exists response rawText,
          o = FetchResolves response (Return rawText) /\
          200 <= response_status response <= 299 /\
          isJson (response_contentType response) = true /\
          rawText <> [] /\
          JSON_parse rawText = Some v) /\
    (forall response rawText,
        o = FetchResolves response (Return rawText) -> text r = Some rawText).
Proof.
  intros Hr. unfold fetchFromGitLabAPI in Hr.
  destruct (build_request options config) as [init|e] eqn:Hb; [|done].
  exists init. split; [done|]. cbn [mbind outcome_bind Js.bind] in Hr.
  intros o. unfold send in Hr. fold o in Hr.
  destruct o as [e|response [rawText|e]] eqn:Ho.
  - destruct (on_fetch_error_other e) as (r' & Hr' & ? & ? & Hd & ? & ?).
    { unfold on_fetch_error in Hr. by destruct (is_AbortError e). }
    assert (r = r') as <- by congruence. split; [|done].
    intros v. rewrite Hd. split; [done|]. by intros (_ & ? & ? & ? & _).
  - injection Hr as <-. simpl. split; [|by intros ?? [= _ ->]].
    intros v. split.
    + destruct (response_ok response) eqn:Eok; [|done].
      destruct (isJson _) eqn:Ejson; [|done].
      destruct rawText as [|c rawText]; [done|]. simpl.
      intros Hv. split; [done|]. exists response, (c :: rawText).
      apply response_ok_range in Eok. split_and!; (done || lia).
    + intros (Hok & response' & rawText' & [= <- <-] & _ & -> & Hne & Hv).
      rewrite Hok. by destruct rawText.
  - destruct (on_fetch_error_other e) as (r' & Hr' & ? & ? & Hd & ? & ?).
    { unfold on_fetch_error in Hr. by destruct (is_AbortError e). }
    assert (r = r') as <- by congruence. split; [|done].
    intros v. rewrite Hd. split; [done|]. by intros (_ & ? & ? & ? & _).
Qed.

End Gateway.

(** ** The pagination loop of [globFiles] *)

Section Pagination.

Import Glob.

Context {host : Host}.

Variable fetchPage : Z -> Outcome (GitLabResponse (list GitLabTreeItem)).

Lemma pages_from_S (page : Z) (n : nat) :
  pages_from page (S n) = page :: pages_from (page + 1) n.
Proof.
  unfold pages_from. simpl. rewrite Z.add_0_r. f_equal.
  rewrite <- fmap_S_seq, <- list_fmap_compose.
  apply list_fmap_ext. intros _ i _. simpl. lia.
Qed.

Lemma files_of_cons (page : Z) (pages : list Z) :
  files_of fetchPage (page :: pages) = blob_paths (page_items fetchPage page) ++ files_of fetchPage pages.
Proof. done. Qed.

Lemma page_items_succeeds (page : Z) items :
  page_succeeds fetchPage page items -> page_items fetchPage page = items.
Proof. intros (r & Hr & Hok & Hd). unfold page_items. by rewrite Hr, Hok, Hd. Qed.

(** As long as the pages are full the loop goes on to the next page. *)
Lemma collect_pages_full (n : nat) : forall fuel page allFiles seen,
  (forall i, (i < n)%nat -> page_full fetchPage (page + Z.of_nat i)) ->
  collect_pages fetchPage (n + fuel) page allFiles seen =
  collect_pages fetchPage fuel (page + Z.of_nat n)
    (allFiles ++ files_of fetchPage (pages_from page n)) (seen ++ pages_from page n).
Proof.
  induction n as [|n IH]; intros fuel page allFiles seen Hfull.
  - simpl. by rewrite Z.add_0_r, !app_nil_r.
  - destruct (Hfull 0%nat ltac:(lia)) as (items & Hs & Hlen).
    rewrite Z.add_0_r in Hs. pose proof (page_items_succeeds _ _ Hs) as Hitems.
    destruct Hs as (r & Hr & Hok & Hd).
    rewrite pages_from_S, files_of_cons, Hitems.
    change (S n + fuel)%nat with (S (n + fuel)).
    cbn [collect_pages]. rewrite Hr, Hok, Hd, Hlen, Nat.eqb_refl.
    rewrite IH.
    + rewrite <- !app_assoc. f_equal. lia.
    + intros i Hi. replace (page + 1 + Z.of_nat i) with (page + Z.of_nat (S i)) by lia.
      apply Hfull. lia.
Qed.

Lemma collect_pages_short fuel page allFiles seen items :
  page_succeeds fetchPage page items -> length items <> 100%nat ->
  collect_pages fetchPage (S fuel) page allFiles seen =
  Some {| requested := seen ++ [page];
          outcome := Return (allFiles ++ blob_paths items) |}.
Proof.
  intros (r & Hr & Hok & Hd) Hlen. simpl. rewrite Hr, Hok, Hd.
  by destruct (Nat.eqb_spec (length items) 100).
Qed.

Lemma collect_pages_fails fuel page allFiles seen r :
  page_fails fetchPage page r ->
  collect_pages fetchPage (S fuel) page allFiles seen =
  Some {| requested := seen ++ [page];
          outcome := if page =? 1
                     then throw_Error (lit "Failed to fetch files: " ++ status_line r)
                     else Return allFiles |}.
Proof.
  intros [Hr Hfail]. simpl. rewrite Hr.
  destruct Hfail as [-> | Hd]; [done|]. rewrite Hd. by destruct (ok r).
Qed.

(** A thrown value (the abort of the caller) leaves the loop at once. *)
Lemma collect_pages_throws fuel page allFiles seen e :
  fetchPage page = Throw e ->
  collect_pages fetchPage (S fuel) page allFiles seen =
  Some {| requested := seen ++ [page]; outcome := Throw e |}.
Proof. intros Hr. simpl. by rewrite Hr. Qed.

(** More iterations than the loop needs do not change its result. *)
Lemma collect_pages_more fuel : forall page allFiles seen c extra,
  collect_pages fetchPage fuel page allFiles seen = Some c ->
  collect_pages fetchPage (fuel + extra) page allFiles seen = Some c.
Proof.
  induction fuel as [|fuel IH]; intros page allFiles seen c extra; [done|].
  simpl. destruct (fetchPage page) as [r|e]; [|done].
  destruct (if ok r then data r else None) as [items|]; [|done].
  destruct (length items =? 100)%nat; [apply IH | done].
Qed.

End Pagination.

Section PaginationPolicy.

Import Glob.

Context {host : Host}.

Lemma pages_from_snoc (page : Z) (n : nat) :
  pages_from page (S n) = pages_from page n ++ [page + Z.of_nat n].
Proof. unfold pages_from. by rewrite seq_S, fmap_app. Qed.

(** C2: the loop of [globFiles] starts at page 1 and appends the file
    entries of every successful page.  When pages 1 to [n] are full (one
    hundred items each), and page [n + 1] is short or fails, the loop
    requests the pages 1 to [n + 1] and no other: a short page is added
    and ends the loop, a failed page ends it too, with an error when it is
    page 1 and with the files of the earlier pages otherwise.  Page
    sources of sizes 100, 100, 37 give 237 files in three calls; sizes 100,
    100 and a failing third call give 200 files; a failing first call makes
    [globFiles] throw. *)
Theorem globFiles_pagination :
  (forall fetchPage (n fuel : nat),
      (n < fuel)%nat ->
      (forall i, 1 <= i <= Z.of_nat n -> page_full fetchPage i) ->
      let last := Z.of_nat n + 1 in
      let earlier := files_of fetchPage (pages_from 1 n) in
      (forall items,
          page_succeeds fetchPage last items -> (length items < 100)%nat ->
          collect_pages fetchPage fuel 1 [] [] =
          Some {| requested := pages_from 1 (S n);
                  outcome := Return (earlier ++ blob_paths items) |}) /\
      (forall r,
          page_fails fetchPage last r ->
          collect_pages fetchPage fuel 1 [] [] =
          Some {| requested := pages_from 1 (S n);
                  outcome :=
                    match n with
                    | O => throw_Error (lit "Failed to fetch files: " ++ status_line r)
                    | S _ => Return earlier
                    end |})) /\
  (forall fuel, (3 <= fuel)%nat ->
      let files := blob_paths (TestHost.blob_page 100 ++ TestHost.blob_page 100
                               ++ TestHost.blob_page 37) in
      collect_pages
        (TestHost.serve [TestHost.blob_page 100; TestHost.blob_page 100;
                         TestHost.blob_page 37]) fuel 1 [] [] =
      Some {| requested := [1; 2; 3]; outcome := Return files |} /\
      length files = 237%nat) /\
  (forall fuel, (3 <= fuel)%nat ->
      let files := blob_paths (TestHost.blob_page 100 ++ TestHost.blob_page 100) in
      collect_pages
        (TestHost.serve [TestHost.blob_page 100; TestHost.blob_page 100])
        fuel 1 [] [] =
      Some {| requested := [1; 2; 3]; outcome := Return files |} /\
      length files = 200%nat) /\
  (forall fuel args, (1 <= fuel)%nat ->
      globFiles_from (TestHost.serve []) fuel args =
      Some (throw_Error (lit "Failed to fetch files: 500 Internal Server Error"))).
Proof.
  split_and!.
  - intros fetchPage n fuel Hfuel Hfull last earlier.
    replace fuel with (n + S (fuel - S n))%nat by lia.
    assert (collect_pages fetchPage (n + S (fuel - S n)) 1 [] [] =
            collect_pages fetchPage (S (fuel - S n)) last earlier (pages_from 1 n))
      as ->.
    { rewrite collect_pages_full; [by rewrite Z.add_comm|].
      intros i Hi. apply Hfull. lia. }
    split.
    + intros items Hitems Hlen.
      rewrite (collect_pages_short _ _ _ _ _ items) by (done || lia).
      rewrite pages_from_snoc. by replace (1 + Z.of_nat n) with last by (unfold last; lia).
    + intros r Hr.
      rewrite (collect_pages_fails _ _ _ _ _ r) by done.
      rewrite pages_from_snoc. replace (1 + Z.of_nat n) with last by (unfold last; lia).
      do 2 f_equal. unfold last. destruct n as [|n]; [done|].
      by destruct (Z.eqb_spec (Z.of_nat (S n) + 1) 1); [lia|].
  - intros fuel Hfuel files. split; [|by vm_compute].
    replace fuel with (3 + (fuel - 3))%nat by lia.
    apply collect_pages_more. by vm_compute.
  - intros fuel Hfuel files. split; [|by vm_compute].
    replace fuel with (3 + (fuel - 3))%nat by lia.
    apply collect_pages_more. by vm_compute.
  - intros fuel args Hfuel. unfold globFiles_from.
    replace fuel with (1 + (fuel - 1))%nat by lia.
    erewrite collect_pages_more; [|by vm_compute]. by vm_compute.
Qed.

End PaginationPolicy.

(** ** Reading a file *)

Section ReadFile.

Import Read.

(** [readFile] is the gateway call followed by [read_content]. *)
Lemma readFile_read_content {host : Host} {network : Network} {json : Json jsstring}
    (args : GitLabReadArgs) (config : GitLabConfig)
    encodedProjectPath encodedFilePath response :
  let projectPath := extractProjectPath (project args) in
  let relativePath := relative_path (path args) projectPath in
  encodeURIComponent projectPath = Return encodedProjectPath ->
  encodeURIComponent relativePath = Return encodedFilePath ->
  fetchFromGitLabAPI
    (lit "projects/" ++ encodedProjectPath ++
     lit "/repository/files/" ++ encodedFilePath ++ lit "/raw")
    no_options config = Return response ->
  ok response = true ->
  readFile args config =
  match read_content (default [] (text response)) (read_range args) with
  | Return numberedLines =>
      Return {| absolutePath := lit "/" ++ projectPath ++ lit "/" ++ relativePath;
                content := numberedLines |}
  | Throw e => Throw e
  end.
Proof.
  intros projectPath relativePath Hp Hf Hresp Hok. unfold readFile.
  fold projectPath. rewrite Hp. cbn [mbind outcome_bind Js.bind].
  fold relativePath. rewrite Hf. cbn [mbind outcome_bind Js.bind].
  rewrite Hresp. cbn [mbind outcome_bind Js.bind].
  rewrite Hok. cbn [negb]. by destruct (read_content _ _).
Qed.

(** For a range of whole numbers the bounds are computed without
    rounding, and [slice] gets them as they are. *)
Lemma selected_lines_integers (lines : list jsstring) (first last : Z) :
  safe first ->
  selected_lines lines (Some (whole first, whole last)) =
  slice lines (Z.max 1 first - 1) (Some (Z.min (Z.of_nat (length lines)) last)).
Proof.
  intros Hsafe. unfold selected_lines, line_bounds.
  rewrite Math_max_whole, Math_min_whole, Number_subtract_whole, slice_numbers_whole;
    [done|]. unfold safe in *. lia.
Qed.

(** For a range of whole numbers that ends at a line number that is not
    negative, the selected lines are the lines [max 1 first] to
    [min n last] of the file. *)
Lemma selected_lines_clamped (lines : list jsstring) (first last : Z) :
  safe first -> 0 <= last ->
  let n := Z.of_nat (length lines) in
  selected_lines lines (Some (whole first, whole last)) =
  take (Z.to_nat (Z.min n last - (Z.max 1 first - 1)))
       (drop (Z.to_nat (Z.max 1 first - 1)) lines).
Proof.
  intros Hsafe Hlast n. rewrite selected_lines_integers by done.
  replace (Z.max 1 first - 1) with (Z.of_nat (Z.to_nat (Z.max 1 first - 1))) at 1 by lia.
  replace (Z.min (Z.of_nat (length lines)) last)
    with (Z.of_nat (Z.to_nat (Z.min n last))) by lia.
  rewrite slice_nat. f_equal. lia.
Qed.

Lemma selected_lines_whole (lines : list jsstring) :
  selected_lines lines None = lines.
Proof.
  unfold selected_lines, line_bounds.
  rewrite Number_subtract_whole by (unfold safe; lia). rewrite slice_numbers_whole.
  change (1 - 1) with (Z.of_nat 0). rewrite slice_nat.
  rewrite drop_0, Nat.sub_0_r. by apply take_ge.
Qed.

(** The examples of the specification: the range [0, 10000] on a file of
    five lines gives the lines 1 to 5, the range [3, 4] the two lines
    numbered 3 and 4. *)
Lemma read_content_examples :
  read_content five_lines (Some (whole 0, whole 10000)) =
  Return (join newline [lit "1: a"; lit "2: b"; lit "3: c"; lit "4: d"; lit "5: e"]) /\
  read_content five_lines (Some (whole 3, whole 4)) =
  Return (join newline [lit "3: c"; lit "4: d"]) /\
  read_content five_lines None =
  Return (join newline [lit "1: a"; lit "2: b"; lit "3: c"; lit "4: d"; lit "5: e"]).
Proof. by vm_compute. Qed.

(** A range of whole numbers that ends at a negative line number selects
    the lines from [max 1 first] to the line that stands [- last] lines
    before the end of the file. *)
Lemma selected_lines_negative_end (lines : list jsstring) (first last : Z) :
  safe first -> last < 0 ->
  let n := Z.of_nat (length lines) in
  selected_lines lines (Some (whole first, whole last)) =
  take (Z.to_nat (n + last - (Z.max 1 first - 1)))
       (drop (Z.to_nat (Z.max 1 first - 1)) lines).
Proof.
  intros Hsafe Hlast n. rewrite selected_lines_integers by done.
  unfold slice, relative_index.
  fold n. rewrite (Z.min_r n last) by lia.
  destruct (Z.ltb_spec (Z.max 1 first - 1) 0); [lia|].
  destruct (Z.ltb_spec last 0); [|lia].
  destruct (decide (Z.max 1 first - 1 <= n)) as [Hs|Hs].
  - rewrite (Z.min_l _ n) by lia. f_equal. lia.
  - rewrite (Z.min_r _ n) by lia.
    rewrite !drop_ge by lia. by rewrite !take_nil.
Qed.

(** C5 (the code departs from the claim): a range that ends at a negative
    line number is not clamped.  [endLine] is [Math.min(5, -2) = -2], and
    [slice(0, -2)] counts its end from the end of the array, so that the
    range [1, -2] on a file of five lines returns the lines 1 to 3. *)
Theorem read_content_negative_end :
  line_bounds 5 (Some (whole 1, whole (-2))) = (whole 1, whole (-2)) /\
  selected_lines (split 10 five_lines) (Some (whole 1, whole (-2))) =
  [lit "a"; lit "b"; lit "c"] /\
  read_content five_lines (Some (whole 1, whole (-2))) =
  Return (join newline [lit "1: a"; lit "2: b"; lit "3: c"]).
Proof.
  split_and!.
  - by vm_compute.
  - rewrite selected_lines_negative_end by (unfold safe; lia). by vm_compute.
  - by vm_compute.
Qed.

(** C6: when the byte size of the selected slice exceeds 131072 the
    operation throws the size error, whose message gives the number of
    lines of the whole file; otherwise it returns the numbered text of
    every selected line.  So a slice of 131072 bytes is returned, and a
    slice of 131073 bytes is refused. *)
Theorem read_content_size_cap (content : jsstring)
    (read_range : option (number * number)) :
  let lines := split 10 content in
  let selected := selected_lines lines read_range in
  let startLine := fst (line_bounds (Z.of_nat (length lines)) read_range) in
  let size := byteLength (join newline selected) in
  (131072 < size ->
   read_content content read_range =
   throw_Error (lit "File is too large (" ++ number_toString (round_div size 1024) ++
                lit "KB). The file has " ++ number_toString (Z.of_nat (length lines)) ++
                lit " lines. Please retry with a smaller read_range parameter.")) /\
  (size <= 131072 ->
   read_content content read_range =
   Return (join newline (imap (numbered startLine) selected)) /\
   length (imap (numbered startLine) selected) = length selected) /\
  (size = 131072 -> exists text, read_content content read_range = Return text) /\
  (size = 131073 -> exists e, read_content content read_range = Throw e).
Proof.
  intros lines selected startLine size.
  assert (131072 < size ->
          read_content content read_range =
          throw_Error (too_large_message size (length lines))) as Hlarge.
  { intros Hsize. unfold read_content. fold lines selected size. unfold size_cap.
    by destruct (Z.ltb_spec (128 * 1024) size); [|lia]. }
  assert (size <= 131072 ->
          read_content content read_range =
          Return (join newline (imap (numbered startLine) selected))) as Hsmall.
  { intros Hsize. unfold read_content. fold lines selected size startLine.
    unfold size_cap. by destruct (Z.ltb_spec (128 * 1024) size); [lia|]. }
  split_and!.
  - done.
  - intros Hsize. split; [by apply Hsmall | by rewrite length_imap].
  - intros Hsize. eexists. apply Hsmall. lia.
  - intros Hsize. eexists. apply Hlarge. lia.
Qed.

(** The two sizes at the cap, on files of one line. *)
Lemma read_content_at_cap :
  byteLength (join newline (selected_lines (split 10 (letters 131072)) None)) = 131072 /\
  (exists text, read_content (letters 131072) None = Return text) /\
  byteLength (join newline (selected_lines (split 10 (letters 131073)) None)) = 131073 /\
  read_content (letters 131073) None =
  throw_Error (lit "File is too large (128KB). The file has 1 lines. Please retry with a smaller read_range parameter.").
Proof.
  assert (byteLength (join newline (selected_lines (split 10 (letters 131072)) None))
          = 131072) as H1 by (by vm_compute).
  assert (byteLength (join newline (selected_lines (split 10 (letters 131073)) None))
          = 131073) as H2 by (by vm_compute).
  split_and!; [done | | done |].
  - pose proof (read_content_size_cap (letters 131072) None) as (_ & _ & Hcap & _).
    by apply Hcap.
  - pose proof (read_content_size_cap (letters 131073) None) as (Hlarge & _).
    cbv zeta in Hlarge. rewrite H2 in Hlarge. rewrite Hlarge by lia. by vm_compute.
Defined.

End ReadFile.

(** ** Grouping the matches of a search *)

Section SearchGrouping.

Import Search.

Variable projectPath : jsstring.

Lemma elem_of_first_appearances (x : jsstring) (l : list jsstring) :
  x ∈ first_appearances l <-> x ∈ l.
Proof.
  induction l as [|y l IH]; simpl; [done|].
  rewrite !elem_of_cons, list_elem_of_filter, IH.
  destruct (decide (x = y)) as [->|Hne]; [tauto | intuition congruence].
Qed.

Lemma NoDup_first_appearances (l : list jsstring) : NoDup (first_appearances l).
Proof.
  induction l as [|y l IH]; simpl; [constructor|].
  constructor.
  - rewrite list_elem_of_filter. by intros [Hne _].
  - by apply NoDup_filter.
Qed.

Lemma first_appearances_snoc (l : list jsstring) (x : jsstring) :
  first_appearances (l ++ [x]) =
  if decide (x ∈ l) then first_appearances l else first_appearances l ++ [x].
Proof.
  induction l as [|y l IH]; simpl; [done|].
  rewrite IH. destruct (decide (x ∈ l)) as [Hin|Hnin].
  - rewrite decide_True by (by right). done.
  - destruct (decide (x = y)) as [->|Hne].
    + rewrite decide_True by (by left).
      rewrite filter_app, filter_cons_False by (intros Hne; by apply Hne).
      by rewrite filter_nil, app_nil_r.
    + rewrite decide_False by (rewrite elem_of_cons; intuition congruence).
      rewrite filter_app, filter_cons_True by done.
      by rewrite filter_nil.
Qed.

Lemma chunks_for_snoc file items item :
  chunks_for projectPath file (items ++ [item]) =
  chunks_for projectPath file items ++
  (if decide (absPath projectPath item = file /\ data item <> [])
   then [fragment_of (data item)] else []).
Proof.
  unfold chunks_for. rewrite filter_app, fmap_app. f_equal.
  destruct (decide _) as [Hyes|Hno].
  - by rewrite filter_cons_True.
  - by rewrite filter_cons_False.
Qed.

Lemma has_elem_of (keys : list jsstring) (c : jsstring -> list jsstring) key :
  has ((fun f => (f, c f)) <$> keys) key = bool_decide (key ∈ keys).
Proof.
  unfold has. induction keys as [|k keys IH]; [done|].
  rewrite fmap_cons. cbn [existsb fst].
  rewrite IH. unfold str_eqb.
  destruct (decide (k = key)) as [->|Hne].
  - rewrite bool_decide_eq_true_2 by done. simpl.
    symmetry. apply bool_decide_eq_true_2. by left.
  - rewrite (bool_decide_eq_false_2 (k = key)) by done. simpl.
    apply bool_decide_ext. rewrite elem_of_cons. intuition congruence.
Qed.

Lemma push_chunk_fmap (keys : list jsstring) (c : jsstring -> list jsstring)
    key fragment :
  NoDup keys ->
  push_chunk ((fun f => (f, c f)) <$> keys) key fragment =
  (fun f => (f, if decide (f = key) then c f ++ [fragment] else c f)) <$> keys.
Proof.
  induction 1 as [|k keys Hk Hnd IH]; [done|].
  rewrite !fmap_cons. cbn [push_chunk].
  unfold str_eqb. destruct (decide (k = key)) as [->|Hne].
  - rewrite bool_decide_eq_true_2 by done. f_equal.
    apply list_fmap_ext. intros i f Hf.
    rewrite decide_False; [done|]. intros ->.
    apply Hk. by eapply list_elem_of_lookup_2.
  - rewrite bool_decide_eq_false_2 by done. by rewrite IH.
Qed.

(** The loop computes the grouping. *)
Lemma foldl_group_item (items : list GitLabSearchItem) :
  foldl (group_item projectPath) [] items = grouped projectPath items.
Proof.
  induction items as [|item items IH] using rev_ind; [done|].
  rewrite foldl_app. cbn [foldl]. rewrite IH. clear IH.
  unfold group_item. fold (absPath projectPath item). unfold grouped.
  rewrite fmap_app.
  change (absPath projectPath <$> [item]) with [absPath projectPath item].
  rewrite first_appearances_snoc.
  rewrite has_elem_of.
  rewrite (bool_decide_ext _ (absPath projectPath item ∈ absPath projectPath <$> items))
    by apply elem_of_first_appearances.
  rewrite bool_decide_decide.
  pose proof (NoDup_first_appearances (absPath projectPath <$> items)) as Hnd.
  assert (absPath projectPath item ∈ absPath projectPath <$> items <->
          absPath projectPath item ∈ first_appearances (absPath projectPath <$> items)) as Hkeys
    by (by rewrite elem_of_first_appearances).
  set (keys := first_appearances (absPath projectPath <$> items)) in *.
  assert (forall f, chunks_for projectPath f (items ++ [item]) =
                    if decide (f = absPath projectPath item)
                    then chunks_for projectPath f items ++
                         (if nonempty (data item) then [fragment_of (data item)] else [])
                    else chunks_for projectPath f items) as Hchunks.
  { intros f. rewrite chunks_for_snoc.
    destruct (decide (f = absPath projectPath item)) as [->|Hne].
    - destruct (data item) as [|c d]; simpl.
      + rewrite decide_False by (by intros [_ ?]). done.
      + rewrite decide_True by done. done.
    - rewrite decide_False by (intros [? _]; congruence). by rewrite app_nil_r. }
  destruct (decide (absPath projectPath item ∈ absPath projectPath <$> items)) as [Hin|Hnin].
  - destruct (nonempty (data item)) eqn:Hdata.
    + rewrite push_chunk_fmap by done.
      apply list_fmap_ext. intros i f _. by rewrite Hchunks.
    + apply list_fmap_ext. intros i f _. rewrite Hchunks.
      destruct (decide _); by rewrite ?app_nil_r.
  - assert (absPath projectPath item ∉ keys) as Hkey by (by rewrite <- Hkeys).
    assert (NoDup (keys ++ [absPath projectPath item])) as Hnd'.
    { apply NoDup_app. split_and!; [done | | apply NoDup_singleton].
      intros f Hf Hf'. apply list_elem_of_singleton in Hf'. by subst f. }
    assert ((fun f => (f, chunks_for projectPath f items)) <$> keys ++ [absPath projectPath item]
            = ((fun f => (f, chunks_for projectPath f items)) <$> keys)
              ++ [(absPath projectPath item, [])]) as Hsnoc.
    { rewrite fmap_app. simpl. do 3 f_equal. unfold chunks_for.
      rewrite filter_none; [done|].
      intros it Hit [Hp _].
      apply Hnin. rewrite <- Hp. by apply list_elem_of_fmap_2. }
    rewrite <- Hsnoc.
    destruct (nonempty (data item)) eqn:Hdata.
    + rewrite push_chunk_fmap by done.
      apply list_fmap_ext. intros i f _. by rewrite Hchunks.
    + apply list_fmap_ext. intros i f _. rewrite Hchunks.
      destruct (decide _); by rewrite ?app_nil_r.
Qed.

End SearchGrouping.

Section SearchResults.

Import Search.

Lemma trimStart_spec (s : jsstring) :
  exists pre, s = pre ++ trimStart s /\
              Forall (fun c => is_whitespace c = true) pre /\
              (forall c r, trimStart s = c :: r -> is_whitespace c = false).
Proof.
  induction s as [|c s (pre & Hs & Hpre & Hhead)]; simpl.
  - exists []. split_and!; [done | constructor | done].
  - destruct (is_whitespace c) eqn:Hc.
    + exists (c :: pre). split_and!; [by rewrite Hs at 1 | by constructor | done].
    + exists []. split_and!; [done | constructor | by intros ?? [= <- _]].
Qed.

(** [trim] removes the white space around a string, and nothing else. *)
Lemma trim_spec (s : jsstring) :
  exists pre post,
    s = pre ++ trim s ++ post /\
    Forall (fun c => is_whitespace c = true) pre /\
    Forall (fun c => is_whitespace c = true) post /\
    (forall c r, trim s = c :: r -> is_whitespace c = false) /\
    (forall c r, trim s = r ++ [c] -> is_whitespace c = false).
Proof.
  destruct (trimStart_spec s) as (pre & Hs & Hpre & Hhead).
  destruct (trimStart_spec (rev (trimStart s))) as (tsop & Hr & Hpost & Hlast).
  assert (trimStart s = trim s ++ rev tsop) as Hmid.
  { unfold trim, trimEnd. rewrite <- rev_app_distr, <- Hr. by rewrite rev_involutive. }
  exists pre, (rev tsop). split_and!.
  - by rewrite <- Hmid.
  - done.
  - by apply List.Forall_rev.
  - intros c r Ht. apply (Hhead c (r ++ rev tsop)). by rewrite Hmid, Ht.
  - intros c r Ht. unfold trim, trimEnd in Ht.
    apply (f_equal (@rev N)) in Ht. rewrite rev_involutive, rev_app_distr in Ht.
    by apply (Hlast c (rev r)).
Qed.

Lemma fragment_of_spec (d : jsstring) :
  ((length (trim d) <= 2048)%nat -> fragment_of d = trim d) /\
  ((2048 < length (trim d))%nat ->
   fragment_of d = take 2048 (trim d) ++ lit "... (truncated)").
Proof.
  unfold fragment_of. destruct (Nat.ltb_spec 2048 (length (trim d))).
  - split; [lia|]. intros _. f_equal.
    change 0 with (Z.of_nat 0). change 2048 with (Z.of_nat 2048).
    by rewrite slice_nat, drop_0.
  - split; [done | lia].
Qed.

(** [searchCode] throws, or returns the grouping of a page of items. *)
Lemma searchCode_group_results {host : Host} {network : Network}
    {json : Json (list GitLabSearchItem)}
    (args : GitLabSearchArgs) (config : GitLabConfig) :
  (exists e, searchCode args config = Throw e) \/
  (exists items,
      searchCode args config =
      Return (group_results (extractProjectPath (project args)) items)).
Proof.
  unfold searchCode.
  repeat match goal with
         | |- context [@mbind Outcome _ _ _ _ ?m] =>
             destruct m as [?|e];
             [cbn [mbind outcome_bind Js.bind] | left; by exists e]
         end.
  match goal with
  | |- context [ok ?response] => destruct (ok response)
  end; cbn [negb]; [right | left]; eauto.
Qed.

(** C7 (the claim as the specification states it fails): two matches that
    share a file path do not always give two chunks.  An item whose [data]
    is the empty string passes [if (item.data)] by the else branch, and
    adds no chunk. *)
Lemma group_results_empty_fragment :
  group_results (lit "p")
    [ {| path := lit "a"; data := [] |}; {| path := lit "a"; data := lit "x" |} ] =
  {| results := [ {| file := lit "/p/a"; chunks := [lit "x"] |} ];
     totalCount := 2 |}.
Proof. by vm_compute. Qed.

(** C7 (amended): [searchCode] groups the items of the page by their
    absolute file path, the files in the order of their first appearance
    and the chunks of a file in the order of its items; an item adds a
    chunk when its fragment is not the empty string, so that two matches
    with fragments that share a file path give one result with two chunks;
    a chunk is the fragment trimmed, and cut to its first 2048 code units
    with the marker appended when it is longer; [totalCount] is the number
    of items of the page. *)
Theorem searchCode_grouping (projectPath : jsstring) (items : list GitLabSearchItem) :
  let r := group_results projectPath items in
  results r =
    (fun f => {| file := f; chunks := chunks_for projectPath f items |}) <$>
    first_appearances (absPath projectPath <$> items) /\
  totalCount r = Z.of_nat (length items) /\
  (forall d,
      ((length (trim d) <= 2048)%nat -> fragment_of d = trim d) /\
      ((2048 < length (trim d))%nat ->
       fragment_of d = take 2048 (trim d) ++ lit "... (truncated)")) /\
  (forall p d1 d2,
      d1 <> [] -> d2 <> [] ->
      group_results projectPath
        [ {| path := p; data := d1 |}; {| path := p; data := d2 |} ] =
      {| results := [ {| file := lit "/" ++ projectPath ++ lit "/" ++ p;
                         chunks := [fragment_of d1; fragment_of d2] |} ];
         totalCount := 2 |}).
Proof.
  intros r. split_and!.
  - unfold r, group_results. destruct items as [|item items]; [done|].
    cbn [results]. rewrite foldl_group_item. unfold grouped.
    rewrite <- list_fmap_compose. by apply list_fmap_ext.
  - unfold r, group_results. by destruct items.
  - apply fragment_of_spec.
  - intros p d1 d2 H1 H2. unfold group_results. rewrite foldl_group_item.
    unfold grouped, chunks_for, absPath. cbn [fmap list_fmap first_appearances path].
    rewrite filter_nil.
    rewrite (filter_cons_False (fun y => y <> lit "/" ++ projectPath ++ lit "/" ++ p))
      by (intros Hn; by apply Hn).
    rewrite filter_nil. cbn [fmap list_fmap fst snd].
    rewrite !filter_cons_True by (simpl; done). by rewrite filter_nil.
Qed.

End SearchResults.

(** ** Selecting the files of a glob *)

Section GlobSelection.

Import Glob.

Context {host : Host}.

(** With a limit and an offset that are whole numbers nothing is rounded,
    and [slice] gets the offset and the sum as they are. *)
Lemma paginate_whole {A} (l : list A) (limit offset : Z) :
  safe (offset + limit) ->
  paginate l (whole limit) (whole offset) =
  if limit =? 0 then slice l offset None
  else slice l offset (Some (offset + limit)).
Proof.
  intros Hsafe. unfold paginate. rewrite number_truthy_whole.
  destruct (limit =? 0); cbn [negb].
  - apply slice_numbers_from_whole.
  - by rewrite Number_add_whole, slice_numbers_whole.
Qed.

Lemma paginate_nat {A} (l : list A) (limit offset : nat) :
  Z.of_nat offset + Z.of_nat limit < 2 ^ 53 ->
  paginate l (whole (Z.of_nat limit)) (whole (Z.of_nat offset)) =
  match limit with
  | O => drop offset l
  | S _ => take limit (drop offset l)
  end.
Proof.
  intros Hsafe. rewrite paginate_whole by (unfold safe; lia).
  destruct limit as [|limit].
  - change (Z.of_nat 0 =? 0) with true. cbn iota. apply slice_from_nat.
  - destruct (Z.eqb_spec (Z.of_nat (S limit)) 0) as [|_]; [lia|].
    rewrite <- Nat2Z.inj_add, slice_nat. f_equal. lia.
Qed.



(** Whatever the limit and the offset, [paginate] returns a run of
    consecutive elements of the array. *)
Lemma paginate_segment {A} (l : list A) (limit offset : number) :
  exists before after, l = before ++ paginate l limit offset ++ after.
Proof. unfold paginate. destruct (number_truthy limit); apply slice_numbers_segment. Qed.

Lemma select_files_matcher projectPath filePattern isMatch limit offset allFiles :
  picomatch filePattern = Return isMatch ->
  select_files projectPath filePattern limit offset allFiles =
  Return (rooted projectPath <$>
            paginate (filter (fun p => isMatch p) allFiles) limit offset).
Proof. intros Hmatcher. unfold select_files. by rewrite Hmatcher. Qed.

Lemma select_files_throws projectPath filePattern e limit offset allFiles :
  picomatch filePattern = Throw e ->
  select_files projectPath filePattern limit offset allFiles = Throw e.
Proof. intros Hthrows. unfold select_files. by rewrite Hthrows. Qed.

(** [globFiles] is the loop followed by [select_files], with the defaults
    100 and 0 for a limit and an offset that are not given. *)
Lemma globFiles_from_select fetchPage fuel args collected allFiles :
  collect_pages fetchPage fuel 1 [] [] = Some collected ->
  outcome collected = Return allFiles ->
  globFiles_from fetchPage fuel args =
  Some (select_files (extractProjectPath (project args)) (filePattern args)
          (default (whole 100) (limit args)) (default (whole 0) (offset args))
          allFiles).
Proof.
  intros Hc Ho. unfold globFiles_from. rewrite Hc. cbn [mbind option_bind].
  by rewrite Ho.
Qed.

(** C8 (amended): [globFiles] is the loop that collects the paths followed
    by [select_files].  There [picomatch] builds the matcher of the
    pattern first, and what it throws for a pattern it refuses is thrown.
    With the matcher built, it is applied to every collected path, the
    offset and the limit then cut the list of the matched paths, and every
    path that is left is returned behind [/projectPath/].  With a matcher
    that accepts [a/b.ts] and [b.ts] and not [a/b.js], these three files
    give the two that match; a limit of 1 at offset 1 returns the second
    match only, also when a path that does not match lies between the
    two. *)
Theorem globFiles_selection (projectPath filePattern : jsstring) :
  (forall fetchPage fuel args collected allFiles,
      collect_pages fetchPage fuel 1 [] [] = Some collected ->
      outcome collected = Return allFiles ->
      globFiles_from fetchPage fuel args =
      Some (select_files (extractProjectPath (Glob.project args))
              (Glob.filePattern args)
              (default (whole 100) (Glob.limit args))
              (default (whole 0) (Glob.offset args)) allFiles)) /\
  (forall e limit offset allFiles,
      picomatch filePattern = Throw e ->
      select_files projectPath filePattern limit offset allFiles = Throw e) /\
  (forall isMatch,
      picomatch filePattern = Return isMatch ->
      let matched allFiles := filter (fun p => isMatch p) allFiles in
      (forall allFiles (limit offset : nat),
          Z.of_nat offset + Z.of_nat limit < 2 ^ 53 ->
          select_files projectPath filePattern
            (whole (Z.of_nat limit)) (whole (Z.of_nat offset)) allFiles =
          Return (rooted projectPath <$>
                    match limit with
                    | O => drop offset (matched allFiles)
                    | S _ => take limit (drop offset (matched allFiles))
                    end)) /\
      (forall allFiles (limit offset : number),
          exists files before after,
            select_files projectPath filePattern limit offset allFiles = Return files /\
            rooted projectPath <$> matched allFiles = before ++ files ++ after) /\
      (forall allFiles (limit offset : number) files q,
          select_files projectPath filePattern limit offset allFiles = Return files ->
          q ∈ files ->
          exists p, q = lit "/" ++ projectPath ++ lit "/" ++ p /\
                    p ∈ allFiles /\ isMatch p = true) /\
      (isMatch (lit "a/b.ts") = true ->
       isMatch (lit "a/b.js") = false ->
       isMatch (lit "b.ts") = true ->
       select_files projectPath filePattern (whole 100) (whole 0)
         [lit "a/b.ts"; lit "a/b.js"; lit "b.ts"] =
       Return [lit "/" ++ projectPath ++ lit "/a/b.ts";
               lit "/" ++ projectPath ++ lit "/b.ts"]) /\
      (forall first second other,
          isMatch first = true ->
          isMatch second = true ->
          isMatch other = false ->
          select_files projectPath filePattern (whole 1) (whole 1) [first; second] =
          Return [lit "/" ++ projectPath ++ lit "/" ++ second] /\
          select_files projectPath filePattern (whole 1) (whole 1)
            [first; other; second] =
          Return [lit "/" ++ projectPath ++ lit "/" ++ second])).
Proof.
  split; [apply globFiles_from_select|].
  split; [intros e limit offset allFiles; apply select_files_throws|].
  intros isMatch Hmatcher matched. subst matched. cbv beta.
  pose proof (fun limit offset allFiles =>
                select_files_matcher projectPath filePattern isMatch limit offset
                  allFiles Hmatcher) as Hselect.
  split_and!.
  - intros allFiles limit offset Hsafe.
    by rewrite Hselect, paginate_nat; destruct limit.
  - intros allFiles limit offset. rewrite Hselect.
    destruct (paginate_segment (filter (fun p => isMatch p) allFiles)
                limit offset) as (b & a & Hseg).
    eexists _, (rooted projectPath <$> b), (rooted projectPath <$> a).
    split; [reflexivity|]. by rewrite <- !fmap_app, <- Hseg.
  - intros allFiles limit offset files q Hfiles Hq. rewrite Hselect in Hfiles.
    injection Hfiles as <-.
    apply list_elem_of_fmap in Hq as (p & -> & Hp).
    destruct (paginate_segment (filter (fun p => isMatch p) allFiles)
                limit offset) as (b & a & Hseg).
    assert (p ∈ filter (fun p => isMatch p) allFiles) as Hm
      by (rewrite Hseg, !elem_of_app; auto).
    apply list_elem_of_filter in Hm as [Hm Hin].
    exists p. split_and!; [done | done | by apply Is_true_true].
  - intros Hts Hjs Hts'. rewrite Hselect. f_equal.
    rewrite filter_cons_True by (by rewrite Hts).
    rewrite filter_cons_False by (rewrite Hjs; intros []).
    rewrite filter_cons_True by (by rewrite Hts').
    rewrite filter_nil. unfold rooted. by eval_literals.
  - intros first second other Hf Hs Ho. rewrite !Hselect. split; f_equal.
    + rewrite (filter_cons_True _ first) by (by rewrite Hf).
      rewrite (filter_cons_True _ second) by (by rewrite Hs).
      by rewrite filter_nil.
    + rewrite (filter_cons_True _ first) by (by rewrite Hf).
      rewrite (filter_cons_False _ other) by (rewrite Ho; intros []).
      rewrite (filter_cons_True _ second) by (by rewrite Hs).
      by rewrite filter_nil.
Qed.

End GlobSelection.

Section GlobLimit.

Import Glob.

Context {host : Host}.


End GlobLimit.

(** ** Listing a directory *)

Section DirectoryListing.

Import ListDirectory.

Context {host : Host}.

(** The comparison of the locale is taken to be a total preorder, as
    [sort] requires of a consistent comparison function. *)
Hypothesis localeCompare_total :
  forall a b, localeCompare a b <= 0 \/ localeCompare b a <= 0.
Hypothesis localeCompare_trans :
  forall a b c, localeCompare a b <= 0 -> localeCompare b c <= 0 ->
                localeCompare a c <= 0.

Lemma not_after_spec (a b : jsstring) :
  not_after a b <->
  (is_dir b = true -> is_dir a = true) /\
  (is_dir a = is_dir b -> localeCompare a b <= 0).
Proof.
  unfold not_after, compare_entries. fold (is_dir a) (is_dir b).
  destruct (is_dir a), (is_dir b); simpl; split; try done; try lia.
  all: intros [Hdir Hcmp]; auto.
Qed.

Lemma not_after_total (a b : jsstring) : not_after a b \/ not_after b a.
Proof.
  rewrite !not_after_spec.
  destruct (is_dir a) eqn:Ha, (is_dir b) eqn:Hb.
  - destruct (localeCompare_total a b); [left | right]; done.
  - left. done.
  - right. done.
  - destruct (localeCompare_total a b); [left | right]; done.
Qed.

Lemma not_after_trans (a b c : jsstring) :
  not_after a b -> not_after b c -> not_after a c.
Proof.
  rewrite !not_after_spec. intros [Hab Hab'] [Hbc Hbc'].
  destruct (is_dir a) eqn:Ha, (is_dir b) eqn:Hb, (is_dir c) eqn:Hc;
    try (split; (done || (intros; eauto))); auto; try (by specialize (Hab eq_refl));
    try (by specialize (Hbc eq_refl)).
Qed.

Lemma insert_sorted_perm {A} (cmp : A -> A -> Z) (x : A) (l : list A) :
  Permutation (insert_sorted cmp x l) (x :: l).
Proof.
  induction l as [|y l IH]; simpl; [done|].
  destruct (cmp x y <=? 0); [done|].
  rewrite IH. apply perm_swap.
Qed.

Lemma sort_perm {A} (cmp : A -> A -> Z) (l : list A) :
  Permutation (sort cmp l) l.
Proof.
  induction l as [|x l IH]; simpl; [done|].
  by rewrite insert_sorted_perm, IH.
Qed.

Lemma insert_sorted_sorted (x : jsstring) (l : list jsstring) :
  StronglySorted not_after l ->
  StronglySorted not_after (insert_sorted compare_entries x l).
Proof.
  induction 1 as [|y l Hl IH Hy]; simpl.
  - repeat constructor.
  - destruct (Z.leb_spec (compare_entries x y) 0) as [Hle|Hgt].
    + constructor; [by constructor|].
      constructor; [done|].
      eapply Forall_impl; [exact Hy|]. intros z Hz.
      by eapply not_after_trans.
    + constructor; [done|].
      rewrite (insert_sorted_perm compare_entries x l).
      constructor; [|done].
      destruct (not_after_total x y) as [Hxy|Hyx]; [|done].
      unfold not_after in Hxy. lia.
Qed.

Lemma sort_sorted (l : list jsstring) :
  StronglySorted not_after (sort compare_entries l).
Proof.
  induction l as [|x l IH]; simpl; [constructor|].
  by apply insert_sorted_sorted.
Qed.

Lemma StronglySorted_lookup {A} (R : A -> A -> Prop) (l : list A) :
  StronglySorted R l ->
  forall i j a b, (i < j)%nat -> l !! i = Some a -> l !! j = Some b -> R a b.
Proof.
  induction 1 as [|x l Hl IH Hx]; intros i j a b Hij Ha Hb; [done|].
  destruct j as [|j]; [lia|]. simpl in Hb.
  destruct i as [|i].
  - injection Ha as <-. eapply (proj1 (Forall_forall _ _) Hx).
    by eapply list_elem_of_lookup_2.
  - simpl in Ha. eapply (IH i j); [lia | done | done].
Qed.

(** C9: [listDirectory] gives a directory entry its trailing slash, and
    returns the entries in an order in which every directory stands before
    every file and, within the directories and within the files, the
    display names follow the comparison of the locale.  The entries
    [z.txt], [a] (a directory) and [m.txt] come out as [a/], [m.txt],
    [z.txt]. *)
Theorem listDirectory_sorted (items : list GitLabTreeItem) :
  let entries := list_entries items in
  (forall item,
      format_entry item =
      match type item with
      | tree => name item ++ lit "/"
      | blob => name item
      end) /\
  Permutation entries (format_entry <$> items) /\
  (forall i j a b,
      (i < j)%nat -> entries !! i = Some a -> entries !! j = Some b ->
      (is_dir b = true -> is_dir a = true) /\
      (is_dir a = is_dir b -> localeCompare a b <= 0)) /\
  ((forall item, item ∈ items -> type item = blob -> is_dir (name item) = false) ->
   forall item, item ∈ items ->
                (is_dir (format_entry item) = true <-> type item = tree)) /\
  (0 < localeCompare (lit "z.txt") (lit "m.txt") ->
   list_entries [ {| name := lit "z.txt"; type := blob |};
                  {| name := lit "a"; type := tree |};
                  {| name := lit "m.txt"; type := blob |} ] =
   [lit "a/"; lit "m.txt"; lit "z.txt"]).
Proof.
  intros entries. split_and!.
  - by intros [? []].
  - apply sort_perm.
  - intros i j a b Hij Ha Hb. apply not_after_spec.
    eapply StronglySorted_lookup; [apply sort_sorted | done..].
  - intros Hnames item Hin. unfold format_entry.
    destruct (type item) eqn:Ht.
    + rewrite (Hnames item Hin Ht). done.
    + split; [done|]. intros _. apply endsWith_app. eauto.
  - intros Hzm. unfold list_entries, sort. cbn [fmap list_fmap foldr format_entry name type].
    cbn [insert_sorted].
    assert (compare_entries (lit "a" ++ lit "/") (lit "m.txt") = -1) as -> by done.
    cbn [Z.leb Z.compare insert_sorted].
    assert (compare_entries (lit "z.txt") (lit "a" ++ lit "/") = 1) as -> by done.
    cbn [Z.leb Z.compare insert_sorted].
    assert (compare_entries (lit "z.txt") (lit "m.txt")
            = localeCompare (lit "z.txt") (lit "m.txt")) as -> by done.
    destruct (Z.leb_spec (localeCompare (lit "z.txt") (lit "m.txt")) 0); [lia|].
    done.
Qed.

End DirectoryListing.

(** ** Runs on the test host *)

Section Runs.

Import TestHost.

Lemma compare_units_total (a b : jsstring) :
  compare_units a b <= 0 \/ compare_units b a <= 0.
Proof.
  revert b. induction a as [|c a IH]; intros [|d b]; simpl; try lia.
  destruct (N.ltb_spec c d), (N.ltb_spec d c); try lia. apply IH.
Qed.

Lemma compare_units_trans (a b c : jsstring) :
  compare_units a b <= 0 -> compare_units b c <= 0 -> compare_units a c <= 0.
Proof.
  revert b c. induction a as [|x a IH]; intros [|y b] [|z c]; simpl; try lia.
  destruct (N.ltb_spec x y), (N.ltb_spec y x), (N.ltb_spec y z), (N.ltb_spec z y),
    (N.ltb_spec x z), (N.ltb_spec z x); try lia.
  apply IH.
Qed.

(** The glob of the specification accepts [a/b.ts] and [b.ts] for
    [**/*.ts], and refuses [a/b.js]. *)
Lemma glob_ts :
  Posix.glob (lit "**/*.ts") (lit "a/b.ts") = true /\
  Posix.glob (lit "**/*.ts") (lit "a/b.js") = false /\
  Posix.glob (lit "**/*.ts") (lit "b.ts") = true.
Proof. by vm_compute. Qed.


(** C8 (the claim as stated fails for the empty pattern): the pages are
    fetched, and [picomatch] then throws its [TypeError]; [globFiles]
    returns no path. *)
Lemma globFiles_empty_pattern :
  Glob.collect_pages (TestHost.serve [TestHost.blob_page 3]) 1 1 [] [] =
  Some {| Glob.requested := [1];
          Glob.outcome := Return [lit "f0"; lit "f1"; lit "f2"] |} /\
  Glob.globFiles_from (TestHost.serve [TestHost.blob_page 3]) 1
    {| Glob.project := lit "p"; Glob.filePattern := [];
       Glob.limit := None; Glob.offset := None |} =
  Some (Throw (ThrownError (lit "TypeError")
                 (lit "Expected pattern to be a non-empty string"))).
Proof. by vm_compute. Qed.


Lemma fetchFromGitLabAPI_data_witness :
  let r := {| ok := true; status := 200; statusText := lit "OK";
              text := Some ([34%N] ++ lit "hi" ++ [34%N]);
              data := Some (lit "hi") |} in
  fetchFromGitLabAPI (network := answers json_reply)
    (lit "projects") no_options gitlab = Return r /\
  (forall v, data r = Some v -> JSON_parse ([34%N] ++ lit "hi" ++ [34%N]) = Some v) /\
  text r = Some ([34%N] ++ lit "hi" ++ [34%N]).
Proof.
  intros r.
  assert (fetchFromGitLabAPI (network := answers json_reply)
            (lit "projects") no_options gitlab = Return r) as Hr by (by vm_compute).
  destruct (fetchFromGitLabAPI_data (network := answers json_reply)
              (lit "projects") no_options gitlab r Hr) as (init & _ & Hdata & Htext).
  split_and!; [exact Hr | | by eapply Htext].
  intros v Hv. apply Hdata in Hv as (_ & response & rawText & Ho & _ & _ & _ & Hparse).
  by injection Ho as <- <-.
Defined.


Lemma listDirectory_sorted_witness :
  ListDirectory.list_entries
    [ {| ListDirectory.name := lit "z.txt"; ListDirectory.type := ListDirectory.blob |};
      {| ListDirectory.name := lit "a"; ListDirectory.type := ListDirectory.tree |};
      {| ListDirectory.name := lit "m.txt"; ListDirectory.type := ListDirectory.blob |} ] =
  [lit "a/"; lit "m.txt"; lit "z.txt"].
Proof.
  destruct (listDirectory_sorted (host := TestHost.host)
              compare_units_total compare_units_trans [])
    as (_ & _ & _ & _ & Hexample).
  apply Hexample. by vm_compute.
Defined.

Lemma globFiles_selection_witness :
  Glob.select_files (lit "group/project") (lit "**/*.ts") (whole 100) (whole 0)
    [lit "a/b.ts"; lit "a/b.js"; lit "b.ts"] =
  Return [lit "/group/project/a/b.ts"; lit "/group/project/b.ts"] /\
  Glob.select_files (lit "group/project") (lit "**/*.ts") (whole 1) (whole 1)
    [lit "a/b.ts"; lit "a/b.js"; lit "b.ts"] =
  Return [lit "/group/project/b.ts"].
Proof.
  destruct (globFiles_selection (host := TestHost.host)
              (lit "group/project") (lit "**/*.ts")) as (_ & _ & Hmatcher).
  destruct (Hmatcher (Posix.glob (lit "**/*.ts")) eq_refl)
    as (_ & _ & _ & Hthree & Hsecond).
  split.
  - rewrite Hthree by (by vm_compute). by vm_compute.
  - destruct (Hsecond (lit "a/b.ts") (lit "b.ts") (lit "a/b.js")) as [_ ->];
      by vm_compute.
Defined.

End Runs.

(** * Further properties of the gateway and the tools *)

(** ** The request the gateway builds *)

Section Request.

Context {host : Host}.

Lemma Return_inj {A} (a b : A) : Return a = Return b -> a = b.
Proof. by intros [= ->]. Qed.

Lemma strip_leading_slash_cons (p : jsstring) :
  strip_leading_slash (lit "/" ++ p) = p.
Proof. done. Qed.

Lemma strip_leading_slash_none (p : jsstring) :
  startsWith p (lit "/") = false -> strip_leading_slash p = p.
Proof. unfold strip_leading_slash. by intros ->. Qed.

Lemma strip_trailing_slash_snoc (b : jsstring) :
  strip_trailing_slash (b ++ lit "/") = b.
Proof.
  unfold strip_trailing_slash.
  replace (endsWith (b ++ lit "/") (lit "/")) with true
    by (symmetry; apply endsWith_app; eauto).
  rewrite length_app. simpl length.
  replace (length b + 1 - 1)%nat with (length b) by lia.
  by rewrite take_app_length.
Qed.

Lemma strip_trailing_slash_none (b : jsstring) :
  endsWith b (lit "/") = false -> strip_trailing_slash b = b.
Proof. unfold strip_trailing_slash. by intros ->. Qed.

(** X1: the address of a call.  A path that begins with [http] is taken as
    the whole address; any other path is put behind the base address and
    [/api/v4/], where one slash at the end of the base address and one at
    the front of the path make no difference. *)
Theorem request_url_joins (base token : jsstring) :
  let config b := {| baseURL := b; token := token |} in
  (forall path, startsWith path (lit "http") = true ->
                request_url path (config base) = path) /\
  (forall path,
      startsWith path (lit "http") = false ->
      startsWith path (lit "/") = false ->
      endsWith base (lit "/") = false ->
      request_url path (config base) = base ++ lit "/api/v4/" ++ path /\
      request_url (lit "/" ++ path) (config base) = base ++ lit "/api/v4/" ++ path /\
      request_url path (config (base ++ lit "/")) = base ++ lit "/api/v4/" ++ path /\
      request_url (lit "/" ++ path) (config (base ++ lit "/"))
        = base ++ lit "/api/v4/" ++ path).
Proof.
  intros config. split.
  - intros path Hhttp. unfold request_url. by rewrite Hhttp.
  - intros path Hhttp Hslash Hbase.
    assert (startsWith (lit "/" ++ path) (lit "http") = false) as Hhttp' by done.
    unfold request_url, config. cbn [baseURL]. rewrite Hhttp, Hhttp'.
    rewrite strip_leading_slash_cons, (strip_leading_slash_none _ Hslash).
    rewrite strip_trailing_slash_snoc, (strip_trailing_slash_none _ Hbase).
    rewrite <- !app_assoc. done.
Qed.

(** X2: the credential header.  Every request the gateway builds carries a
    [PRIVATE-TOKEN] header; it holds the token of the configuration unless
    the caller passes a header of that name, which then takes its place;
    every other header of the caller is sent as given, but for a missing or
    empty [Content-Type] that a body replaces. *)
Theorem build_request_headers (options : FetchOptions) (config : GitLabConfig)
    (init : RequestInit) :
  build_request options config = Return init ->
  let caller : gmap jsstring jsstring := default ∅ (headers options) in
  is_Some (init_headers init !! lit "PRIVATE-TOKEN") /\
  (caller !! lit "PRIVATE-TOKEN" = None ->
   init_headers init !! lit "PRIVATE-TOKEN" = Some (token config)) /\
  (forall key value,
      caller !! key = Some value ->
      key <> lit "Content-Type" \/ value <> [] ->
      init_headers init !! key = Some value).
Proof.
  intros Hb caller.
  set (requestHeaders := caller ∪ {[ lit "PRIVATE-TOKEN" := token config ]}).
  assert (is_Some (requestHeaders !! lit "PRIVATE-TOKEN")) as Hsome.
  { unfold requestHeaders. rewrite lookup_union.
    rewrite lookup_singleton_eq. destruct (caller !! _); simpl; eauto. }
  assert (caller !! lit "PRIVATE-TOKEN" = None ->
          requestHeaders !! lit "PRIVATE-TOKEN" = Some (token config)) as Htoken.
  { intros Hnone. unfold requestHeaders.
    by rewrite lookup_union, Hnone, lookup_singleton_eq. }
  assert (forall key value, caller !! key = Some value ->
                            requestHeaders !! key = Some value) as Hkeep.
  { intros key value Hk. unfold requestHeaders. rewrite lookup_union, Hk.
    by destruct ({[ _ := _ ]} !! key). }
  assert (init_headers init = requestHeaders \/
          ((requestHeaders !! lit "Content-Type" = None \/
            requestHeaders !! lit "Content-Type" = Some []) /\
           init_headers init =
           <[ lit "Content-Type" := lit "application/json" ]> requestHeaders))
    as Hinit.
  { unfold build_request in Hb. fold caller in Hb. fold requestHeaders in Hb.
    destruct (body options) as [b|]; [|apply Return_inj in Hb as <-; by left].
    destruct (body_truthy b); [|apply Return_inj in Hb as <-; by left].
    destruct (JSON_stringify b) as [serialised|e]; [|done].
    apply Return_inj in Hb as <-. cbn [init_headers].
    destruct (requestHeaders !! lit "Content-Type") as [[|c v]|] eqn:Hct;
      [right | left | right]; auto. }
  destruct Hinit as [-> | [Hct ->]].
  - split_and!; [done | done | intros key value Hk _; by apply Hkeep].
  - split_and!.
    + rewrite lookup_insert_ne by done. done.
    + intros Hnone. rewrite lookup_insert_ne by done. by apply Htoken.
    + intros key value Hk Hor. apply Hkeep in Hk.
      destruct (decide (key = lit "Content-Type")) as [->|Hne].
      * destruct Hor as [|Hv]; [done|].
        destruct Hct as [Hct|Hct]; rewrite Hct in Hk; congruence.
      * by rewrite lookup_insert_ne.
Qed.

(** X3: the body of a request.  Without a body, or with a body that is
    falsy, nothing is sent and the headers are left alone; with a body,
    what [JSON.stringify] gives is sent, under the [Content-Type] of the
    caller when that is a string that is not empty and under
    [application/json] otherwise; and what [JSON.stringify] throws is
    thrown. *)
Theorem build_request_body (options : FetchOptions) (config : GitLabConfig) :
  let requestHeaders : gmap jsstring jsstring :=
    default ∅ (headers options) ∪ {[ lit "PRIVATE-TOKEN" := token config ]} in
  (body options = None \/ (exists b, body options = Some b /\ body_truthy b = false) ->
   exists init, build_request options config = Return init /\
                init_body init = None /\ init_headers init = requestHeaders) /\
  (forall b, body options = Some b -> body_truthy b = true ->
     (forall e, JSON_stringify b = Throw e -> build_request options config = Throw e) /\
     (forall serialised,
         JSON_stringify b = Return serialised ->
         exists init,
           build_request options config = Return init /\
           init_body init = serialised /\
           (forall c v, requestHeaders !! lit "Content-Type" = Some (c :: v) ->
                        init_headers init !! lit "Content-Type" = Some (c :: v)) /\
           (requestHeaders !! lit "Content-Type" = None \/
            requestHeaders !! lit "Content-Type" = Some [] ->
            init_headers init !! lit "Content-Type" = Some (lit "application/json")))).
Proof.
  intros requestHeaders. split.
  - intros [Hb | (b & Hb & Hfalsy)]; unfold build_request; rewrite Hb.
    + eauto.
    + rewrite Hfalsy. eauto.
  - intros b Hb Htruthy. unfold build_request. rewrite Hb, Htruthy.
    fold requestHeaders. split.
    + by intros e ->.
    + intros serialised ->. eexists. split; [done|]. cbn [init_body init_headers].
      split_and!; [done | |].
      * intros c v Hct. by rewrite Hct.
      * intros [Hct | Hct]; rewrite Hct; by rewrite lookup_insert_eq.
Qed.

End Request.

(** ** Project and file references *)

Section References.

Import Read.

Lemma git_suffix_behind_slash (front p : jsstring) :
  endsWith p (lit ".git") = false ->
  endsWith (front ++ lit "/" ++ p) (lit ".git") = false.
Proof.
  unfold endsWith. rewrite !rev_app_distr. eval_literals. cbn [rev app].
  intros Hp. rewrite <- app_assoc. cbn [app].
  destruct (rev p) as [|a [|b [|c [|d r]]]]; cbn [app startsWith] in *.
  - done.
  - by rewrite andb_false_r.
  - by rewrite !andb_false_r.
  - by rewrite !andb_false_r.
  - done.
Qed.

(** X4: the address of a repository names its project.  For a scheme
    [http] or [https], a host that is not empty and holds no slash, and any
    path [p], [extractProjectPath] turns [scheme://host/p.git] into [p],
    and [scheme://host/p] into [p] as well when [p] does not end in
    [.git]. *)
Theorem extractProjectPath_of_url (scheme host p : jsstring) :
  scheme = lit "http" \/ scheme = lit "https" ->
  host <> [] -> slash ∉ host ->
  extractProjectPath (scheme ++ lit "://" ++ host ++ lit "/" ++ p ++ lit ".git") = p /\
  (endsWith p (lit ".git") = false ->
   extractProjectPath (scheme ++ lit "://" ++ host ++ lit "/" ++ p) = p).
Proof.
  intros Hscheme Hhost Hslash.
  assert (forall q, strip_scheme_and_host
                      (scheme ++ lit "://" ++ host ++ lit "/" ++ q) = q) as Hurl.
  { intros q. unfold strip_scheme_and_host.
    rewrite (proj2 (after_scheme_and_host_Some _ q)); [done|].
    by exists scheme, host. }
  unfold extractProjectPath. split.
  - replace (scheme ++ lit "://" ++ host ++ lit "/" ++ p ++ lit ".git")
      with ((scheme ++ lit "://" ++ host ++ lit "/" ++ p) ++ lit ".git")
      by (by rewrite <- !app_assoc).
    by rewrite strip_git_suffix_app.
  - intros Hp. unfold strip_git_suffix.
    replace (scheme ++ lit "://" ++ host ++ lit "/" ++ p)
      with ((scheme ++ lit "://" ++ host) ++ lit "/" ++ p) at 1
      by (by rewrite <- !app_assoc).
    by rewrite git_suffix_behind_slash.
Qed.

Lemma startsWith_app_self (pre rest : jsstring) : startsWith (pre ++ rest) pre = true.
Proof. apply startsWith_app. eauto. Qed.

Lemma slice_drop_prefix (pre rest : jsstring) :
  slice (pre ++ rest) (Z.of_nat (length pre)) None = rest.
Proof. by rewrite slice_from_nat, drop_app_length. Qed.

(** X5: the path of a file within its project.  [readFile] drops the
    marker [file://], then the text [/projectPath] at the front, then one
    leading slash: [file:///projectPath/rel] and [/projectPath/rel] both
    give [rel]; the project prefix is compared as text, so that whatever
    follows [/projectPath] is kept, less one leading slash; and a path
    that starts with neither a slash nor the marker is left as it is. *)
Theorem relative_path_strips (projectPath : jsstring) :
  (forall rel,
      relative_path (lit "file://" ++ lit "/" ++ projectPath ++ lit "/" ++ rel)
        projectPath = rel) /\
  (forall rest,
      relative_path (lit "/" ++ projectPath ++ rest) projectPath
      = strip_leading_slash rest) /\
  (forall p,
      startsWith p (lit "/") = false -> startsWith p (lit "file://") = false ->
      relative_path p projectPath = p).
Proof.
  assert (forall rest,
            relative_path (lit "/" ++ projectPath ++ rest) projectPath
            = strip_leading_slash rest) as Hproject.
  { intros rest. unfold relative_path.
    assert (startsWith (lit "/" ++ projectPath ++ rest) (lit "file://") = false)
      as -> by done.
    replace (lit "/" ++ projectPath ++ rest)
      with ((lit "/" ++ projectPath) ++ rest) by (by rewrite <- app_assoc).
    rewrite startsWith_app_self, slice_drop_prefix.
    unfold strip_leading_slash. destruct (startsWith rest (lit "/")); [|done].
    change 1 with (Z.of_nat 1). by rewrite slice_from_nat. }
  split_and!.
  - intros rel. unfold relative_path at 1.
    rewrite startsWith_app_self.
    change 7 with (Z.of_nat (length (lit "file://"))).
    rewrite slice_drop_prefix.
    specialize (Hproject (lit "/" ++ rel)). unfold relative_path in Hproject.
    assert (startsWith (lit "/" ++ projectPath ++ lit "/" ++ rel) (lit "file://")
            = false) as Hfile by done.
    rewrite Hfile in Hproject. cbv zeta in Hproject. rewrite Hproject. done.
  - done.
  - intros p Hslash Hfile. unfold relative_path. rewrite Hfile.
    assert (startsWith p (lit "/" ++ projectPath) = false) as ->.
    { destruct p as [|c p]; [done|]. simpl in Hslash |- *.
      rewrite andb_true_r in Hslash. by rewrite Hslash. }
    by rewrite Hslash.
Qed.

End References.

(** ** Lines, ranges and sizes of a file *)

Section ReadLines.

Import Read.

Lemma split_cons_inv (s : jsstring) : exists h t, split 10 s = h :: t.
Proof.
  induction s as [|c s (h & t & IH)]; simpl; [eauto|].
  destruct (c =? 10)%N; [eauto|]. rewrite IH. eauto.
Qed.

(** Joining the lines gives the content back. *)
Lemma join_split (s : jsstring) : join newline (split 10 s) = s.
Proof.
  induction s as [|c s IH]; [done|]. simpl.
  destruct (split_cons_inv s) as (h & t & Hs). rewrite Hs in *.
  destruct (N.eqb_spec c 10) as [->|_].
  - change (join newline ([] :: h :: t)) with (newline ++ join newline (h :: t)).
    by rewrite IH.
  - rewrite <- IH. by destruct t.
Qed.

Lemma byteLength_ascii (s : jsstring) :
  Forall (fun c => (c < 128)%N) s -> byteLength s = Z.of_nat (length s).
Proof.
  induction 1 as [|c s Hc _ IH]; [done|]. cbn [byteLength length].
  destruct (N.ltb_spec c 128); lia.
Qed.

Lemma byteLength_lower : forall n (s : jsstring),
  (length s <= n)%nat -> Z.of_nat (length s) <= byteLength s.
Proof.
  induction n as [|n IH]; intros [|c s] Hn; simpl in *; try lia.
  pose proof (IH s ltac:(lia)).
  destruct (c <? 128)%N; [lia|]. destruct (c <? 2048)%N; [lia|].
  destruct (is_high_surrogate c); [|lia].
  destruct s as [|d s]; [simpl; lia|].
  destruct (is_low_surrogate d); [|lia].
  pose proof (IH s ltac:(simpl in *; lia)). simpl length in *. lia.
Qed.

Lemma read_content_whole (content : jsstring) :
  read_content content None =
  if 131072 <? byteLength content
  then throw_Error (too_large_message (byteLength content)
                      (length (split 10 content)))
  else Return (join newline (imap (numbered (whole 1)) (split 10 content))).
Proof.
  unfold read_content. rewrite selected_lines_whole, join_split. done.
Qed.

(** X6: a file read without a range.  The lines of a file, joined by
    newlines, are the file again, and a file has at least one line; so
    with no range the size that is held against the cap is the byte size
    of the whole content, and the file is returned when that is at most
    131072 and refused when it is more. *)
Theorem read_whole_file (content : jsstring) :
  join newline (split 10 content) = content /\
  (1 <= length (split 10 content))%nat /\
  join newline (selected_lines (split 10 content) None) = content /\
  (byteLength content <= 131072 ->
   read_content content None =
   Return (join newline (imap (numbered (whole 1)) (split 10 content)))) /\
  (131072 < byteLength content ->
   exists message, read_content content None = throw_Error message).
Proof.
  split_and!.
  - apply join_split.
  - destruct (split_cons_inv content) as (h & t & ->). simpl. lia.
  - by rewrite selected_lines_whole, join_split.
  - intros Hsize. rewrite read_content_whole.
    by destruct (Z.ltb_spec 131072 (byteLength content)); [lia|].
  - intros Hsize. rewrite read_content_whole.
    destruct (Z.ltb_spec 131072 (byteLength content)); [eauto | lia].
Qed.

(** A range of numbers with a fraction is cut by [slice], not by the
    bounds: the range from 1.5 to 1.25 ends before its start, and gives
    the first line, under the number 1.5. *)
Lemma read_content_fraction_range :
  read_content five_lines (Some (Finite (3 # 2), Finite (5 # 4))) =
  Return (lit "1.5: a").
Proof. by vm_compute. Qed.

(** X7: a range of whole numbers that selects nothing.  When the range
    ends at a line number that is not negative, and it ends before line 1,
    before its own start, or starts behind the last line, [readFile]
    returns the empty text and no error. *)
Theorem read_content_empty_range (content : jsstring) (first last : Z) :
  safe first -> 0 <= last ->
  last < 1 \/ last < first \/ Z.of_nat (length (split 10 content)) < first ->
  read_content content (Some (whole first, whole last)) = Return [].
Proof.
  intros Hsafe Hlast Hrange. unfold read_content.
  rewrite selected_lines_clamped by done.
  set (n := Z.of_nat (length (split 10 content))) in *.
  assert (drop (Z.to_nat (Z.max 1 first - 1)) (split 10 content) = [] \/
          Z.to_nat (Z.min n last - (Z.max 1 first - 1)) = 0%nat) as [-> | ->].
  { destruct (decide (n < first)) as [Hn|Hn].
    - left. apply drop_ge. lia.
    - right. lia. }
  - by rewrite take_nil.
  - by rewrite take_0.
Qed.

(** X8: the cap on a file of ASCII text, and on any file.  A file that is
    read whole and holds only code units below 128 is refused exactly when
    it is longer than 131072 code units; and a file of more than 131072
    code units is refused, whatever it holds. *)
Theorem read_content_cap_by_length (content : jsstring) :
  (Forall (fun c => (c < 128)%N) content ->
   ((exists message, read_content content None = throw_Error message) <->
    131072 < Z.of_nat (length content))) /\
  (131072 < Z.of_nat (length content) ->
   exists message, read_content content None = throw_Error message).
Proof.
  split.
  - intros Hascii. rewrite read_content_whole, (byteLength_ascii _ Hascii).
    destruct (Z.ltb_spec 131072 (Z.of_nat (length content))).
    + split; [done | eauto].
    + split; [by intros [? ?] | lia].
  - intros Hlen. rewrite read_content_whole.
    pose proof (byteLength_lower (length content) content ltac:(done)).
    destruct (Z.ltb_spec 131072 (byteLength content)); [eauto | lia].
Qed.

(** X9: the lines of a range of whole numbers within the file.  For
    [1 <= first <= last <= n] on a file of [n] lines, with [last] below
    [2 ^ 53], and a selection within the cap, [readFile] returns
    [last - first + 1] lines, and the line at place [k] of the result is
    the line [first + k] of the file behind its number and a colon. *)
Theorem read_content_numbers_lines (content : jsstring) (first last : Z) :
  1 <= first -> first <= last -> last < 2 ^ 53 ->
  last <= Z.of_nat (length (split 10 content)) ->
  byteLength (join newline
                (selected_lines (split 10 content) (Some (whole first, whole last))))
    <= 131072 ->
  exists out,
    read_content content (Some (whole first, whole last)) =
    Return (join newline out) /\
    Z.of_nat (length out) = last - first + 1 /\
    forall k, (k < length out)%nat ->
      exists line,
        split 10 content !! (Z.to_nat first - 1 + k)%nat = Some line /\
        out !! k = Some (number_toString (first + Z.of_nat k) ++ lit ": " ++ line).
Proof.
  intros Hfirst Horder Hsafe Hlast Hsize.
  set (lines := split 10 content) in *.
  set (range := Some (whole first, whole last)) in *.
  assert (selected_lines lines range =
          take (Z.to_nat (last - first + 1)) (drop (Z.to_nat first - 1) lines))
    as Hsel.
  { unfold range. rewrite selected_lines_clamped by (unfold safe; lia).
    f_equal; [lia|]. f_equal. lia. }
  assert (Z.of_nat (length (selected_lines lines range)) = last - first + 1) as Hlen
    by (rewrite Hsel, length_take, length_drop; lia).
  exists (imap (numbered (whole first)) (selected_lines lines range)).
  split_and!.
  - unfold read_content. fold lines. unfold size_cap.
    destruct (Z.ltb_spec (128 * 1024)
                (byteLength (join newline (selected_lines lines range))));
      [lia|].
    unfold range, line_bounds. cbn [fst].
    by rewrite Math_max_whole, Z.max_r by lia.
  - by rewrite length_imap.
  - intros k Hk. rewrite length_imap in Hk.
    destruct (lookup_lt_is_Some_2 _ _ Hk) as [line Hline].
    exists line. split.
    + rewrite Hsel in Hline. apply lookup_take_Some in Hline as [Hline _].
      by rewrite lookup_drop in Hline.
    + rewrite list_lookup_imap, Hline. cbn [fmap option_fmap option_map].
      unfold numbered.
      by rewrite Number_add_whole, Number_toString_whole by (unfold safe; lia).
Qed.

End ReadLines.

(** ** How the tools pass on what the gateway reports *)

Section ToolsOnGateway.

Context {host : Host} {network : Network}.
Context {json_read : Json jsstring}
        {json_search : Json (list Search.GitLabSearchItem)}
        {json_projects : Json (list ListProjects.GitLabProject)}
        {json_dir : Json (list ListDirectory.GitLabTreeItem)}.

Ltac encoding_case s :=
  let e := fresh "e" in
  destruct (encodeURIComponent s) as [?|e] eqn:?;
  [cbn [mbind outcome_bind Js.bind]
  | left; exists e; split; [done | by exists s]].

Lemma readFile_one_call args config :
  one_call config (Read.readFile args config) (read_continue args).
Proof.
  unfold one_call, Read.readFile.
  encoding_case (extractProjectPath (Read.project args)).
  encoding_case (Read.relative_path (Read.path args)
                   (extractProjectPath (Read.project args))).
  right. eexists. reflexivity.
Qed.

Lemma searchCode_one_call args config :
  one_call config (Search.searchCode args config) (search_continue args).
Proof.
  unfold one_call, Search.searchCode.
  encoding_case (extractProjectPath (Search.project args)).
  encoding_case (Search.query args).
  destruct (Search.filter_path args) as [p|]; [|right; eexists; reflexivity].
  destruct (nonempty p && negb (str_eqb p (lit "."))); [|right; eexists; reflexivity].
  encoding_case p. right. eexists. reflexivity.
Qed.

Lemma listProjects_one_call args config :
  one_call config (ListProjects.listProjects args config) projects_continue.
Proof.
  unfold one_call, ListProjects.listProjects, ListProjects.projects_path.
  destruct (ListProjects.search args) as [[|c q]|];
    [right; eexists; reflexivity | | right; eexists; reflexivity].
  encoding_case (c :: q). right. eexists. reflexivity.
Qed.

Lemma listDirectory_one_call args config :
  one_call config (ListDirectory.listDirectory args config) directory_continue.
Proof.
  unfold one_call, ListDirectory.listDirectory.
  encoding_case (extractProjectPath (ListDirectory.project args)).
  match goal with
  | |- context [if ?b then _ else _] =>
      destruct b; [|right; eexists; reflexivity]
  end.
  encoding_case (default [] (ListDirectory.dir_path args)).
  right. eexists. reflexivity.
Qed.

(** The request every tool sends: no body, so it is always built. *)
Lemma gateway_no_options {T} {json : Json T} path config :
  exists init,
    fetchFromGitLabAPI (T := T) path no_options config =
    send (request_url path config) init.
Proof.
  destruct (build_request_without_body no_options config eq_refl) as [init Hinit].
  exists init. by apply fetchFromGitLabAPI_send.
Qed.

Section Down.

Variables (name message : jsstring).
Hypothesis down : forall url init, transport_throws (fetch url init) (ThrownError name message).
Hypothesis no_abort : name <> lit "AbortError".

Lemma gateway_down {T} {json : Json T} path config :
  fetchFromGitLabAPI (T := T) path no_options config = Return (failure_result message).
Proof.
  destruct (gateway_no_options (T := T) path config) as [init ->].
  unfold send.
  assert (is_AbortError (ThrownError name message) = false) as Hna.
  { simpl. unfold str_eqb. by apply bool_decide_eq_false_2. }
  destruct (down (request_url path config) init) as [-> | [response ->]];
    unfold on_fetch_error; by rewrite Hna.
Qed.

(** X10: a network failure in a tool.  When every call of [fetch] fails with
    an [Error] that is no abort, [readFile], [searchCode], [listProjects]
    and [listDirectory] return nothing: each throws, either what
    [encodeURIComponent] threw before the call, or an [Error] whose message
    names the operation, the status 0, and the message of the failure
    ([Unknown error] when that is empty). *)
Theorem tools_report_network_failure config
    (read : Read.GitLabReadArgs) (search : Search.GitLabSearchArgs)
    (projects : ListProjects.GitLabListProjectsArgs)
    (directory : ListDirectory.GitLabListDirectoryArgs) :
  (exists e, Read.readFile read config = Throw e /\
     (encoding_throws e \/
      e = ThrownError (lit "Error") (lit "Failed to read file: 0 " ++ shown message))) /\
  (exists e, Search.searchCode search config = Throw e /\
     (encoding_throws e \/
      e = ThrownError (lit "Error") (lit "Failed to search code: 0 " ++ shown message))) /\
  (exists e, ListProjects.listProjects projects config = Throw e /\
     (encoding_throws e \/
      e = ThrownError (lit "Error") (lit "Failed to list projects: 0 " ++ shown message))) /\
  (exists e, ListDirectory.listDirectory directory config = Throw e /\
     (encoding_throws e \/
      e = ThrownError (lit "Error") (lit "Failed to list directory: 0 " ++ shown message))).
Proof.
  split_and!.
  - destruct (readFile_one_call read config) as [(e & -> & He) | (apiPath & ->)];
      [eauto|]. rewrite gateway_down. eexists. split; [reflexivity | by right].
  - destruct (searchCode_one_call search config) as [(e & -> & He) | (apiPath & ->)];
      [eauto|]. rewrite gateway_down. eexists. split; [reflexivity | by right].
  - destruct (listProjects_one_call projects config) as [(e & -> & He) | (apiPath & ->)];
      [eauto|]. rewrite gateway_down. eexists. split; [reflexivity | by right].
  - destruct (listDirectory_one_call directory config)
      as [(e & -> & He) | (apiPath & ->)];
      [eauto|]. rewrite gateway_down. eexists. split; [reflexivity | by right].
Qed.

End Down.

Section Aborted.

Variable e : Thrown.
Hypothesis aborted : forall url init, transport_throws (fetch url init) e.
Hypothesis is_abort : is_AbortError e = true.

Lemma gateway_aborted {T} {json : Json T} path config :
  fetchFromGitLabAPI (T := T) path no_options config = Throw e.
Proof.
  destruct (gateway_no_options (T := T) path config) as [init ->].
  unfold send.
  destruct (aborted (request_url path config) init) as [-> | [response ->]];
    unfold on_fetch_error; by rewrite is_abort.
Qed.

(** X11: an abort in a tool.  When every call of [fetch] is aborted (it
    throws an [Error] named [AbortError]), [readFile], [searchCode],
    [listProjects] and [listDirectory] throw that very value, with no
    message of their own around it, unless [encodeURIComponent] threw
    before the call. *)
Theorem tools_pass_abort_on config
    (read : Read.GitLabReadArgs) (search : Search.GitLabSearchArgs)
    (projects : ListProjects.GitLabListProjectsArgs)
    (directory : ListDirectory.GitLabListDirectoryArgs) :
  (exists e', Read.readFile read config = Throw e' /\
              (encoding_throws e' \/ e' = e)) /\
  (exists e', Search.searchCode search config = Throw e' /\
              (encoding_throws e' \/ e' = e)) /\
  (exists e', ListProjects.listProjects projects config = Throw e' /\
              (encoding_throws e' \/ e' = e)) /\
  (exists e', ListDirectory.listDirectory directory config = Throw e' /\
              (encoding_throws e' \/ e' = e)).
Proof.
  split_and!.
  - destruct (readFile_one_call read config) as [(e' & -> & He) | (apiPath & ->)];
      [eauto|]. rewrite gateway_aborted. eauto.
  - destruct (searchCode_one_call search config) as [(e' & -> & He) | (apiPath & ->)];
      [eauto|]. rewrite gateway_aborted. eauto.
  - destruct (listProjects_one_call projects config)
      as [(e' & -> & He) | (apiPath & ->)];
      [eauto|]. rewrite gateway_aborted. eauto.
  - destruct (listDirectory_one_call directory config)
      as [(e' & -> & He) | (apiPath & ->)];
      [eauto|]. rewrite gateway_aborted. eauto.
Qed.

End Aborted.

Section NoPayload.

Variables (response : Response) (body_text : jsstring).
Hypothesis answered :
  forall url init, fetch url init = FetchResolves response (Return body_text).
Hypothesis success : 200 <= response_status response <= 299.
Hypothesis not_json : isJson (response_contentType response) = false.

Lemma gateway_no_payload {T} {json : Json T} path config :
  fetchFromGitLabAPI (T := T) path no_options config = Return (plain_result response body_text).
Proof.
  destruct (gateway_no_options (T := T) path config) as [init ->].
  unfold send. rewrite answered.
  rewrite (proj2 (response_ok_range response) success), not_json. done.
Qed.

(** X12: a successful response that carries no JSON.  When the remote
    answers with a status in 200..299 and a content type that is not JSON,
    the tools differ: [searchCode] returns no results and a count of 0,
    [readFile] goes on with the body text, and [listProjects] and
    [listDirectory] throw an [Error] with the status and the status text of
    the successful response. *)
Theorem tools_on_success_without_json config
    (read : Read.GitLabReadArgs) (search : Search.GitLabSearchArgs)
    (projects : ListProjects.GitLabListProjectsArgs)
    (directory : ListDirectory.GitLabListDirectoryArgs) :
  ((exists e, Search.searchCode search config = Throw e /\ encoding_throws e) \/
   Search.searchCode search config =
   Return {| Search.results := []; Search.totalCount := 0 |}) /\
  ((exists e, Read.readFile read config = Throw e /\ encoding_throws e) \/
   Read.readFile read config =
   Js.bind (Read.read_content body_text (Read.read_range read))
     (fun numberedLines =>
        Return {| Read.absolutePath :=
                    lit "/" ++ extractProjectPath (Read.project read) ++ lit "/" ++
                    Read.relative_path (Read.path read)
                      (extractProjectPath (Read.project read));
                  Read.content := numberedLines |})) /\
  (exists e, ListProjects.listProjects projects config = Throw e /\
     (encoding_throws e \/
      e = ThrownError (lit "Error")
            (lit "Failed to list projects: " ++ status_line (plain_result (T := unit) response body_text)))) /\
  (exists e, ListDirectory.listDirectory directory config = Throw e /\
     (encoding_throws e \/
      e = ThrownError (lit "Error")
            (lit "Failed to list directory: " ++ status_line (plain_result (T := unit) response body_text)))).
Proof.
  split_and!.
  - destruct (searchCode_one_call search config) as [(e & -> & He) | (apiPath & ->)];
      [eauto|]. rewrite gateway_no_payload. by right.
  - destruct (readFile_one_call read config) as [(e & -> & He) | (apiPath & ->)];
      [eauto|]. rewrite gateway_no_payload. by right.
  - destruct (listProjects_one_call projects config) as [(e & -> & He) | (apiPath & ->)];
      [eauto|]. rewrite gateway_no_payload. eexists. split; [reflexivity | by right].
  - destruct (listDirectory_one_call directory config)
      as [(e & -> & He) | (apiPath & ->)];
      [eauto|]. rewrite gateway_no_payload. eexists. split; [reflexivity | by right].
Qed.

End NoPayload.

End ToolsOnGateway.

(** ** The pages of a glob, whatever the remote serves *)

Section PagesInGeneral.

Import Glob.

Context {host : Host}.

Variable fetchPage : Z -> Outcome (GitLabResponse (list GitLabTreeItem)).

Lemma payload_Some (r : GitLabResponse (list GitLabTreeItem)) items :
  (if ok r then data r else None) = Some items <-> ok r = true /\ data r = Some items.
Proof. destruct (ok r); split; (done || by intros [? ?]). Qed.

Lemma payload_None_items page (r : GitLabResponse (list GitLabTreeItem)) :
  fetchPage page = Return r ->
  (if ok r then data r else None) = None ->
  page_items fetchPage page = [].
Proof.
  intros Hr Hnone. unfold page_items. rewrite Hr.
  destruct (ok r); [by rewrite Hnone | done].
Qed.

Lemma collect_pages_inv (fuel : nat) : forall page allFiles seen c,
  collect_pages fetchPage fuel page allFiles seen = Some c ->
  exists k,
    (k < fuel)%nat /\
    requested c = seen ++ pages_from page (S k) /\
    (forall i, (i < k)%nat -> page_full fetchPage (page + Z.of_nat i)) /\
    ~ page_full fetchPage (page + Z.of_nat k) /\
    (forall files, outcome c = Return files ->
                   files = allFiles ++ files_of fetchPage (pages_from page (S k))).
Proof.
  induction fuel as [|fuel IH]; intros page allFiles seen c; [done|].
  cbn [collect_pages].
  destruct (fetchPage page) as [r|e] eqn:Hr.
  - destruct (if ok r then data r else None) as [items|] eqn:Hpay.
    + apply payload_Some in Hpay as [Hok Hdata].
      assert (page_items fetchPage page = items) as Hitems
        by (unfold page_items; by rewrite Hr, Hok, Hdata).
      destruct (Nat.eqb_spec (length items) 100) as [Hlen|Hlen].
      * intros Hc. apply IH in Hc as (k & Hk & Hreq & Hfull & Hlast & Hfiles).
        exists (S k). split_and!.
        -- lia.
        -- rewrite Hreq, (pages_from_S page (S k)), <- app_assoc. done.
        -- intros [|i] Hi.
           ++ rewrite Z.add_0_r. exists items. split; [by exists r | done].
           ++ replace (page + Z.of_nat (S i)) with (page + 1 + Z.of_nat i) by lia.
              apply Hfull. lia.
        -- by replace (page + Z.of_nat (S k)) with (page + 1 + Z.of_nat k) by lia.
        -- intros files Ho. rewrite (Hfiles files Ho).
           rewrite (pages_from_S page (S k)), files_of_cons, Hitems, <- app_assoc.
           done.
      * intros [= <-]. exists 0%nat. cbn [requested outcome]. split_and!.
        -- lia.
        -- by rewrite pages_from_S.
        -- intros i Hi. lia.
        -- rewrite Z.add_0_r. intros (items' & (r' & Hr' & _ & Hd') & Hlen').
           congruence.
        -- intros files [= <-]. rewrite pages_from_S, files_of_cons, Hitems.
           by rewrite app_nil_r.
    + intros [= <-]. exists 0%nat. cbn [requested outcome]. split_and!.
      * lia.
      * by rewrite pages_from_S.
      * intros i Hi. lia.
      * rewrite Z.add_0_r. intros (items' & (r' & Hr' & Hok' & Hd') & _).
        assert (r' = r) as -> by congruence.
        by rewrite Hok', Hd' in Hpay.
      * intros files Ho. rewrite pages_from_S, files_of_cons.
        rewrite (payload_None_items page r Hr Hpay). cbn [blob_paths].
        destruct (page =? 1); [done|]. injection Ho as <-.
        by rewrite !app_nil_r.
  - intros [= <-]. exists 0%nat. cbn [requested outcome]. split_and!.
    + lia.
    + by rewrite pages_from_S.
    + intros i Hi. lia.
    + rewrite Z.add_0_r. intros (items' & (r' & Hr' & _) & _). congruence.
    + done.
Qed.

Lemma collect_pages_None (fuel : nat) : forall page allFiles seen,
  collect_pages fetchPage fuel page allFiles seen = None ->
  forall i, (i < fuel)%nat -> page_full fetchPage (page + Z.of_nat i).
Proof.
  induction fuel as [|fuel IH]; intros page allFiles seen Hc i Hi; [lia|].
  cbn [collect_pages] in Hc.
  destruct (fetchPage page) as [r|e] eqn:Hr; [|done].
  destruct (if ok r then data r else None) as [items|] eqn:Hpay; [|done].
  apply payload_Some in Hpay as [Hok Hdata].
  destruct (Nat.eqb_spec (length items) 100) as [Hlen|Hlen]; [|done].
  destruct i as [|i].
  - rewrite Z.add_0_r. exists items. split; [by exists r | done].
  - replace (page + Z.of_nat (S i)) with (page + 1 + Z.of_nat i) by lia.
    eapply IH; [done | lia].
Qed.

(** X13: the pages [globFiles] asks for.  Whatever the remote serves, when
    the loop ends it has asked for the pages 1, 2, ..., [k], each once and
    in this order; the pages before [k] held one hundred items each and
    page [k] did not; and the files it hands on are the file entries of
    the pages it asked for, in that order, with no directory among them and
    nothing from a page that failed. *)
Theorem collect_pages_sequential (fuel : nat) (c : Collected) :
  collect_pages fetchPage fuel 1 [] [] = Some c ->
  exists k,
    (1 <= k <= fuel)%nat /\
    requested c = pages_from 1 k /\
    (forall i, 1 <= i < Z.of_nat k -> page_full fetchPage i) /\
    ~ page_full fetchPage (Z.of_nat k) /\
    (forall files, outcome c = Return files ->
       files = files_of fetchPage (pages_from 1 k) /\
       forall p, p ∈ files ->
         exists page item, page ∈ pages_from 1 k /\
                           item ∈ page_items fetchPage page /\
                           type item = blob /\ p = path item).
Proof.
  intros Hc. apply collect_pages_inv in Hc as (k & Hk & Hreq & Hfull & Hlast & Hfiles).
  exists (S k). split_and!.
  - lia.
  - lia.
  - done.
  - intros i Hi. replace i with (1 + Z.of_nat (Z.to_nat (i - 1))) by lia.
    apply Hfull. lia.
  - by replace (Z.of_nat (S k)) with (1 + Z.of_nat k) by lia.
  - intros files Ho. specialize (Hfiles files Ho). rewrite app_nil_l in Hfiles.
    split; [done|]. intros p Hp. rewrite Hfiles in Hp.
    unfold files_of in Hp. apply list_elem_of_bind in Hp as (page & Hp & Hpage).
    unfold blob_paths in Hp. apply list_elem_of_fmap in Hp as (item & -> & Hitem).
    apply list_elem_of_filter in Hitem as [Hblob Hitem].
    exists page, item. split_and!; [done.. | | done].
    unfold is_blob in Hblob. by destruct (type item).
Qed.

(** X14: when the loop of [globFiles] ends.  Within a bound of [fuel]
    iterations the loop does not end exactly when each of the pages 1 to
    [fuel] is served with one hundred items: any other page (a shorter or
    longer one, a failed call, a thrown value) ends it. *)
Theorem collect_pages_ends (fuel : nat) :
  collect_pages fetchPage fuel 1 [] [] = None <->
  forall i, 1 <= i <= Z.of_nat fuel -> page_full fetchPage i.
Proof.
  split.
  - intros Hc i Hi. replace i with (1 + Z.of_nat (Z.to_nat (i - 1))) by lia.
    eapply collect_pages_None; [done | lia].
  - intros Hfull. replace fuel with (fuel + 0)%nat by lia.
    rewrite collect_pages_full; [done|].
    intros i Hi. apply Hfull. lia.
Qed.

Lemma collect_pages_thrown (n fuel : nat) (e : Thrown) :
  (n < fuel)%nat ->
  (forall i, 1 <= i <= Z.of_nat n -> page_full fetchPage i) ->
  fetchPage (Z.of_nat n + 1) = Throw e ->
  collect_pages fetchPage fuel 1 [] [] =
  Some {| requested := pages_from 1 (S n); outcome := Throw e |}.
Proof.
  intros Hfuel Hfull He. replace fuel with (n + S (fuel - S n))%nat by lia.
  rewrite collect_pages_full by (intros i Hi; apply Hfull; lia).
  rewrite (collect_pages_throws fetchPage _ _ _ _ e)
    by (by rewrite Z.add_comm).
  rewrite pages_from_snoc. done.
Qed.

(** X15: a thrown value on a later page.  When the pages 1 to [n] are full
    and the call for page [n + 1] throws (as the gateway does on an abort),
    [globFiles] throws that value: the files of the pages before are not
    returned. *)
Theorem globFiles_throws_on_later_page (n fuel : nat) (e : Thrown) args :
  (n < fuel)%nat ->
  (forall i, 1 <= i <= Z.of_nat n -> page_full fetchPage i) ->
  fetchPage (Z.of_nat n + 1) = Throw e ->
  globFiles_from fetchPage fuel args = Some (Throw e).
Proof.
  intros Hfuel Hfull He. unfold globFiles_from.
  by rewrite (collect_pages_thrown n fuel e Hfuel Hfull He).
Qed.

(** X16: a glob without a limit and an offset.  When neither is given
    and [picomatch] builds the matcher of the pattern, [globFiles] returns
    the first hundred of the matched paths, each behind [/projectPath/];
    and what [picomatch] throws for the pattern is thrown by [globFiles],
    after the pages were collected. *)
Theorem globFiles_defaults fuel args collected allFiles :
  collect_pages fetchPage fuel 1 [] [] = Some collected ->
  outcome collected = Return allFiles ->
  limit args = None -> offset args = None ->
  (forall isMatch,
      picomatch (filePattern args) = Return isMatch ->
      globFiles_from fetchPage fuel args =
      Some (Return (rooted (extractProjectPath (project args)) <$>
                    take 100 (filter (fun p => isMatch p) allFiles)))) /\
  (forall e,
      picomatch (filePattern args) = Throw e ->
      globFiles_from fetchPage fuel args = Some (Throw e)).
Proof.
  intros Hc Ho Hlimit Hoffset.
  rewrite (globFiles_from_select _ _ _ _ _ Hc Ho), Hlimit, Hoffset. cbn [default].
  split.
  - intros isMatch Hmatcher. rewrite (select_files_matcher _ _ _ _ _ _ Hmatcher).
    pose proof (paginate_nat (filter (fun p => isMatch p) allFiles) 100 0) as Hp.
    rewrite drop_0 in Hp. change (Z.of_nat 100) with 100 in Hp.
    change (Z.of_nat 0) with 0 in Hp. by rewrite Hp.
  - intros e Hthrows. by rewrite (select_files_throws _ _ _ _ _ _ Hthrows).
Qed.

End PagesInGeneral.

(** ** What the grouping of a search keeps *)

Section SearchConserves.

Import Search.

Lemma total_chunks_snoc fileMap key :
  total_chunks (fileMap ++ [(key, [])]) = total_chunks fileMap.
Proof. unfold total_chunks. rewrite sum_list_with_app. simpl. lia. Qed.

Lemma has_snoc fileMap key : has (fileMap ++ [(key, [])]) key = true.
Proof.
  unfold has. rewrite existsb_app. simpl. unfold str_eqb.
  rewrite bool_decide_eq_true_2 by done. by rewrite orb_true_r.
Qed.

Lemma total_chunks_push fileMap key fragment :
  total_chunks (push_chunk fileMap key fragment) =
  (total_chunks fileMap + if has fileMap key then 1 else 0)%nat.
Proof.
  unfold total_chunks, has.
  induction fileMap as [|[k chunks] fileMap IH]; [done|].
  cbn [push_chunk existsb fst]. destruct (str_eqb k key).
  - cbn [sum_list_with snd orb]. rewrite length_app. simpl. lia.
  - cbn [sum_list_with snd orb]. rewrite IH. lia.
Qed.

Lemma total_chunks_group_item projectPath fileMap item :
  total_chunks (group_item projectPath fileMap item) =
  (total_chunks fileMap + if nonempty (data item) then 1 else 0)%nat.
Proof.
  unfold group_item.
  set (key := lit "/" ++ projectPath ++ lit "/" ++ path item).
  destruct (nonempty (data item)).
  - rewrite total_chunks_push. destruct (has fileMap key) eqn:Hhas.
    + by rewrite Hhas.
    + by rewrite has_snoc, total_chunks_snoc.
  - destruct (has fileMap key); [lia|]. rewrite total_chunks_snoc. lia.
Qed.

Lemma total_chunks_foldl projectPath items : forall fileMap,
  total_chunks (foldl (group_item projectPath) fileMap items) =
  (total_chunks fileMap + length (filter (fun item => data item <> []) items))%nat.
Proof.
  induction items as [|item items IH]; intros fileMap; [simpl; lia|].
  cbn [foldl]. rewrite IH, total_chunks_group_item.
  destruct (data item) as [|c d] eqn:Hd; cbn [nonempty].
  - rewrite filter_cons_False by (rewrite Hd; by intros ?). lia.
  - rewrite filter_cons_True by (by rewrite Hd). simpl. lia.
Qed.

Lemma fragment_of_length (d : jsstring) : (length (fragment_of d) <= 2063)%nat.
Proof.
  destruct (fragment_of_spec d) as [Hshort Hlong].
  destruct (decide (length (trim d) <= 2048)%nat) as [Hle|Hgt].
  - rewrite Hshort by done. lia.
  - rewrite Hlong by lia. rewrite length_app, length_take.
    change (length (lit "... (truncated)")) with 15%nat. lia.
Qed.

Lemma results_grouped projectPath items :
  results (group_results projectPath items) =
  (fun e => {| file := fst e; chunks := snd e |}) <$> grouped projectPath items.
Proof.
  unfold group_results. destruct items as [|item items]; [done|].
  cbn [results]. by rewrite foldl_group_item.
Qed.

(** X17: what the grouping of a search keeps.  In the result of
    [searchCode] no file stands twice, the files are the absolute paths of
    the items of the page, the chunks of all files together are as many as
    the items whose fragment is not empty (none is lost, none is doubled),
    and no chunk is longer than 2063 code units, the 2048 that are kept
    and the marker. *)
Theorem group_results_conserves (projectPath : jsstring)
    (items : list GitLabSearchItem) :
  let r := group_results projectPath items in
  NoDup (file <$> results r) /\
  (forall f, f ∈ file <$> results r <-> f ∈ absPath projectPath <$> items) /\
  sum_list_with (fun result => length (chunks result)) (results r) =
    length (filter (fun item => data item <> []) items) /\
  (forall result chunk, result ∈ results r -> chunk ∈ chunks result ->
                        (length chunk <= 2063)%nat).
Proof.
  intros r. unfold r.
  assert (file <$> results (group_results projectPath items) =
          first_appearances (absPath projectPath <$> items)) as Hfiles.
  { rewrite results_grouped. unfold grouped. rewrite <- !list_fmap_compose.
    rewrite <- (list_fmap_id (first_appearances _)) at 2.
    by apply list_fmap_ext. }
  split_and!.
  - rewrite Hfiles. apply NoDup_first_appearances.
  - intros f. rewrite Hfiles. apply elem_of_first_appearances.
  - unfold group_results. destruct items as [|item items]; [done|].
    cbn [results].
    pose proof (total_chunks_foldl projectPath (item :: items) []) as Htotal.
    change (total_chunks []) with 0%nat in Htotal. rewrite Nat.add_0_l in Htotal.
    rewrite <- Htotal. unfold total_chunks.
    generalize (foldl (group_item projectPath) [] (item :: items)).
    intros fileMap. induction fileMap as [|e fileMap IH]; [done|].
    rewrite fmap_cons. cbn [sum_list_with chunks]. by rewrite IH.
  - intros result chunk Hresult Hchunk. rewrite results_grouped in Hresult.
    apply list_elem_of_fmap in Hresult as ([f cs] & -> & Hin).
    unfold grouped in Hin. apply list_elem_of_fmap in Hin as (f' & [= -> ->] & _).
    cbn [chunks snd] in Hchunk. unfold chunks_for in Hchunk.
    apply list_elem_of_fmap in Hchunk as (item & -> & _).
    apply fragment_of_length.
Qed.

(** X18: a path filter that is no filter.  [searchCode] sends the same
    request for the paths [""] and ["."] as for no path; [listDirectory]
    for [""], ["."] and ["/"] as for no path; and [listProjects] for the
    search text [""] as for no search text. *)
Theorem blank_filters_are_absent {host : Host} {network : Network}
    {json_search : Json (list GitLabSearchItem)}
    {json_projects : Json (list ListProjects.GitLabProject)}
    {json_dir : Json (list ListDirectory.GitLabTreeItem)}
    (config : GitLabConfig) (project query : jsstring)
    (limit offset : option number) :
  let search p :=
    searchCode {| project := project; query := query; filter_path := p;
                  limit := limit; offset := offset |} config in
  let directory p :=
    ListDirectory.listDirectory
      {| ListDirectory.project := project; ListDirectory.dir_path := p;
         ListDirectory.limit := limit |} config in
  let projects s :=
    ListProjects.listProjects
      {| ListProjects.search := s; ListProjects.limit := limit;
         ListProjects.offset := offset |} config in
  search (Some []) = search None /\
  search (Some (lit ".")) = search None /\
  directory (Some []) = directory None /\
  directory (Some (lit ".")) = directory None /\
  directory (Some (lit "/")) = directory None /\
  projects (Some []) = projects None.
Proof. intros search directory projects. split_and!; reflexivity. Qed.

(** X19: the page that is asked for.  For a limit that is a whole number
    above 0 and an offset that is a whole number from 0 to below [2 ^ 46],
    [listProjects] and [searchCode] ask for pages of [min limit 100] items
    and for the page, counted from 1, that holds the item at the offset:
    the quotient is rounded, and its floor is the quotient of the integers
    all the same.  That page starts at the offset exactly when the offset
    is a multiple of the page size. *)
Theorem page_holds_offset {host : Host} {network : Network}
    {json : Json (list GitLabSearchItem)} (limit offset : Z) :
  0 < limit < 2 ^ 53 -> 0 <= offset < 2 ^ 46 ->
  let size := Z.min limit 100 in
  let page := offset / size + 1 in
  (1 <= size <= 100 /\ 1 <= page /\
   (page - 1) * size <= offset < page * size /\
   ((page - 1) * size = offset <-> offset mod size = 0)) /\
  (forall args,
      ListProjects.limit args = Some (whole limit) ->
      ListProjects.offset args = Some (whole offset) ->
      ListProjects.projects_path args =
      let apiPath := lit "projects?per_page=" ++ number_toString size ++
                     lit "&page=" ++ number_toString page ++
                     lit "&order_by=last_activity_at&sort=desc" in
      match ListProjects.search args with
      | Some (c :: q) =>
          Js.bind (encodeURIComponent (c :: q))
            (fun encodedSearch => Return (apiPath ++ lit "&search=" ++ encodedSearch))
      | _ => Return apiPath
      end) /\
  (forall args config,
      Search.limit args = Some (whole limit) ->
      Search.offset args = Some (whole offset) ->
      search_path args =
      search_path_with (number_toString size) (number_toString page) args /\
      searchCode args config =
      Js.bind (search_path args)
        (fun apiPath =>
           Js.bind (fetchFromGitLabAPI apiPath no_options config)
             (search_continue args))).
Proof.
  intros Hlimit Hoffset size page.
  assert (1 <= size <= 100) as Hsize by (unfold size; lia).
  pose proof (Z.div_mod offset size ltac:(lia)) as Hdiv.
  pose proof (Z.mod_pos_bound offset size ltac:(lia)) as Hmod.
  pose proof (Z.div_pos offset size ltac:(lia) ltac:(lia)) as Hpos.
  assert (safe size /\ safe page) as [Hsafe_size Hsafe_page].
  { unfold safe, page.
    pose proof (Z.div_le_upper_bound offset size (2 ^ 46) ltac:(lia) ltac:(nia)).
    assert (2 ^ 46 < 2 ^ 53) by (by apply Z.pow_lt_mono_r). lia. }
  assert (Number_toString (Math_min (whole limit) (whole 100)) = number_toString size
          /\ page_text (whole offset) (Math_min (whole limit) (whole 100)) =
             number_toString page) as [Hper Hpage].
  { rewrite Math_min_whole. fold size. split.
    - by apply Number_toString_whole.
    - unfold page_text. rewrite page_of_whole by done.
      by apply Number_toString_whole. }
  split_and!; try (unfold page; lia); try (unfold page; nia).
  - intros args Hl Ho. unfold ListProjects.projects_path.
    rewrite Hl, Ho. cbn [default]. unfold id. cbv zeta. rewrite Hper, Hpage.
    by destruct (ListProjects.search args) as [[|c q]|].
  - intros args config Hl Ho. split.
    + unfold search_path. rewrite Hl, Ho. cbn [default]. unfold id. cbv zeta.
      by rewrite Hper, Hpage.
    + unfold searchCode, search_path, search_path_with.
      destruct (encodeURIComponent (extractProjectPath (project args))); [|done].
      cbn [mbind outcome_bind Js.bind].
      destruct (encodeURIComponent (query args)); [|done].
      cbn [mbind outcome_bind Js.bind].
      destruct (filter_path args) as [p|]; [|done].
      destruct (nonempty p && negb (str_eqb p (lit "."))); [|done].
      by destruct (encodeURIComponent p).
Qed.

End SearchConserves.

(** ** The handler of the server *)

Section ServerHandler.

Import Server.

Context {host : Host} {network : Network}.
Context {Arguments : Type} {casts : Casts Arguments}.
Context {json_read : Json jsstring}
        {json_search : Json (list Search.GitLabSearchItem)}
        {json_projects : Json (list ListProjects.GitLabProject)}
        {json_glob : Json (list Glob.GitLabTreeItem)}
        {json_dir : Json (list ListDirectory.GitLabTreeItem)}.
Context {pretty_read : Pretty Read.GitLabReadResult}
        {pretty_search : Pretty Search.GitLabSearchResult}
        {pretty_projects : Pretty (list ListProjects.ProjectInfo)}
        {pretty_paths : Pretty (list jsstring)}.

(** Comparisons of two literals are decided. *)
Ltac decide_names :=
  repeat match goal with
    | |- context [str_eqb (lit ?a) (lit ?b)] =>
        let v := eval vm_compute in (str_eqb (lit a) (lit b)) in
        change (str_eqb (lit a) (lit b)) with v
    end;
  cbv iota.

(** What the handler makes of a tool that, on every path of the gateway,
    gets the same result [gateway]. *)
Lemma tool_on_gateway {T R} {json : Json T} config (run : Outcome R)
    (continue : GitLabResponse T -> Outcome R)
    (gateway : Outcome (GitLabResponse T)) :
  one_call config run continue ->
  (forall path, fetchFromGitLabAPI (T := T) path no_options config = gateway) ->
  (exists e, run = Throw e /\ encoding_throws e) \/ run = Js.bind gateway continue.
Proof.
  intros [(e & -> & He) | (apiPath & ->)] Hgateway; [eauto|].
  right. by rewrite Hgateway.
Qed.

(** The page source of [globFiles] gets the same result on every page. *)
Lemma globFiles_first_page fuel args config
    (gateway : Outcome (GitLabResponse (list Glob.GitLabTreeItem))) :
  (forall path, fetchFromGitLabAPI path no_options config = gateway) ->
  (exists e, Glob.globFiles (S fuel) args config = Some (Throw e) /\
             encoding_throws e) \/
  (exists fetchPage,
      Glob.globFiles (S fuel) args config = Glob.globFiles_from fetchPage (S fuel) args /\
      forall page, fetchPage page = gateway).
Proof.
  intros Hgateway. unfold Glob.globFiles.
  destruct (encodeURIComponent (extractProjectPath (Glob.project args)))
    as [encoded|e] eqn:He.
  - right. eexists. split; [reflexivity|]. intros page. apply Hgateway.
  - left. exists e. split; [done|]. by eexists.
Qed.

(** X20: a tool the handler does not know.  For a name that is none of
    the five tool names the handler calls no tool: it answers the text
    [Error: Unknown tool: ] and the name, marked as an error, whatever the
    arguments and the network are. *)
Theorem handle_call_unknown_tool fuel config (request : CallToolRequest Arguments) :
  name request ∉ tool_names ->
  handle_call fuel config request =
  Some {| text := lit "Error: Unknown tool: " ++ name request; isError := true |}.
Proof.
  intros Hname. unfold tool_names in Hname. cbn [fmap list_fmap failure_heads fst] in Hname.
  rewrite !not_elem_of_cons in Hname.
  destruct Hname as (H1 & H2 & H3 & H4 & H5 & _).
  unfold handle_call, run_tool, str_eqb.
  by rewrite !bool_decide_eq_false_2.
Qed.

(** X21: an abort seen from the handler.  When every call of [fetch] is
    aborted, the handler answers every known tool with an error text: the
    abort that the gateway and the tool passed on is caught here, and its
    message is shown behind [Error: ] like that of any other failure. *)
Theorem handle_call_reports_abort fuel config (request : CallToolRequest Arguments)
    (message : jsstring) :
  let abort := ThrownError (lit "AbortError") message in
  (forall url init, transport_throws (fetch url init) abort) ->
  name request ∈ tool_names ->
  exists t,
    handle_call (S fuel) config request = Some {| text := t; isError := true |} /\
    ((exists e, encoding_throws e /\ t = error_text e) \/
     t = lit "Error: " ++ message).
Proof.
  intros abort Haborted Hname.
  assert (forall T (json : Json T) path,
             fetchFromGitLabAPI (T := T) path no_options config = Throw abort)
    as Hgateway by (intros; by apply gateway_aborted).
  unfold tool_names in Hname. cbn [fmap list_fmap failure_heads fst] in Hname.
  rewrite !elem_of_cons in Hname. unfold handle_call, run_tool.
  destruct Hname as [Hn | [Hn | [Hn | [Hn | [Hn | Hn]]]]];
    [| | | | | by apply elem_of_nil in Hn]; rewrite Hn; decide_names.
  - destruct (tool_on_gateway config _ _ _
                (readFile_one_call (as_read (arguments request)) config)
                (Hgateway _ _)) as [(e & -> & He) | ->];
      eexists; (split; [reflexivity|]); [left; eauto | by right].
  - destruct (tool_on_gateway config _ _ _
                (searchCode_one_call (as_search (arguments request)) config)
                (Hgateway _ _)) as [(e & -> & He) | ->];
      eexists; (split; [reflexivity|]); [left; eauto | by right].
  - destruct (tool_on_gateway config _ _ _
                (listProjects_one_call (as_list_projects (arguments request)) config)
                (Hgateway _ _)) as [(e & -> & He) | ->];
      eexists; (split; [reflexivity|]); [left; eauto | by right].
  - destruct (globFiles_first_page fuel (as_glob (arguments request)) config _
                (Hgateway _ _)) as [(e & -> & He) | (fetchPage & -> & Hpage)].
    + eexists; (split; [reflexivity|]). left; eauto.
    + unfold Glob.globFiles_from. cbn [Glob.collect_pages]. rewrite Hpage.
      eexists; (split; [reflexivity|]). by right.
  - destruct (tool_on_gateway config _ _ _
                (listDirectory_one_call (as_list_directory (arguments request)) config)
                (Hgateway _ _)) as [(e & -> & He) | ->];
      eexists; (split; [reflexivity|]); [left; eauto | by right].
Qed.

(** X22: a network failure seen from the handler.  When every call of
    [fetch] fails with an [Error] that is no abort, the handler answers
    every known tool with an error text: [Error: ], the failure message of
    the tool, the status 0 and the message of the failure ([Unknown error]
    when that is empty); [globFiles] fails so on its first page. *)
Theorem handle_call_reports_network_failure fuel config
    (request : CallToolRequest Arguments) (kind message head : jsstring) :
  (forall url init, transport_throws (fetch url init) (ThrownError kind message)) ->
  kind <> lit "AbortError" ->
  (name request, head) ∈ failure_heads ->
  exists t,
    handle_call (S fuel) config request = Some {| text := t; isError := true |} /\
    ((exists e, encoding_throws e /\ t = error_text e) \/
     t = lit "Error: " ++ head ++ lit "0 " ++ shown message).
Proof.
  intros Hdown Hkind Hname.
  assert (forall T (json : Json T) path,
             fetchFromGitLabAPI (T := T) path no_options config =
             Return (failure_result message))
    as Hgateway by (intros; by eapply gateway_down).
  unfold failure_heads in Hname.
  rewrite !elem_of_cons in Hname. unfold handle_call, run_tool.
  destruct Hname as [Hn | [Hn | [Hn | [Hn | [Hn | Hn]]]]];
    [| | | | | by apply elem_of_nil in Hn];
    injection Hn as Hn ->; rewrite Hn; decide_names.
  - destruct (tool_on_gateway config _ _ _
                (readFile_one_call (as_read (arguments request)) config)
                (Hgateway _ _)) as [(e & -> & He) | ->];
      eexists; (split; [reflexivity|]); [left; eauto | by right].
  - destruct (tool_on_gateway config _ _ _
                (searchCode_one_call (as_search (arguments request)) config)
                (Hgateway _ _)) as [(e & -> & He) | ->];
      eexists; (split; [reflexivity|]); [left; eauto | by right].
  - destruct (tool_on_gateway config _ _ _
                (listProjects_one_call (as_list_projects (arguments request)) config)
                (Hgateway _ _)) as [(e & -> & He) | ->];
      eexists; (split; [reflexivity|]); [left; eauto | by right].
  - destruct (globFiles_first_page fuel (as_glob (arguments request)) config _
                (Hgateway _ _)) as [(e & -> & He) | (fetchPage & -> & Hpage)].
    + eexists; (split; [reflexivity|]). left; eauto.
    + unfold Glob.globFiles_from. cbn [Glob.collect_pages]. rewrite Hpage.
      eexists; (split; [reflexivity|]). by right.
  - destruct (tool_on_gateway config _ _ _
                (listDirectory_one_call (as_list_directory (arguments request)) config)
                (Hgateway _ _)) as [(e & -> & He) | ->];
      eexists; (split; [reflexivity|]); [left; eauto | by right].
Qed.

End ServerHandler.

(** ** Runs of the further properties *)

Section FurtherRuns.

Import TestHost.

#[local] Existing Instance no_json.
#[local] Existing Instance braces.

(** A decidable proposition on closed data is settled by evaluation. *)
Ltac decided :=
  match goal with
  | |- ?P => apply (bool_decide_unpack P); by vm_compute
  end.

Lemma build_request_headers_witness :
  exists init,
    build_request no_options gitlab = Return init /\
    init_headers init !! lit "PRIVATE-TOKEN" = Some (lit "secret").
Proof.
  destruct (build_request_without_body (host := host) no_options gitlab eq_refl)
    as [init Hinit].
  exists init. split; [done|].
  destruct (build_request_headers no_options gitlab init Hinit) as (_ & Htoken & _).
  apply Htoken. apply lookup_empty.
Defined.

Lemma extractProjectPath_of_url_witness :
  extractProjectPath
    (lit "https" ++ lit "://" ++ lit "gitlab.com" ++ lit "/" ++
     lit "group/project" ++ lit ".git") = lit "group/project".
Proof.
  destruct (extractProjectPath_of_url (lit "https") (lit "gitlab.com")
              (lit "group/project")) as [Hgit _];
    [by right | by vm_compute | decided | exact Hgit].
Defined.

Lemma read_content_empty_range_witness :
  Read.read_content five_lines (Some (whole 3, whole 0)) = Return [].
Proof. apply read_content_empty_range; [unfold safe; lia | lia | left; lia]. Defined.

Lemma read_content_numbers_lines_witness :
  exists out,
    Read.read_content five_lines (Some (whole 2, whole 3)) =
    Return (join Read.newline out) /\
    Z.of_nat (length out) = 2.
Proof.
  destruct (read_content_numbers_lines five_lines 2 3)
    as (out & Hread & Hlength & _);
    [lia | lia | lia | by vm_compute | by vm_compute |].
  exists out. split; [done | lia].
Defined.

Lemma tools_report_network_failure_witness :
  exists e,
    Read.readFile (network := network_down) read_readme gitlab = Throw e /\
    (encoding_throws e \/
     e = ThrownError (lit "Error")
           (lit "Failed to read file: 0 " ++ shown (lit "fetch failed"))).
Proof.
  apply (tools_report_network_failure (network := network_down)
           (lit "TypeError") (lit "fetch failed")
           ltac:(intros; by left) ltac:(by vm_compute)
           gitlab read_readme search_todo first_projects list_root).
Defined.

Lemma tools_pass_abort_on_witness :
  exists e,
    ListDirectory.listDirectory (network := network_aborted) list_root gitlab =
    Throw e /\
    (encoding_throws e \/ e = aborted).
Proof.
  apply (tools_pass_abort_on (network := network_aborted) aborted
           ltac:(intros; by left) eq_refl
           gitlab read_readme search_todo first_projects list_root).
Defined.

Lemma tools_on_success_without_json_witness :
  (exists e, Search.searchCode (network := answers plain_reply) search_todo gitlab =
             Throw e /\ encoding_throws e) \/
  Search.searchCode (network := answers plain_reply) search_todo gitlab =
  Return {| Search.results := []; Search.totalCount := 0 |}.
Proof.
  apply (tools_on_success_without_json (network := answers plain_reply)
           plain_response (join Read.newline [lit "a"; lit "b"])
           ltac:(intros; reflexivity) ltac:(simpl; lia) eq_refl
           gitlab read_readme search_todo first_projects list_root).
Defined.

Lemma collect_pages_sequential_witness :
  exists k, (1 <= k <= 5)%nat /\ pages_from 1 k = [1; 2].
Proof.
  destruct (collect_pages_sequential (serve [blob_page 100; blob_page 3]) 5
              {| Glob.requested := [1; 2];
                 Glob.outcome :=
                   Return (Glob.blob_paths (blob_page 100) ++
                           Glob.blob_paths (blob_page 3)) |})
    as (k & Hk & Hrequested & _); [by vm_compute|].
  exists k. split; [lia | done].
Defined.

Lemma globFiles_throws_on_later_page_witness :
  Glob.globFiles_from (serve_then_abort [blob_page 100]) 2 glob_all =
  Some (Throw aborted).
Proof.
  apply (globFiles_throws_on_later_page (serve_then_abort [blob_page 100]) 1 2).
  - lia.
  - intros i Hi. assert (i = 1) as -> by lia.
    exists (blob_page 100). split; [|by vm_compute].
    eexists. split; [reflexivity | done].
  - reflexivity.
Defined.

Lemma globFiles_defaults_witness :
  Glob.globFiles_from (serve [blob_page 3]) 1 glob_all =
  Some (Return (rooted (lit "group/project") <$> Glob.blob_paths (blob_page 3))).
Proof.
  destruct (globFiles_defaults (serve [blob_page 3]) 1 glob_all
              {| Glob.requested := [1];
                 Glob.outcome := Return (Glob.blob_paths (blob_page 3)) |}
              (Glob.blob_paths (blob_page 3))
              ltac:(by vm_compute) eq_refl eq_refl eq_refl) as [Hmatcher _].
  rewrite (Hmatcher (Posix.glob (lit "*")) eq_refl). by vm_compute.
Defined.

Lemma page_holds_offset_witness :
  ListProjects.projects_path
    {| ListProjects.search := None; ListProjects.limit := Some (whole 25);
       ListProjects.offset := Some (whole 50) |} =
  Return (lit "projects?per_page=" ++ number_toString 25 ++
          lit "&page=" ++ number_toString 3 ++
          lit "&order_by=last_activity_at&sort=desc").
Proof.
  destruct (page_holds_offset (network := network_down) 25 50) as (_ & Hprojects & _);
    [lia | lia |].
  by rewrite Hprojects.
Defined.

Lemma handle_call_unknown_tool_witness :
  Server.handle_call (network := network_down) 0 gitlab (call (lit "delete_project")) =
  Some {| Server.text := lit "Error: Unknown tool: " ++ lit "delete_project";
          Server.isError := true |}.
Proof.
  apply (handle_call_unknown_tool (network := network_down) 0 gitlab
           (call (lit "delete_project"))).
  decided.
Defined.

Lemma handle_call_reports_abort_witness :
  exists t,
    Server.handle_call (network := network_aborted) 1 gitlab (call (lit "glob_files")) =
    Some {| Server.text := t; Server.isError := true |} /\
    ((exists e, encoding_throws e /\ t = Server.error_text e) \/
     t = lit "Error: " ++ lit "This operation was aborted").
Proof.
  apply (handle_call_reports_abort (network := network_aborted) 0 gitlab
           (call (lit "glob_files")) (lit "This operation was aborted")).
  - intros url init. by left.
  - decided.
Defined.

Lemma handle_call_reports_network_failure_witness :
  exists t,
    Server.handle_call (network := network_down) 1 gitlab (call (lit "search_code")) =
    Some {| Server.text := t; Server.isError := true |} /\
    ((exists e, encoding_throws e /\ t = Server.error_text e) \/
     t = lit "Error: " ++ lit "Failed to search code: " ++ lit "0 " ++
         shown (lit "fetch failed")).
Proof.
  apply (handle_call_reports_network_failure (network := network_down) 0 gitlab
           (call (lit "search_code")) (lit "TypeError") (lit "fetch failed")
           (lit "Failed to search code: ")).
  - intros url init. by left.
  - by vm_compute.
  - decided.
Defined.

End FurtherRuns.
